(** * Sentra-Emo: the affective-mapping pipeline, embedded and verified

  A shallow embedding of [sentra-emo/app/analysis.py], [app/models.py] and
  the metrics part of [app/main.py].

  Conventions of the embedding.
  - In Parts I to III a Python [float] is a rational [Q], infinities and
    NaN left out, and [float(x)] of a float is [x]: what is proved there
    rests on comparisons, order, counting and the shape of the results.
    Part IV embeds [map_distribution], [derive_stress], the two
    normalisations and [_percentile] again on binary64 floats, where what
    is proved is about the values the arithmetic gives.
  - A Python [str] is a [string] of bytes, its UTF-8 encoding.  White
    space is that of [str.isspace]; the case mapping is the ASCII one
    (bytes above 127 are left alone), which is [str.lower] on ASCII text.
  - A call that can raise returns a [result]; [None] as a Python value is
    [option]'s [None].
  - Module-level globals ([_vad_mapper], [_negative_labels], [_vad_status],
    [_metrics]) are fields of explicit state records, threaded through.
  - What [app/config.py], [pathlib], the file system, the clock and the
    classifiers supply is an argument of the function that asks for it. *)

From Stdlib Require Import QArith Qround Qminmax Lqa Lia ZArith.
From Stdlib Require Import Sorting.Sorted Sorting.Permutation Ascii.
From Stdlib Require OrderedTypeEx.
From Stdlib Require Floats.
From stdpp Require Import base option list strings gmap.

(** ** Python primitives *)

Module Py.

Inductive exn : Type :=
| ZeroDivisionError
| IndexError
| ValueError
| OverflowError
| RuntimeError
| AttributeError
| HTTPException (status : nat).

Inductive result (A : Type) : Type :=
| Returns (a : A)
| Raises (e : exn).
Arguments Returns {A} a.
Arguments Raises {A} e.

#[export] Instance result_ret : MRet result := fun A a => Returns a.
#[export] Instance result_bind : MBind result := fun A B f r =>
  match r with
  | Returns a => f a
  | Raises e => Raises e
  end.

(** [mapM] for [result]: a list comprehension whose body can raise. *)
Fixpoint traverse {A B : Type} (f : A -> result B) (l : list A) : result (list B) :=
  match l with
  | [] => Returns []
  | x :: xs => y ← f x; ys ← traverse f xs; Returns (y :: ys)
  end.

Definition ltb (x y : Q) : bool := negb (Qle_bool y x).
Definition leb (x y : Q) : bool := Qle_bool x y.

(** [max(a, b)] and [min(a, b)]: the first argument unless the second is
    strictly better. *)
Definition max (a b : Q) : Q := if ltb a b then b else a.
Definition min (a b : Q) : Q := if ltb b a then b else a.

(** [sum(xs)]: left to right, from 0. *)
Definition sum (xs : list Q) : Q := fold_left Qplus xs 0%Q.

(** [a / b] on floats. *)
Definition truediv (a b : Q) : result Q :=
  if Qeq_bool b 0 then Raises ZeroDivisionError else Returns (a / b)%Q.

(** [int(x)] of a float: truncation toward zero. *)
Definition int (x : Q) : Z := Z.quot (Qnum x) (Zpos (Qden x)).

(** [sorted] / [list.sort]: a stable sort.  [before y x] says that [y] must
    come strictly before [x]; an element never overtakes one that is not
    strictly after it, so equal keys keep their input order. *)
Fixpoint insert_stable {A : Type} (before : A -> A -> bool) (x : A) (l : list A) : list A :=
  match l with
  | [] => [x]
  | y :: ys => if before y x then y :: insert_stable before x ys else x :: y :: ys
  end.

Definition stable_sort {A : Type} (before : A -> A -> bool) (l : list A) : list A :=
  foldr (insert_stable before) [] l.

(** [sorted(values)] on floats. *)
Definition sorted (values : list Q) : list Q :=
  stable_sort (fun y x => ltb y x) values.

(** [max(l, key=key)]: the first element whose key none exceeds;
    [ValueError] on the empty list. *)
Definition max_by {A : Type} (key : A -> Q) (l : list A) : result A :=
  match l with
  | [] => Raises ValueError
  | x :: xs =>
      Returns (fold_left (fun best y => if ltb (key best) (key y) then y else best) xs x)
  end.

(** [l[:k]] *)
Definition slice_to {A : Type} (k : Z) (l : list A) : list A :=
  if (0 <=? k)%Z then take (Z.to_nat k) l
  else take (Z.to_nat (Z.of_nat (length l) + k)) l.

(** [l[i]] for an [int] index that is not negative. *)
Definition getitem {A : Type} (l : list A) (i : Z) : result A :=
  match l !! Z.to_nat i with
  | Some x => Returns x
  | None => Raises IndexError
  end.

(** *** Strings *)

Definition is_upper (c : ascii) : bool :=
  let n := nat_of_ascii c in (65 <=? n)%nat && (n <=? 90)%nat.

Definition lower_ascii (c : ascii) : ascii :=
  if is_upper c then ascii_of_nat (nat_of_ascii c + 32) else c.

(** [s.lower()] *)
Fixpoint lower (s : string) : string :=
  match s with
  | EmptyString => EmptyString
  | String c s' => String (lower_ascii c) (lower s')
  end.

(** [s.isascii()].  On such a string [lower] above is [str.lower]. *)
Fixpoint isascii (s : string) : bool :=
  match s with
  | EmptyString => true
  | String c s' => (nat_of_ascii c <? 128)%nat && isascii s'
  end.

(** [c.isspace()] for a character of one byte: tab to carriage return,
    the four separators, space. *)
Definition is_space (c : ascii) : bool :=
  let n := nat_of_ascii c in
  ((9 <=? n)%nat && (n <=? 13)%nat) || ((28 <=? n)%nat && (n <=? 32)%nat).

(** The number of bytes of the white-space character [s] starts with, 0
    when it starts with none.  Beyond one byte, [str.isspace] holds of
    U+0085 and U+00A0 (C2 85, C2 A0), U+1680 (E1 9A 80), U+2000 to U+200A,
    U+2028, U+2029 and U+202F (E2 80 80 to 8A, A8, A9, AF), U+205F
    (E2 81 9F) and U+3000 (E3 80 80). *)
Definition space_width (s : string) : nat :=
  match s with
  | EmptyString => 0
  | String c rest =>
      if is_space c then 1
      else
        let b0 := nat_of_ascii c in
        match rest with
        | String d rest' =>
            let b1 := nat_of_ascii d in
            if (b0 =? 194)%nat then
              if (b1 =? 133)%nat || (b1 =? 160)%nat then 2 else 0
            else
              match rest' with
              | String e _ =>
                  let b2 := nat_of_ascii e in
                  if (b0 =? 225)%nat then
                    if (b1 =? 154)%nat && (b2 =? 128)%nat then 3 else 0
                  else if (b0 =? 226)%nat then
                    if (b1 =? 128)%nat &&
                       (((128 <=? b2)%nat && (b2 <=? 138)%nat) ||
                        (b2 =? 168)%nat || (b2 =? 169)%nat || (b2 =? 175)%nat)
                    then 3
                    else if (b1 =? 129)%nat && (b2 =? 159)%nat then 3 else 0
                  else if (b0 =? 227)%nat then
                    if (b1 =? 128)%nat && (b2 =? 128)%nat then 3 else 0
                  else 0
              | EmptyString => 0
              end
        | EmptyString => 0
        end
  end.

(** [s] without its leading white space, after [skip] more bytes of the
    character being dropped. *)
Fixpoint drop_spaces (skip : nat) (s : string) : string :=
  match s with
  | EmptyString => EmptyString
  | String _ s' =>
      match skip with
      | S k => drop_spaces k s'
      | O =>
          match space_width s with
          | O => s
          | S k => drop_spaces k s'
          end
      end
  end.

Definition lstrip (s : string) : string := drop_spaces 0 s.

(** Whether [s] is white space only, after [skip] more bytes of the
    character being read. *)
Fixpoint only_spaces (skip : nat) (s : string) : bool :=
  match s with
  | EmptyString => true
  | String _ s' =>
      match skip with
      | S k => only_spaces k s'
      | O =>
          match space_width s with
          | O => false
          | S k => only_spaces k s'
          end
      end
  end.

Fixpoint rstrip (s : string) : string :=
  match s with
  | EmptyString => EmptyString
  | String c s' => if only_spaces 0 s then EmptyString else String c (rstrip s')
  end.

(** [s.strip()] *)
Definition strip (s : string) : string := rstrip (lstrip s).

Fixpoint take_token (s : string) : string :=
  match s with
  | EmptyString => EmptyString
  | String c s' =>
      match space_width s with
      | O => String c (take_token s')
      | S _ => EmptyString
      end
  end.

(** [s.split()[0]]; [IndexError] when [s] has no token. *)
Definition first_token (s : string) : result string :=
  match lstrip s with
  | EmptyString => Raises IndexError
  | t => Returns (take_token t)
  end.

(** [pat in s] *)
Fixpoint contains (pat s : string) : bool :=
  String.prefix pat s ||
  match s with
  | EmptyString => false
  | String _ s' => contains pat s'
  end.

(** [s.startswith(p)] *)
Definition startswith (s p : string) : bool := String.prefix p s.

Definition digit_value (c : ascii) : option Z :=
  let n := nat_of_ascii c in
  if (48 <=? n)%nat && (n <=? 57)%nat then Some (Z.of_nat (n - 48)) else None.

(** Decimal digits, single underscores allowed between two digits. *)
Fixpoint digits (s : string) (acc : Z) (after_digit : bool) : option Z :=
  match s with
  | EmptyString => if after_digit then Some acc else None
  | String c s' =>
      match digit_value c with
      | Some d => digits s' (10 * acc + d)%Z true
      | None =>
          if Ascii.eqb c "_"%char && after_digit then digits s' acc false else None
      end
  end.

(** [int(s)] of a string, base 10; [ValueError] when [s] is no literal. *)
Definition int_of_str (s : string) : result Z :=
  let s := strip s in
  let signed :=
    match s with
    | String "-"%char s' => Z.opp <$> digits s' 0 false
    | String "+"%char s' => digits s' 0 false
    | _ => digits s 0 false
    end in
  match signed with
  | Some z => Returns z
  | None => Raises ValueError
  end.

(** *** [dict] with string keys: the items in insertion order, keys distinct *)

Definition dict (V : Type) : Type := list (string * V).

(** [d.get(k)] *)
Fixpoint dict_lookup {V : Type} (k : string) (d : dict V) : option V :=
  match d with
  | [] => None
  | (k', v) :: d' => if String.eqb k' k then Some v else dict_lookup k d'
  end.

(** [d.get(k, dflt)] *)
Definition dict_get {V : Type} (k : string) (dflt : V) (d : dict V) : V :=
  default dflt (dict_lookup k d).

(** [d[k] = v]: in place when [k] is a key, appended otherwise. *)
Fixpoint dict_set {V : Type} (k : string) (v : V) (d : dict V) : dict V :=
  match d with
  | [] => [(k, v)]
  | (k', v') :: d' =>
      if String.eqb k' k then (k', v) :: d' else (k', v') :: dict_set k v d'
  end.

(** [d.setdefault(k, v)], for its effect on [d]. *)
Definition dict_setdefault {V : Type} (k : string) (v : V) (d : dict V) : dict V :=
  match dict_lookup k d with
  | Some _ => d
  | None => d ++ [(k, v)]
  end.

Definition dict_keys {V : Type} (d : dict V) : list string := map fst d.
Definition dict_values {V : Type} (d : dict V) : list V := map snd d.

End Py.

(** ** [app/main.py]: the metrics aggregator *)

Module Main.
Import Py.

(** The [_metrics] dictionary. *)
Record Metrics : Type := {
  start_time : Q;
  inference_latencies_ms : list Q;
  inference_count : nat;
  error_count : nat;
  emotion_top1_scores : list Q;
  emotion_top1_times : list Q;
}.

Definition initial_metrics (t : Q) : Metrics :=
  {| start_time := t;
     inference_latencies_ms := [];
     inference_count := 0;
     error_count := 0;
     emotion_top1_scores := [];
     emotion_top1_times := [] |}.

(** [buf.append(x); if len(buf) > 2000: del buf[: len(buf) - 1000]] *)
Definition append_capped (buf : list Q) (x : Q) : list Q :=
  let buf := buf ++ [x] in
  if (2000 <? length buf)%nat then drop (length buf - 1000) buf else buf.

Definition _record_latency_ms (ms : Q) (m : Metrics) : Metrics :=
  {| start_time := start_time m;
     inference_latencies_ms := append_capped (inference_latencies_ms m) ms;
     inference_count := inference_count m + 1;
     error_count := error_count m;
     emotion_top1_scores := emotion_top1_scores m;
     emotion_top1_times := emotion_top1_times m |}.

Definition _percentile (values : list Q) (q : Q) : result (option Q) :=
  match values with
  | [] => Returns None
  | _ =>
      let s := sorted values in
      let n := Z.of_nat (length s) in
      let idx := int (q * inject_Z (n - 1)) in
      let idx := Z.max 0 (Z.min idx (n - 1)) in
      x ← getitem s idx; Returns (Some x)
  end.

(** [now] is the reading of [time.perf_counter()] inside the call.  The two
    buffers are appended to, then both are cut when the score buffer is
    over the cap, each by its own length. *)
Definition _record_emotion_top1 (score now : Q) (m : Metrics) : Metrics :=
  let scores := emotion_top1_scores m ++ [score] in
  let times := emotion_top1_times m ++ [now] in
  let over := (2000 <? length scores)%nat in
  {| start_time := start_time m;
     inference_latencies_ms := inference_latencies_ms m;
     inference_count := inference_count m;
     error_count := error_count m;
     emotion_top1_scores :=
       if over then drop (length scores - 1000) scores else scores;
     emotion_top1_times :=
       if over then drop (length times - 1000) times else times |}.

(** The [try] block of [analyze] up to the response it builds: loading
    the models, running the classifiers and mapping their output.  It
    raises, or it yields [canon_pairs], the emotions of the response. *)
Inductive body : Type :=
| BodyRaises
| BodyReturns (canon_pairs : list (string * Q)).

(** One request: the text, what the [try] block does with it, and the three
    readings of [time.perf_counter()] the handler can take: [t0] on entry,
    [t1] for the latency, [t2] inside [_record_emotion_top1]. *)
Record Request : Type := {
  text : string;
  outcome : body;
  t0 : Q;
  t1 : Q;
  t2 : Q;
}.

(** [analyze]: the metrics it leaves, and the emotions it answers with or
    the HTTP error it raises. *)
Definition analyze (req : Request) (m : Metrics)
    : Metrics * result (list (string * Q)) :=
  let text := strip (text req) in
  if String.eqb text "" then (m, Raises (HTTPException 400))
  else
    let dt_ms := ((t1 req - t0 req) * 1000.0)%Q in
    match outcome req with
    | BodyReturns canon_pairs =>
        let m := _record_latency_ms dt_ms m in
        let m :=
          match canon_pairs with
          | first :: _ => _record_emotion_top1 first.2 (t2 req) m
          | [] => m
          end in
        (m, Returns canon_pairs)
    | BodyRaises =>
        let m := _record_latency_ms dt_ms m in
        let m :=
          {| start_time := start_time m;
             inference_latencies_ms := inference_latencies_ms m;
             inference_count := inference_count m;
             error_count := error_count m + 1;
             emotion_top1_scores := emotion_top1_scores m;
             emotion_top1_times := emotion_top1_times m |} in
        (m, Raises (HTTPException 500))
    end.

(** The metrics after a sequence of requests, oldest first. *)
Definition serve (reqs : list Request) (m : Metrics) : Metrics :=
  fold_left (fun m req => (analyze req m).1) reqs m.

(** A call of one of the two recorders. *)
Inductive record_call : Type :=
| RecordLatency (ms : Q)
| RecordTop1 (score now : Q).

Definition record (c : record_call) (m : Metrics) : Metrics :=
  match c with
  | RecordLatency ms => _record_latency_ms ms m
  | RecordTop1 score now => _record_emotion_top1 score now m
  end.

Definition record_all (calls : list record_call) (m : Metrics) : Metrics :=
  fold_left (fun m c => record c m) calls m.

End Main.

(** ** [app/analysis.py]: labels, the VAD table, negative labels, stress *)

Module Analysis.
Import Py.

(** A (valence, arousal, dominance) tuple. *)
Definition VAD : Type := (Q * Q * Q)%type.

Definition valence (x : VAD) : Q := x.1.1.
Definition arousal (x : VAD) : Q := x.1.2.
Definition dominance (x : VAD) : Q := x.2.

Definition neutral_vad : VAD := (0.5, 0.5, 0.5)%Q.

Record VADMapper : Type := {
  mapping : gmap string VAD;
  alias : gmap string string;
}.

(** [VADMapper.__init__]: both tables are rebuilt with lower-cased keys, a
    later item overwriting an earlier one with the same lowered key. *)
Definition VADMapper_init (mapping : list (string * VAD))
    (alias : option (list (string * string))) : VADMapper :=
  {| mapping := fold_left (fun m kv => <[lower kv.1 := kv.2]> m) mapping ∅;
     alias := fold_left (fun m kv => <[lower kv.1 := lower kv.2]> m)
                (default [] alias) ∅ |}.

Definition canonical (self : VADMapper) (label : string) : string :=
  let l := lower label in
  default l (alias self !! l).

Definition map_label (self : VADMapper) (label : string) : VAD :=
  let key := canonical self label in
  default neutral_vad (mapping self !! key).

(** One turn of the loop of [map_distribution] on the accumulators
    [(v, a, d, total)]. *)
Definition accumulate (self : VADMapper) (acc : Q * Q * Q * Q)
    (item : string * Q) : Q * Q * Q * Q :=
  let '(v, a, d, total) := acc in
  let '(label, score) := item in
  let '(vv, aa, dd) := map_label self label in
  (v + score * vv, a + score * aa, d + score * dd, total + score)%Q.

Definition map_distribution (self : VADMapper)
    (distribution : list (string * Q)) : result VAD :=
  match distribution with
  | [] => Returns neutral_vad
  | _ =>
      let '(v, a, d, total) :=
        fold_left (accumulate self) distribution (0.0, 0.0, 0.0, 0.0)%Q in
      if leb total 0 then Returns neutral_vad
      else
        v' ← truediv v total;
        a' ← truediv a total;
        d' ← truediv d total;
        Returns (v', a', d')
  end.

(** [normalize_distribution] *)
Definition normalize_distribution (pairs : list (string * Q))
    : result (list (string * Q)) :=
  let total := sum (map (fun p => max 0.0 p.2) pairs) in
  if leb total 0 then
    let n := match pairs with [] => 1%Z | _ => Z.of_nat (length pairs) end in
    traverse (fun p => u ← truediv 1.0 (inject_Z n); Returns (p.1, u)) pairs
  else
    traverse (fun p => x ← truediv (max 0.0 p.2) total; Returns (p.1, x)) pairs.

(** *** Module state and what the outside world supplies *)

(** [_vad_status] *)
Record VadStatus : Type := {
  emotion_model_dir : option string;
  map_path : option string;
  alias_path : option string;
  unknown_labels_path : option string;
  unknown_labels_count : nat;
  unknown_labels : list string;
  negative_path : option string;
  negative_labels_count : nat;
  negative_labels_source : option string;
  negative_threshold : option Q;
}.

Record State : Type := {
  _negative_labels : option (gset string);
  _vad_mapper : option VADMapper;
  _vad_status : VadStatus;
}.

Definition initial_status : VadStatus :=
  {| emotion_model_dir := None; map_path := None; alias_path := None;
     unknown_labels_path := None; unknown_labels_count := 0;
     unknown_labels := []; negative_path := None;
     negative_labels_count := 0; negative_labels_source := None;
     negative_threshold := None |}.

Definition initial_state : State :=
  {| _negative_labels := None; _vad_mapper := None;
     _vad_status := initial_status |}.

(** A value decoded by [json.loads].  A value that is not a string carries
    the text [str()] renders it as, which is not computed here. *)
#[warnings="-register-all"]
Inductive json : Type :=
| JStr (s : string)
| JScalar (text : string) (truth : bool)
| JList (text : string) (items : list json)
| JDict (text : string) (items : dict json).

(** [str(x)] *)
Definition py_str (x : json) : string :=
  match x with
  | JStr s => s
  | JScalar text _ => text
  | JList text _ => text
  | JDict text _ => text
  end.

(** [bool(x)] *)
Definition py_bool (x : json) : bool :=
  match x with
  | JStr s => negb (String.eqb s "")
  | JScalar _ truth => truth
  | JList _ items => match items with [] => false | _ => true end
  | JDict _ items => match items with [] => false | _ => true end
  end.

(** [app/config.py], the file system and the JSON decoder.
    [read_json p] is [json.loads(p.read_text(encoding="utf-8"))];
    [_load_mapping_from_json p] is the table that function hands to
    [VADMapper], or the exception it lets through. *)
Record Env : Type := {
  PROJECT_ROOT : string;
  get_negative_config_paths : string -> option string;
  get_negative_valence_threshold : Q;
  path_exists : string -> bool;
  read_json : string -> result json;
  _load_mapping_from_json : string -> result (list (string * VAD));
}.

(** [a / b] on paths *)
Definition path_join (a b : string) : string := a +:+ "/" +:+ b.

Definition with_mapper (st : State) (m : VADMapper) : State :=
  {| _negative_labels := _negative_labels st;
     _vad_mapper := Some m;
     _vad_status := _vad_status st |}.

Definition _ensure_default_mapper (env : Env) (st : State) : result State :=
  match _vad_mapper st with
  | Some _ => Returns st
  | None =>
      let default_path :=
        path_join (path_join (path_join (PROJECT_ROOT env) "app") "vad_maps")
          "default.json" in
      if path_exists env default_path then
        m ← _load_mapping_from_json env default_path;
        Returns (with_mapper st (VADMapper_init m None))
      else
        Returns (with_mapper st
                   (VADMapper_init [("neutral", (0.5, 0.3, 0.5)%Q)] None))
  end.

(** [if _vad_mapper is None: _ensure_default_mapper()] *)
Definition ensure_mapper (env : Env) (st : State) : result State :=
  match _vad_mapper st with
  | None => _ensure_default_mapper env st
  | Some _ => Returns st
  end.

Definition lowered (items : list json) : gset string :=
  list_to_set (map (fun x => lower (py_str x)) items).

(** [_load_negative_from_file]: [None] when reading or decoding raised. *)
Definition _load_negative_from_file (env : Env) (p : string)
    : option (gset string) :=
  match read_json env p with
  | Raises _ => None
  | Returns data =>
      Some match data with
           | JList _ items => lowered items
           | JDict _ items =>
               match dict_lookup "labels" items with
               | Some (JList _ labels) => lowered labels
               | _ =>
                   fold_left
                     (fun labels kv =>
                        if py_bool kv.2 then {[lower kv.1]} ∪ labels else labels)
                     items ∅
               end
           | _ => ∅
           end
  end.

Definition record_negative (st : State) (labels : gset string)
    (path : option string) (source : string) (threshold : option Q) : State :=
  let s := _vad_status st in
  {| _negative_labels := Some labels;
     _vad_mapper := _vad_mapper st;
     _vad_status :=
       {| emotion_model_dir := emotion_model_dir s;
          map_path := map_path s;
          alias_path := alias_path s;
          unknown_labels_path := unknown_labels_path s;
          unknown_labels_count := unknown_labels_count s;
          unknown_labels := unknown_labels s;
          negative_path := path;
          negative_labels_count := size labels;
          negative_labels_source := Some source;
          negative_threshold := threshold |} |}.

(** Step 1 of [init_negative_labels]: the explicit file, when there is one
    and it loads. *)
Definition explicit_negative (env : Env) (emotion_model_dir : string)
    : option (string * gset string) :=
  match get_negative_config_paths env emotion_model_dir with
  | Some neg_path =>
      if path_exists env neg_path then
        match _load_negative_from_file env neg_path with
        | Some loaded => Some (neg_path, loaded)
        | None => None
        end
      else None
  | None => None
  end.

(** Step 2: the labels whose valence is under the threshold. *)
Definition derive_negative (m : VADMapper) (threshold : Q)
    (candidates : list string) : gset string :=
  fold_left
    (fun derived lbl =>
       if ltb (valence (map_label m lbl)) threshold
       then {[canonical m lbl]} ∪ derived else derived)
    candidates ∅.

Definition init_negative_labels (env : Env) (emotion_model_dir : string)
    (emotion_labels : option (list string)) (st : State) : result State :=
  match explicit_negative env emotion_model_dir with
  | Some (neg_path, loaded) =>
      Returns (record_negative st loaded (Some neg_path) "file"
                 (negative_threshold (_vad_status st)))
  | None =>
      st ← ensure_mapper env st;
      match _vad_mapper st with
      | None => Raises AttributeError  (* not reached: a mapper was just ensured *)
      | Some m =>
          let threshold := get_negative_valence_threshold env in
          let candidates :=
            match emotion_labels with
            | Some (l :: ls) => l :: ls
            | _ => (map_to_list (mapping m)).*1
            end in
          Returns (record_negative st (derive_negative m threshold candidates)
                     None "derived" (Some threshold))
      end
  end.

Definition emotions_to_vad (env : Env) (distribution : list (string * Q))
    (st : State) : result (State * VAD) :=
  st ← ensure_mapper env st;
  match _vad_mapper st with
  | None => Raises AttributeError  (* not reached: the [assert] holds *)
  | Some m => r ← map_distribution m distribution; Returns (st, r)
  end.

(** The canonical form the module uses for [label] in state [st]:
    [_vad_mapper.canonical(lab) if _vad_mapper else lab.lower()]. *)
Definition canon_of (st : State) (label : string) : string :=
  match _vad_mapper st with
  | Some m => canonical m label
  | None => lower label
  end.

(** [_negative_labels and canon in _negative_labels] *)
Definition is_negative (st : State) (canon : string) : bool :=
  match _negative_labels st with
  | Some labels => bool_decide (canon ∈ labels)
  | None => false
  end.

(** The head of [derive_stress]: the negative labels are initialised, with
    no label hints, when they are not yet. *)
Definition ensure_negative_labels (env : Env) (st : State) : result State :=
  match _negative_labels st with
  | None =>
      init_negative_labels env
        (path_join (path_join (PROJECT_ROOT env) "models") "emotion")
        None st
  | Some _ => Returns st
  end.

Definition derive_stress (env : Env) (valence arousal : Q)
    (distribution : list (string * Q)) (st : State)
    : result (State * (Q * string)) :=
  st ← ensure_negative_labels env st;
  let neg_sum :=
    fold_left
      (fun neg_sum item =>
         if is_negative st (canon_of st item.1)
         then (neg_sum + item.2)%Q else neg_sum)
      distribution 0.0%Q in
  let stress := (0.6 * (1.0 - valence) + 0.4 * arousal + 0.15 * neg_sum)%Q in
  let stress := max 0.0 (min 1.0 stress) in
  let level :=
    if ltb stress 0.33 then "low"
    else if ltb stress 0.66 then "medium"
    else "high" in
  Returns (st, (stress, level)).

(** *** [canonicalize_distribution], on list objects

    The function builds a new list object and appends to it while it reads
    its argument, so lists live in a store, by address.  [fuel] bounds the
    turns of the loop; [None] is a loop cut short by it.  Labels are
    strings, on which [canonical] does not raise: the [except] branch of the
    loop body has no counterpart here. *)

Fixpoint canonicalize_loop (fuel : nat) (canon : string -> string)
    (distribution res i : nat) (h : gmap nat (list (string * Q)))
    : option (gmap nat (list (string * Q))) :=
  match fuel with
  | O => None
  | S fuel =>
      match h !! distribution ≫= (fun l => l !! i) with
      | None => Some h
      | Some (lbl, score) =>
          canonicalize_loop fuel canon distribution res (S i)
            (alter (fun l => l ++ [(canon lbl, score)]) res h)
      end
  end.

Definition canonicalize_distribution (env : Env) (fuel : nat)
    (distribution : nat) (h : gmap nat (list (string * Q))) (st : State)
    : option (result (gmap nat (list (string * Q)) * State * nat)) :=
  match ensure_mapper env st with
  | Raises e => Some (Raises e)
  | Returns st =>
      let res := fresh (dom h) in
      h ← canonicalize_loop fuel (canon_of st) distribution res 0
             (<[res := []]> h);
      Some (Returns (h, st, res))
  end.

End Analysis.

(** ** [app/models.py]: shaping what the classifiers return *)

Module Models.
Import Py.

(** One entry of a pipeline's output, a dict read with
    [it.get("label", "")] and [it.get("score", 0.0)]. *)
Record Item : Type := {
  item_label : option string;
  item_score : option Q;
}.

(** A pipeline's output: a list of entries, or a list holding such lists. *)
Inductive raw : Type :=
| Flat (items : list Item)
| Nested (items : list (list Item)).

Definition clamp_div (total : Q) (p : string * Q) : result (string * Q) :=
  x ← truediv (max 0.0 p.2) total; Returns (p.1, x).

(** The head of [_normalize_scores]: the first inner list when the output
    is nested, then one (label, score) pair per entry. *)
Definition to_pairs (items : raw) : list (string * Q) :=
  let items :=
    match items with
    | Flat l => l
    | Nested (l :: _) => l
    | Nested [] => []
    end in
  map (fun it => (strip (default "" (item_label it)),
                  default 0.0%Q (item_score it))) items.

Definition _normalize_scores (items : raw) (normalize : bool)
    : result (list (string * Q)) :=
  let pairs := to_pairs items in
  if normalize then
    let total := sum (map (fun p => max 0.0 p.2) pairs) in
    if ltb 0 total then traverse (clamp_div total) pairs else Returns pairs
  else Returns pairs.

(** [x or 1.0] *)
Definition or_one (x : Q) : Q := if Qeq_bool x 0 then 1.0%Q else x.

(** [{k: v / total for k, v in d.items()}] *)
Definition scale (total : Q) (d : dict Q) : result (dict Q) :=
  traverse (fun kv => x ← truediv kv.2 total; Returns (kv.1, x)) d.

(** [{"positive": pos / denom, "negative": neg / denom}], or the default
    when [denom <= 0]. *)
Definition two_way (pos neg : Q) : result (dict Q) :=
  let denom := (pos + neg)%Q in
  if leb denom 0 then Returns [("positive", 1.0%Q); ("negative", 0.0%Q)]
  else
    p ← truediv pos denom;
    n ← truediv neg denom;
    Returns [("positive", p); ("negative", n)].

(** [star_scores]: the score of each label that starts with an integer,
    by that integer; a label that does not is skipped. *)
Definition star_table (pairs : list (string * Q)) : gmap Z Q :=
  fold_left
    (fun (d : gmap Z Q) (p : string * Q) =>
       match first_token p.1 ≫= int_of_str with
       | Returns star => <[star := p.2]> d
       | Raises _ => d
       end)
    pairs ∅.

(** [(neg, neu, pos)]: one and two stars, three stars, four and five. *)
Definition star_buckets (pairs : list (string * Q)) : Q * Q * Q :=
  let star_scores := star_table pairs in
  let get (star : Z) := default 0.0%Q (star_scores !! star) in
  ((get 1%Z + get 2%Z)%Q, get 3%Z, (get 4%Z + get 5%Z)%Q).

(** The star-rating branch of [analyze_sentiment]. *)
Definition star_sentiment (neutral_mode : string) (pairs : list (string * Q))
    : result (dict Q) :=
  let '(neg, neu, pos) := star_buckets pairs in
  let total := max 1e-9 (neg + neu + pos) in
  neg' ← truediv neg total;
  neu' ← truediv neu total;
  pos' ← truediv pos total;
  let scores := [("negative", neg'); ("neutral", neu'); ("positive", pos')] in
  if String.eqb neutral_mode "off" then
    two_way (dict_get "positive" 0.0%Q scores) (dict_get "negative" 0.0%Q scores)
  else Returns scores.

Definition neutral_like (v : string) : bool :=
  let lv := lower v in contains "neu" lv || contains "neutral" lv.

(** Whether [id2label] names a neutral class; [None] is a config without a
    dict there. *)
Definition model_has_neutral (id2label : option (list string)) : bool :=
  match id2label with
  | Some values => existsb neutral_like values
  | None => false
  end.

Definition add_to (k : string) (s : Q) (tmp : dict Q) : dict Q :=
  dict_set k (dict_get k 0.0%Q tmp + s)%Q tmp.

(** One turn of the classifying loop on [(tmp, unknown_sum)]. *)
Definition classify (acc : dict Q * Q) (p : string * Q) : dict Q * Q :=
  let '(tmp, unknown_sum) := acc in
  let l := lower p.1 in
  if contains "pos" l || contains "positive" l then (add_to "positive" p.2 tmp, unknown_sum)
  else if contains "neg" l || contains "negative" l then (add_to "negative" p.2 tmp, unknown_sum)
  else if contains "neu" l || contains "neutral" l then (add_to "neutral" p.2 tmp, unknown_sum)
  else (tmp, (unknown_sum + p.2)%Q).

(** Whether the generic branch drops the neutral class. *)
Definition drops_neutral (neutral_mode : string) (has_neutral : bool) : bool :=
  String.eqb neutral_mode "off" ||
  (String.eqb neutral_mode "auto" && negb has_neutral).

(** [tmp] after the loop and after the unmatched mass has gone to
    [neutral], when the model has that class and the policy is not off. *)
Definition classified (has_neutral : bool) (neutral_mode : string)
    (pairs : list (string * Q)) : dict Q :=
  let '(tmp, unknown_sum) := fold_left classify pairs ([], 0.0%Q) in
  if (has_neutral && negb (String.eqb neutral_mode "off")) && ltb 0 unknown_sum
  then add_to "neutral" unknown_sum tmp else tmp.

(** The generic branch of [analyze_sentiment]. *)
Definition generic_sentiment (id2label : option (list string))
    (neutral_mode : string) (pairs : list (string * Q)) : result (dict Q) :=
  let has_neutral := model_has_neutral id2label in
  let tmp := classified has_neutral neutral_mode pairs in
  let total := or_one (sum (dict_values tmp)) in
  scores ← scale total tmp;
  if drops_neutral neutral_mode has_neutral then
    two_way (dict_get "positive" 0.0%Q scores) (dict_get "negative" 0.0%Q scores)
  else
    let scores :=
      fold_left (fun d k => dict_setdefault k 0.0%Q d)
        ["negative"; "neutral"; "positive"] scores in
    let total := or_one (sum (dict_values scores)) in
    scale total scores.

(** The dict [analyze_sentiment] returns. *)
Record Sentiment : Type := {
  label : string;
  scores : dict Q;
  raw_model : string;
}.

(** [analyze_sentiment], from what the pipeline returned for the text:
    [mid] is the model id, [id2label] the values of the model's label
    table, [neutral_mode] is [get_sentiment_neutral_mode()]. *)
Definition analyze_sentiment (mid : string) (id2label : option (list string))
    (neutral_mode : string) (raw_output : raw) : result Sentiment :=
  pairs ← _normalize_scores raw_output true;
  scores ←
    (if startswith mid "nlptown/bert-base-multilingual-uncased-sentiment"
     then star_sentiment neutral_mode pairs
     else generic_sentiment id2label neutral_mode pairs);
  best ← max_by snd scores;
  Returns {| label := best.1; scores := scores; raw_model := mid |}.

(** [sort(key=lambda x: x[1], reverse=True)] *)
Definition sort_desc (l : list (string * Q)) : list (string * Q) :=
  stable_sort (fun y x => ltb x.2 y.2) l.

(** [l[:topk] if topk and len(l) > topk else l] *)
Definition cap (topk : option Z) (l : list (string * Q)) : list (string * Q) :=
  match topk with
  | Some k =>
      if negb (k =? 0)%Z && (k <? Z.of_nat (length l))%Z then slice_to k l else l
  | None => l
  end.

(** [analyze_emotions], from what the pipeline returned for the text:
    [multi] is [is_emotion_multi_label()], [thr] is
    [get_emotion_threshold()], [topk] is [get_emotion_topk()]. *)
Definition analyze_emotions (multi : bool) (thr : Q) (topk : option Z)
    (raw_output : raw) : result (list (string * Q)) :=
  pairs ← _normalize_scores raw_output (negb multi);
  if multi then
    let selected := List.filter (fun p => leb thr p.2) pairs in
    let selected := sort_desc selected in
    let selected := cap topk selected in
    match selected, pairs with
    | [], _ :: _ => best ← max_by snd pairs; Returns [best]
    | _, _ => Returns selected
    end
  else Returns (cap topk (sort_desc pairs)).

End Models.

(** * Part II: properties *)

(** ** Facts about the Python primitives *)

Module PyFacts.
Import Py.

Lemma ltb_lt (x y : Q) : ltb x y = true <-> (x < y)%Q.
Proof.
  unfold ltb. rewrite negb_true_iff, <- not_true_iff_false, Qle_bool_iff.
  split; [apply Qnot_le_lt | apply Qlt_not_le].
Qed.

Lemma ltb_ge (x y : Q) : ltb x y = false <-> (y <= x)%Q.
Proof.
  unfold ltb. rewrite negb_false_iff. apply Qle_bool_iff.
Qed.

Lemma leb_le (x y : Q) : leb x y = true <-> (x <= y)%Q.
Proof. apply Qle_bool_iff. Qed.

Lemma leb_gt (x y : Q) : leb x y = false <-> (y < x)%Q.
Proof.
  unfold leb. rewrite <- not_true_iff_false, Qle_bool_iff.
  split; [apply Qnot_le_lt | apply Qlt_not_le].
Qed.

Lemma zero_point_zero : (0.0 == 0)%Q.
Proof. reflexivity. Qed.

Lemma positive_nonzero (t : Q) : (0 < t)%Q -> ~ (t == 0)%Q.
Proof. intros Hpos E. rewrite E in Hpos. now apply Qlt_irrefl in Hpos. Qed.

Lemma truediv_ok (a b : Q) : ~ (b == 0)%Q -> truediv a b = Returns (a / b)%Q.
Proof.
  intros Hb. unfold truediv.
  destruct (Qeq_bool b 0) eqn:E; [|reflexivity].
  apply Qeq_bool_iff in E. contradiction.
Qed.

(** *** Sums *)

(** The sum of a list of rationals. *)
Definition Qsum (l : list Q) : Q := foldr Qplus 0%Q l.

Lemma Qsum_cons (x : Q) (l : list Q) : Qsum (x :: l) = (x + Qsum l)%Q.
Proof. reflexivity. Qed.

Lemma fold_left_Qplus (l : list Q) (acc : Q) :
  (fold_left Qplus l acc == acc + Qsum l)%Q.
Proof.
  revert acc. induction l as [|x l IH]; intros acc; simpl.
  - ring.
  - rewrite IH. ring.
Qed.

Lemma sum_Qsum (l : list Q) : (sum l == Qsum l)%Q.
Proof. unfold sum. rewrite fold_left_Qplus. ring. Qed.

Lemma Qsum_app (l1 l2 : list Q) : (Qsum (l1 ++ l2) == Qsum l1 + Qsum l2)%Q.
Proof.
  induction l1 as [|x l1 IH]; simpl; [ring|]. rewrite IH. ring.
Qed.

Lemma Qsum_nonneg (l : list Q) : Forall (fun x => (0 <= x)%Q) l -> (0 <= Qsum l)%Q.
Proof.
  induction 1 as [|x l Hx _ IH]; simpl; [apply Qle_refl|].
  change 0%Q with (0 + 0)%Q at 1. now apply Qplus_le_compat.
Qed.

(** Dividing every term divides the sum. *)
Lemma Qsum_div (l : list Q) (t : Q) :
  (Qsum (map (fun x => x / t) l) == Qsum l / t)%Q.
Proof.
  induction l as [|x l IH]; simpl.
  - unfold Qdiv. ring.
  - rewrite IH. unfold Qdiv. ring.
Qed.

Lemma inject_Z_nonzero (z : Z) : z <> 0%Z -> ~ (inject_Z z == 0)%Q.
Proof.
  intros Hz E. change 0%Q with (inject_Z 0) in E.
  apply (proj1 (inject_Z_injective z 0)) in E. contradiction.
Qed.

Lemma Qsum_const (c : Q) {A : Type} (l : list A) :
  (Qsum (map (fun _ => c) l) == inject_Z (Z.of_nat (length l)) * c)%Q.
Proof.
  induction l as [|x l IH].
  - simpl. ring.
  - cbn [map length]. rewrite Qsum_cons, IH, Nat2Z.inj_succ.
    unfold Z.succ. rewrite inject_Z_plus. ring.
Qed.

Lemma max_Qmax (a b : Q) : (max a b == Qmax a b)%Q.
Proof.
  unfold max. destruct (ltb a b) eqn:E.
  - apply ltb_lt in E. rewrite Q.max_r; [reflexivity | now apply Qlt_le_weak].
  - apply ltb_ge in E. now rewrite Q.max_l.
Qed.

(** The total a normalisation divides by: the scores, negative ones
    counted as 0. *)
Definition clamped_total (pairs : list (string * Q)) : Q :=
  Qsum (map (fun p => Qmax 0 p.2) pairs).

Lemma clamped_total_nonneg (pairs : list (string * Q)) :
  (0 <= clamped_total pairs)%Q.
Proof.
  apply Qsum_nonneg, Forall_forall. intros x Hx.
  apply list_elem_of_In, in_map_iff in Hx as [p [<- _]]. apply Q.le_max_l.
Qed.

Lemma sum_clamped (pairs : list (string * Q)) :
  (sum (map (fun p => max 0.0 p.2) pairs) == clamped_total pairs)%Q.
Proof.
  rewrite sum_Qsum. unfold clamped_total.
  induction pairs as [|p pairs IH]; [reflexivity|].
  cbn [map]. rewrite !Qsum_cons, IH, max_Qmax.
  assert (H : (0.0 == 0)%Q) by reflexivity. now rewrite H.
Qed.

(** Scores divided by their clamped total sum to 1. *)
Lemma normalized_sum (pairs : list (string * Q)) (total : Q) :
  (total == clamped_total pairs)%Q -> ~ (total == 0)%Q ->
  (Qsum (map snd (map (fun p => (p.1, max 0.0 p.2 / total)%Q) pairs)) == 1)%Q.
Proof.
  intros Htotal Hnz. rewrite map_map. cbn [snd].
  rewrite <- (map_map (fun p => max 0.0 p.2) (fun x => x / total)%Q).
  rewrite Qsum_div, <- sum_Qsum, sum_clamped, <- Htotal.
  now field.
Qed.

(** *** [traverse] *)

Lemma traverse_returns {A B : Type} (f : A -> result B) (g : A -> B) (l : list A) :
  (forall x, In x l -> f x = Returns (g x)) -> traverse f l = Returns (map g l).
Proof.
  induction l as [|x l IH]; intros H; simpl; [reflexivity|].
  rewrite (H x) by now left. simpl.
  rewrite IH by (intros y Hy; apply H; now right). reflexivity.
Qed.

(** *** [stable_sort] sorts and permutes *)

Section StableSort.
Context {A : Type} (before : A -> A -> bool) (R : A -> A -> Prop).
Hypothesis R_trans : forall x y z, R x y -> R y z -> R x z.
Hypothesis before_true : forall y x, before y x = true -> R y x.
Hypothesis before_false : forall y x, before y x = false -> R x y.

Lemma insert_stable_perm (x : A) (l : list A) :
  Permutation (insert_stable before x l) (x :: l).
Proof.
  induction l as [|y ys IH]; simpl; [reflexivity|].
  destruct (before y x); [|reflexivity].
  rewrite IH. apply perm_swap.
Qed.

Lemma stable_sort_perm (l : list A) : Permutation (stable_sort before l) l.
Proof.
  induction l as [|x xs IH]; simpl; [reflexivity|].
  rewrite insert_stable_perm. now apply perm_skip.
Qed.

Lemma stable_sort_length (l : list A) :
  length (stable_sort before l) = length l.
Proof. apply Permutation_length, stable_sort_perm. Qed.

Lemma insert_stable_sorted (x : A) (l : list A) :
  StronglySorted R l -> StronglySorted R (insert_stable before x l).
Proof.
  induction 1 as [|y ys Hs IH Hall]; simpl.
  - repeat constructor.
  - destruct (before y x) eqn:E.
    + constructor; [exact IH|].
      rewrite (insert_stable_perm x ys). constructor; [|exact Hall].
      now apply before_true.
    + apply before_false in E.
      constructor; [now constructor|].
      constructor; [exact E|].
      eapply Forall_impl; [exact Hall|]. intros z Hz. eauto.
Qed.

Lemma stable_sort_sorted (l : list A) : StronglySorted R (stable_sort before l).
Proof.
  induction l as [|x xs IH]; simpl; [constructor|].
  now apply insert_stable_sorted.
Qed.
End StableSort.

Lemma sorted_perm (values : list Q) : Permutation (sorted values) values.
Proof. apply stable_sort_perm. Qed.

Lemma sorted_ascending (values : list Q) : StronglySorted Qle (sorted values).
Proof.
  apply stable_sort_sorted.
  - intros x y z. apply Qle_trans.
  - intros y x H. apply ltb_lt in H. now apply Qlt_le_weak.
  - intros y x H. now apply ltb_ge in H.
Qed.

(** *** [int] against the floor *)

Lemma int_floor (x : Q) : (0 <= x)%Q -> int x = Qfloor x.
Proof.
  destruct x as [n d]. unfold Qle, int, Qfloor. simpl. intros H.
  apply Z.quot_div_nonneg; lia.
Qed.

Lemma int_nonpos (x : Q) : (x <= 0)%Q -> (int x <= 0)%Z.
Proof.
  destruct x as [n d]. unfold Qle, int. simpl. intros H.
  assert (Hn : (n <= 0)%Z) by lia.
  rewrite <- (Z.opp_involutive n), Z.quot_opp_l by lia.
  pose proof (Z.quot_pos (- n) (Z.pos d)). lia.
Qed.

Lemma floor_nonpos (x : Q) : (x <= 0)%Q -> (Qfloor x <= 0)%Z.
Proof.
  intros H. apply Qfloor_resp_le in H. exact H.
Qed.

End PyFacts.

(** ** The metrics aggregator *)

Module MainSpec.
Import Py PyFacts Main.

Lemma append_capped_below (buf : list Q) (x : Q) :
  (length buf < 2000)%nat -> append_capped buf x = buf ++ [x].
Proof.
  intros H. unfold append_capped.
  destruct (Nat.ltb_spec 2000 (length (buf ++ [x]))) as [Hlt|_]; [|reflexivity].
  rewrite length_app in Hlt. simpl in Hlt. lia.
Qed.

Lemma append_capped_over (buf : list Q) (x : Q) :
  (2000 <= length buf)%nat ->
  append_capped buf x = drop (length buf - 999) buf ++ [x].
Proof.
  intros H. unfold append_capped.
  destruct (Nat.ltb_spec 2000 (length (buf ++ [x]))) as [_|Hge].
  - rewrite length_app. simpl.
    rewrite drop_app_le by lia. f_equal. f_equal. lia.
  - rewrite length_app in Hge. simpl in Hge. lia.
Qed.

Lemma append_capped_length (buf : list Q) (x : Q) :
  length (append_capped buf x) =
  if (length buf <? 2000)%nat then S (length buf) else 1000%nat.
Proof.
  destruct (Nat.ltb_spec (length buf) 2000) as [Hlt|Hge].
  - rewrite append_capped_below by exact Hlt.
    rewrite length_app. simpl. lia.
  - rewrite append_capped_over by exact Hge.
    rewrite length_app, length_drop. simpl. lia.
Qed.

Lemma top1_scores (score now : Q) (m : Metrics) :
  emotion_top1_scores (_record_emotion_top1 score now m) =
  append_capped (emotion_top1_scores m) score.
Proof. reflexivity. Qed.

Lemma top1_latencies (score now : Q) (m : Metrics) :
  inference_latencies_ms (_record_emotion_top1 score now m) =
  inference_latencies_ms m.
Proof. reflexivity. Qed.

Lemma latency_latencies (ms : Q) (m : Metrics) :
  inference_latencies_ms (_record_latency_ms ms m) =
  append_capped (inference_latencies_ms m) ms.
Proof. reflexivity. Qed.

Lemma latency_scores (ms : Q) (m : Metrics) :
  emotion_top1_scores (_record_latency_ms ms m) = emotion_top1_scores m.
Proof. reflexivity. Qed.

(** When the two top-1 buffers are equally long, the time buffer follows
    the same discipline as the score buffer. *)
Lemma top1_times (score now : Q) (m : Metrics) :
  length (emotion_top1_scores m) = length (emotion_top1_times m) ->
  emotion_top1_times (_record_emotion_top1 score now m) =
  append_capped (emotion_top1_times m) now.
Proof.
  intros H. unfold _record_emotion_top1, append_capped. simpl.
  rewrite !length_app, H. reflexivity.
Qed.

(** The two top-1 buffers are equally long. *)
Definition lockstep (m : Metrics) : Prop :=
  length (emotion_top1_scores m) = length (emotion_top1_times m).

(** No buffer is over the cap. *)
Definition capped (m : Metrics) : Prop :=
  (length (inference_latencies_ms m) <= 2000)%nat /\
  (length (emotion_top1_scores m) <= 2000)%nat /\
  (length (emotion_top1_times m) <= 2000)%nat.

Lemma lockstep_latency (ms : Q) (m : Metrics) :
  lockstep m -> lockstep (_record_latency_ms ms m).
Proof. exact (fun H => H). Qed.

Lemma lockstep_top1 (score now : Q) (m : Metrics) :
  lockstep m -> lockstep (_record_emotion_top1 score now m).
Proof.
  unfold lockstep. intros H.
  rewrite top1_scores, top1_times by exact H.
  rewrite !append_capped_length, H. reflexivity.
Qed.

Lemma capped_latency (ms : Q) (m : Metrics) :
  capped m -> capped (_record_latency_ms ms m).
Proof.
  unfold capped. simpl. intros (_ & Hs & Ht).
  rewrite append_capped_length.
  destruct (Nat.ltb_spec (length (inference_latencies_ms m)) 2000); lia.
Qed.

Lemma capped_top1 (score now : Q) (m : Metrics) :
  lockstep m -> capped m -> capped (_record_emotion_top1 score now m).
Proof.
  unfold capped. intros Hl (Hlat & _ & _).
  rewrite top1_scores, top1_times by exact Hl.
  rewrite !append_capped_length. split; [exact Hlat|].
  destruct (Nat.ltb_spec (length (emotion_top1_scores m)) 2000);
    destruct (Nat.ltb_spec (length (emotion_top1_times m)) 2000); lia.
Qed.

Lemma record_all_snoc (calls : list record_call) (c : record_call) (m : Metrics) :
  record_all (calls ++ [c]) m = record c (record_all calls m).
Proof. unfold record_all. now rewrite fold_left_app. Qed.

Lemma record_all_invariant (calls : list record_call) (t : Q) :
  lockstep (record_all calls (initial_metrics t)) /\
  capped (record_all calls (initial_metrics t)).
Proof.
  induction calls as [|c calls [IHl IHc]] using rev_ind.
  - split; [reflexivity|]. unfold capped. simpl. lia.
  - rewrite record_all_snoc. destruct c as [ms|score now]; simpl.
    + split; [now apply lockstep_latency | now apply capped_latency].
    + split; [now apply lockstep_top1 | now apply capped_top1].
Qed.

(** C5 (as amended).  Whatever record calls have been made since the
    metrics were created, none of the three buffers holds more than 2000
    entries when a call returns.  A call that finds its buffer full (2000
    entries) leaves exactly 1000 entries: the last 999 of the old ones, in
    their order, followed by the one just appended; a call that finds room
    only appends. *)
Theorem buffers_capped_drop_oldest :
  (forall (calls : list record_call) (t : Q),
      capped (record_all calls (initial_metrics t))) /\
  (forall (buf : list Q) (x : Q),
      length buf = 2000%nat ->
      append_capped buf x = drop 1001 buf ++ [x] /\
      length (append_capped buf x) = 1000%nat) /\
  (forall (buf : list Q) (x : Q),
      (length buf < 2000)%nat -> append_capped buf x = buf ++ [x]) /\
  (forall (ms : Q) (m : Metrics),
      inference_latencies_ms (_record_latency_ms ms m) =
      append_capped (inference_latencies_ms m) ms) /\
  (forall (score now : Q) (m : Metrics),
      lockstep m ->
      emotion_top1_scores (_record_emotion_top1 score now m) =
        append_capped (emotion_top1_scores m) score /\
      emotion_top1_times (_record_emotion_top1 score now m) =
        append_capped (emotion_top1_times m) now).
Proof.
  split; [intros calls t; apply record_all_invariant|].
  split.
  { intros buf x H. split.
    - rewrite append_capped_over by lia. now rewrite H.
    - rewrite append_capped_length, H. reflexivity. }
  split; [exact append_capped_below|].
  split; [reflexivity|].
  intros score now m H. split; [apply top1_scores | now apply top1_times].
Qed.

Definition full_metrics : Metrics :=
  record_all (repeat (RecordLatency 0) 2000) (initial_metrics 0).

Lemma buffers_capped_drop_oldest_witness :
  length (inference_latencies_ms full_metrics) = 2000%nat /\
  length (append_capped (inference_latencies_ms full_metrics) 7) = 1000%nat.
Proof.
  assert (H : length (inference_latencies_ms full_metrics) = 2000%nat)
    by (vm_compute; reflexivity).
  split; [exact H|].
  exact (proj2 (proj1 (proj2 buffers_capped_drop_oldest) _ 7%Q H)).
Defined.

(** C5 as stated fails: the call that overflows a full latency buffer
    leaves 1000 entries, not 1000 + 1. *)
Lemma compaction_keeps_1001_counterexample :
  ~ (forall (ms : Q) (m : Metrics),
        (2000 < length (inference_latencies_ms m ++ [ms]))%nat ->
        length (inference_latencies_ms (_record_latency_ms ms m)) = 1001%nat).
Proof.
  intros H. specialize (H 7%Q full_metrics).
  assert (Hlen : length (inference_latencies_ms full_metrics) = 2000%nat)
    by (vm_compute; reflexivity).
  assert (Hafter :
    length (inference_latencies_ms (_record_latency_ms 7 full_metrics)) = 1000%nat).
  { change (inference_latencies_ms (_record_latency_ms 7 full_metrics))
      with (append_capped (inference_latencies_ms full_metrics) 7).
    rewrite append_capped_length, Hlen. reflexivity. }
  rewrite Hafter, length_app, Hlen in H.
  assert (Hover : (2000 < 2000 + length [7%Q])%nat) by (cbn [length]; lia).
  specialize (H Hover). discriminate H.
Qed.

(** *** Requests *)

Lemma analyze_lockstep (req : Request) (m : Metrics) :
  lockstep m -> lockstep (analyze req m).1.
Proof.
  intros H. unfold analyze.
  destruct (String.eqb _ _); [exact H|].
  destruct (outcome req) as [|[|first rest]]; simpl; try exact H.
  apply lockstep_top1. exact H.
Qed.

(** A request that records in all three buffers or in none: it is refused
    for an empty text, or its [try] block yields at least one emotion. *)
Definition records_top1 (req : Request) : bool :=
  String.eqb (strip (text req)) "" ||
  match outcome req with
  | BodyReturns (_ :: _) => true
  | _ => false
  end.

(** All three buffers are equally long. *)
Definition aligned (m : Metrics) : Prop :=
  length (inference_latencies_ms m) = length (emotion_top1_scores m) /\
  lockstep m.

Lemma analyze_aligned (req : Request) (m : Metrics) :
  records_top1 req = true -> aligned m -> aligned (analyze req m).1.
Proof.
  unfold records_top1, aligned, analyze. intros Hreq [Hlat Hlock].
  destruct (String.eqb _ _); [now split|].
  destruct (outcome req) as [|[|first rest]]; try discriminate Hreq.
  cbn [fst]. split.
  - rewrite top1_latencies, top1_scores, latency_scores, latency_latencies.
    rewrite !append_capped_length, Hlat. reflexivity.
  - apply lockstep_top1. exact Hlock.
Qed.

Lemma serve_snoc (reqs : list Request) (req : Request) (m : Metrics) :
  serve (reqs ++ [req]) m = (analyze req (serve reqs m)).1.
Proof. unfold serve. now rewrite fold_left_app. Qed.

(** C9 (as amended).  After any sequence of requests, successful or not,
    the top-1 score buffer and the top-1 timestamp buffer are equally long.
    When no request of the sequence fails in its [try] block or comes back
    with an empty emotion list, the latency buffer has that length too. *)
Theorem top1_buffers_lockstep (reqs : list Request) (t : Q) :
  lockstep (serve reqs (initial_metrics t)) /\
  (forallb records_top1 reqs = true -> aligned (serve reqs (initial_metrics t))).
Proof.
  induction reqs as [|req reqs [IHl IHa]] using rev_ind.
  - repeat split.
  - rewrite serve_snoc. split; [now apply analyze_lockstep|].
    rewrite forallb_app. simpl. rewrite andb_true_r.
    intros [Hreqs Hreq]%andb_true_iff.
    apply analyze_aligned; auto.
Qed.

Definition joy_request : Request :=
  {| text := "fine"; outcome := BodyReturns [("joy", 0.9%Q)];
     t0 := 1; t1 := 2; t2 := 3 |}.

Definition failed_request : Request :=
  {| text := "fine"; outcome := BodyRaises; t0 := 1; t1 := 2; t2 := 3 |}.

Lemma top1_buffers_lockstep_witness :
  forallb records_top1 [joy_request; joy_request] = true /\
  aligned (serve [joy_request; joy_request] (initial_metrics 0)).
Proof.
  split; [reflexivity|].
  apply (top1_buffers_lockstep [joy_request; joy_request] 0). reflexivity.
Defined.

(** C9 as stated fails: one request whose [try] block raises leaves a
    latency sample and no top-1 sample. *)
Lemma buffers_same_length_counterexample :
  let m := serve [failed_request] (initial_metrics 0) in
  length (inference_latencies_ms m) = 1%nat /\
  length (emotion_top1_scores m) = 0%nat /\
  length (inference_latencies_ms m) <> length (emotion_top1_scores m).
Proof. vm_compute. repeat split. discriminate. Qed.

(** *** Percentiles *)

Lemma getitem_lookup {A : Type} (l : list A) (i : Z) (x : A) :
  l !! Z.to_nat i = Some x -> getitem l i = Returns x.
Proof. unfold getitem. now intros ->. Qed.

(** The index [_percentile] reads, for a sample of [n] values. *)
Definition rank (n : nat) (q : Q) : Z :=
  let top := (Z.of_nat n - 1)%Z in
  Z.max 0 (Z.min (Qfloor (q * inject_Z top)) top).

Lemma clamp_int_floor (x : Q) (top : Z) :
  (0 <= top)%Z ->
  Z.max 0 (Z.min (int x) top) = Z.max 0 (Z.min (Qfloor x) top).
Proof.
  intros Htop. destruct (Qlt_le_dec x 0) as [Hneg|Hpos].
  - apply Qlt_le_weak in Hneg.
    pose proof (int_nonpos x Hneg). pose proof (floor_nonpos x Hneg). lia.
  - now rewrite int_floor.
Qed.

Lemma percentile_rank (values : list Q) (q : Q) :
  values <> [] ->
  exists x, sorted values !! Z.to_nat (rank (length values) q) = Some x /\
            _percentile values q = Returns (Some x).
Proof.
  intros Hne.
  assert (Hlen : length (sorted values) = length values)
    by apply stable_sort_length.
  assert (Hpos : (0 < length values)%nat)
    by (destruct values; [contradiction | simpl; lia]).
  destruct (lookup_lt_is_Some_2 (sorted values)
              (Z.to_nat (rank (length values) q))) as [x Hx].
  { rewrite Hlen. unfold rank. lia. }
  exists x. split; [exact Hx|].
  unfold _percentile. destruct values as [|v vs]; [contradiction|].
  cbv zeta. rewrite Hlen, clamp_int_floor by lia.
  fold (rank (length (v :: vs)) q).
  now rewrite (getitem_lookup _ _ _ Hx).
Qed.

Lemma rank_unit (n : nat) (q : Q) :
  (0 < n)%nat -> (0 <= q <= 1)%Q ->
  rank n q = Qfloor (q * inject_Z (Z.of_nat n - 1)) /\
  (0 <= rank n q <= Z.of_nat n - 1)%Z.
Proof.
  intros Hn [Hq0 Hq1]. unfold rank.
  set (top := (Z.of_nat n - 1)%Z).
  assert (Htop : (0 <= inject_Z top)%Q)
    by (rewrite <- (Zle_Qle 0); subst top; lia).
  assert (Hlo : (0 <= Qfloor (q * inject_Z top))%Z).
  { change 0%Z with (Qfloor 0). apply Qfloor_resp_le.
    now apply Qmult_le_0_compat. }
  assert (Hhi : (Qfloor (q * inject_Z top) <= top)%Z).
  { rewrite <- (Qfloor_Z top) at 2. apply Qfloor_resp_le.
    rewrite <- (Qmult_1_l (inject_Z top)) at 2.
    now apply Qmult_le_compat_r. }
  lia.
Qed.

End MainSpec.

(** ** The VAD mapping engine, negative labels and stress *)

Module AnalysisSpec.
Import Py PyFacts Analysis.

(** *** [map_distribution] *)

(** The score-weighted sum of one axis, and the total score. *)
Definition weighted (self : VADMapper) (axis : VAD -> Q)
    (distribution : list (string * Q)) : Q :=
  Qsum (map (fun p => p.2 * axis (map_label self p.1))%Q distribution).

Definition total_score (distribution : list (string * Q)) : Q :=
  Qsum (map snd distribution).

Lemma accumulate_eq (self : VADMapper) (v a d total : Q) (label : string) (score : Q) :
  accumulate self (v, a, d, total) (label, score) =
  (v + score * valence (map_label self label),
   a + score * arousal (map_label self label),
   d + score * dominance (map_label self label),
   total + score)%Q.
Proof.
  unfold accumulate. now destruct (map_label self label) as [[vv aa] dd].
Qed.

Lemma accumulate_fold (self : VADMapper) (distribution : list (string * Q))
    (v a d total : Q) :
  exists v' a' d' total',
    fold_left (accumulate self) distribution (v, a, d, total) = (v', a', d', total') /\
    (v' == v + weighted self valence distribution)%Q /\
    (a' == a + weighted self arousal distribution)%Q /\
    (d' == d + weighted self dominance distribution)%Q /\
    (total' == total + total_score distribution)%Q.
Proof.
  revert v a d total.
  induction distribution as [|[label score] rest IH]; intros v a d total.
  - exists v, a, d, total. unfold weighted, total_score. simpl.
    repeat split; ring.
  - cbn [fold_left]. rewrite accumulate_eq.
    destruct (IH (v + score * valence (map_label self label))
                (a + score * arousal (map_label self label))
                (d + score * dominance (map_label self label))
                (total + score))%Q as (v' & a' & d' & t' & Hf & Hv & Ha & Hd & Ht).
    exists v', a', d', t'. split; [exact Hf|].
    unfold weighted, total_score in *. cbn [map fst snd].
    rewrite !Qsum_cons, Hv, Ha, Hd, Ht. repeat split; ring.
Qed.

Definition joy_sadness : VADMapper :=
  VADMapper_init [("joy", (0.9, 0.6, 0.7)%Q); ("sadness", (0.1, 0.4, 0.3)%Q)] None.

(** The example of the specification: joy 0.7 and sadness 0.3 give
    (0.66, 0.54, 0.58). *)
Example map_distribution_joy_sadness :
  exists r,
    map_distribution joy_sadness [("joy", 0.7%Q); ("sadness", 0.3%Q)] = Returns r /\
    (valence r == 0.66)%Q /\ (arousal r == 0.54)%Q /\ (dominance r == 0.58)%Q.
Proof. eexists. split; [vm_compute; reflexivity|]. repeat split. Qed.

(** *** [derive_stress] *)

Lemma max_min_clamp (x : Q) :
  (max 0.0 (min 1.0 x) == Qmax 0 (Qmin 1 x))%Q.
Proof.
  unfold max, min.
  destruct (ltb x 1.0) eqn:E1.
  - apply ltb_lt in E1.
    assert (H1 : (x < 1)%Q) by (eapply Qlt_le_trans; [exact E1 | discriminate]).
    rewrite (Q.min_r 1 x) by now apply Qlt_le_weak.
    destruct (ltb 0.0 x) eqn:E0.
    + apply ltb_lt in E0. rewrite Q.max_r; [reflexivity|].
      apply Qlt_le_weak. eapply Qle_lt_trans; [|exact E0]. discriminate.
    + apply ltb_ge in E0. rewrite Q.max_l; [reflexivity|].
      eapply Qle_trans; [exact E0 | discriminate].
  - apply ltb_ge in E1.
    assert (H1 : (1 <= x)%Q) by (eapply Qle_trans; [|exact E1]; discriminate).
    rewrite (Q.min_l 1 x) by exact H1.
    rewrite Q.max_r by discriminate.
    replace (ltb 0.0 1.0) with true by reflexivity. reflexivity.
Qed.

(** The mass of the labels of [distribution] that are negative: the sum
    of the scores of the entries whose canonical label is in [negative]. *)
Definition neg_mass (canon : string -> string) (negative : gset string)
    (distribution : list (string * Q)) : Q :=
  Qsum (map snd
          (List.filter (fun p => bool_decide (canon p.1 ∈ negative)) distribution)).

(** The stress before clamping, and the clamp. *)
Definition raw_stress (valence arousal mass : Q) : Q :=
  (0.6 * (1 - valence) + 0.4 * arousal + 0.15 * mass)%Q.

Definition clamp01 (x : Q) : Q := Qmax 0 (Qmin 1 x).

Lemma clamp01_bounds (x : Q) : (0 <= clamp01 x <= 1)%Q.
Proof.
  unfold clamp01. split.
  - apply Q.le_max_l.
  - apply Q.max_lub; [discriminate | apply Q.le_min_l].
Qed.

Lemma neg_sum_fold (st : State) (negative : gset string)
    (distribution : list (string * Q)) (acc : Q) :
  _negative_labels st = Some negative ->
  (fold_left
     (fun neg_sum item =>
        if is_negative st (canon_of st item.1)
        then (neg_sum + item.2)%Q else neg_sum)
     distribution acc ==
   acc + neg_mass (canon_of st) negative distribution)%Q.
Proof.
  intros Hneg. revert acc.
  induction distribution as [|[label score] rest IH]; intros acc.
  - unfold neg_mass. simpl. ring.
  - cbn [fold_left]. rewrite IH. unfold neg_mass, is_negative.
    rewrite Hneg. cbn [List.filter fst snd].
    destruct (bool_decide (canon_of st label ∈ negative)).
    + cbn [map snd]. rewrite Qsum_cons. ring.
    + reflexivity.
Qed.

Lemma ensure_negative_labels_set (env : Env) (st st' : State) :
  ensure_negative_labels env st = Returns st' ->
  exists negative, _negative_labels st' = Some negative.
Proof.
  unfold ensure_negative_labels, init_negative_labels.
  destruct (_negative_labels st) as [negative|] eqn:E.
  - intros [= <-]. now exists negative.
  - destruct (explicit_negative env _) as [[neg_path loaded]|].
    + intros [= <-]. now eexists.
    + destruct (ensure_mapper env st) as [st1|e]; [|discriminate].
      cbn [mbind result_bind].
      destruct (_vad_mapper st1); [|discriminate].
      intros [= <-]. now eexists.
Qed.


(** The lazy initialisation cannot fail once a mapper or a set of negative
    labels is in place. *)
Lemma ensure_negative_labels_returns (env : Env) (st : State) :
  _negative_labels st <> None \/ _vad_mapper st <> None ->
  exists st', ensure_negative_labels env st = Returns st'.
Proof.
  unfold ensure_negative_labels, init_negative_labels.
  destruct (_negative_labels st) as [negative|]; [now eexists|].
  intros [H|H]; [contradiction|].
  destruct (explicit_negative env _) as [[neg_path loaded]|]; [now eexists|].
  unfold ensure_mapper.
  destruct (_vad_mapper st) as [m|] eqn:E; [|contradiction].
  cbn [mbind result_bind]. rewrite E. now eexists.
Qed.

(** An environment without files: no explicit negative list, no default
    table; the threshold is 0.4. *)
Definition bare_env : Env :=
  {| PROJECT_ROOT := "/srv";
     get_negative_config_paths := fun _ => None;
     get_negative_valence_threshold := 0.4;
     path_exists := fun _ => false;
     read_json := fun _ => Raises RuntimeError;
     _load_mapping_from_json := fun _ => Raises RuntimeError |}.

Definition joy_sadness_state : State :=
  {| _negative_labels := None;
     _vad_mapper := Some joy_sadness;
     _vad_status := initial_status |}.

Definition joy_sadness_derived : State :=
  {| _negative_labels := Some {["sadness"]};
     _vad_mapper := Some joy_sadness;
     _vad_status :=
       {| emotion_model_dir := None; map_path := None; alias_path := None;
          unknown_labels_path := None; unknown_labels_count := 0;
          unknown_labels := []; negative_path := None;
          negative_labels_count := 1;
          negative_labels_source := Some "derived";
          negative_threshold := Some 0.4%Q |} |}.

Lemma joy_sadness_ensure :
  ensure_negative_labels bare_env joy_sadness_state = Returns joy_sadness_derived.
Proof. vm_compute. reflexivity. Qed.

(** *** [init_negative_labels] *)




Lemma lowered_strings (labels : list string) :
  lowered (map JStr labels) = list_to_set (map lower labels).
Proof. unfold lowered. now rewrite map_map. Qed.



Lemma derive_negative_fold (m : VADMapper) (threshold : Q)
    (candidates : list string) (acc : gset string) (k : string) :
  k ∈ fold_left
        (fun (derived : gset string) (lbl : string) =>
           if ltb (valence (map_label m lbl)) threshold
           then {[canonical m lbl]} ∪ derived else derived)
        candidates acc <->
  k ∈ acc \/
  exists lbl, In lbl candidates /\
              (valence (map_label m lbl) < threshold)%Q /\ k = canonical m lbl.
Proof.
  revert acc. induction candidates as [|lbl rest IH]; intros acc.
  - simpl. split; [now left | intros [H|(? & [] & _)]; exact H].
  - cbn [fold_left]. rewrite IH. split.
    + intros [H|(lbl' & Hin & Hlt & ->)].
      * destruct (ltb _ threshold) eqn:E; [|now left].
        apply elem_of_union in H as [H|H]; [|now left].
        apply elem_of_singleton in H. apply ltb_lt in E.
        right. exists lbl. split; [now left | now split].
      * right. exists lbl'. split; [now right | now split].
    + intros [H|(lbl' & [<-|Hin] & Hlt & ->)].
      * left. destruct (ltb _ threshold); [apply elem_of_union; now right | exact H].
      * left. apply ltb_lt in Hlt. rewrite Hlt.
        apply elem_of_union. left. now apply elem_of_singleton.
      * right. now exists lbl'.
Qed.

(** The labels [init_negative_labels] tries when it derives the set. *)
Definition candidates (m : VADMapper) (emotion_labels : option (list string))
    : list string :=
  match emotion_labels with
  | Some (l :: ls) => l :: ls
  | _ => (map_to_list (mapping m)).*1
  end.

Lemma candidates_keys (m : VADMapper) (lbl : string) :
  In lbl (candidates m None) <-> is_Some (mapping m !! lbl).
Proof.
  unfold candidates. rewrite <- list_elem_of_In, list_elem_of_fmap. split.
  - intros [[k v] [-> H]]. apply elem_of_map_to_list in H. now exists v.
  - intros [v H]. exists (lbl, v). split; [reflexivity|].
    now apply elem_of_map_to_list.
Qed.








(** A state whose mapper has an alias, "blue" for "sadness", and whose
    negative labels are not initialised yet. *)
Definition blue_state : State :=
  {| _negative_labels := None;
     _vad_mapper :=
       Some (VADMapper_init
               [("joy", (0.9, 0.6, 0.7)%Q); ("sadness", (0.1, 0.4, 0.3)%Q)]
               (Some [("Blue", "Sadness")]));
     _vad_status := initial_status |}.








(** *** [canonicalize_distribution] *)

Lemma canonicalize_loop_spec (canon : string -> string) (distribution res : nat)
    (pairs : list (string * Q)) (fuel : nat) :
  forall (i : nat) (acc : list (string * Q)) (h : gmap nat (list (string * Q))),
    distribution <> res ->
    h !! distribution = Some pairs ->
    h !! res = Some acc ->
    (length pairs - i < fuel)%nat ->
    canonicalize_loop fuel canon distribution res i h =
    Some (<[res := acc ++ map (fun p => (canon p.1, p.2)) (drop i pairs)]> h).
Proof.
  induction fuel as [|fuel IH]; intros i acc h Hne Hd Hres Hfuel; [lia|].
  cbn [canonicalize_loop]. rewrite Hd. cbn [mbind option_bind].
  destruct (pairs !! i) as [[lbl score]|] eqn:Ei.
  - rewrite (IH (S i) (acc ++ [(canon lbl, score)])).
    + f_equal. rewrite (drop_S _ _ _ Ei). cbn [map fst snd].
      rewrite <- app_assoc. cbn [app].
      apply map_eq. intros j. destruct (decide (j = res)) as [->|Hj].
      * now rewrite !lookup_insert_eq.
      * now rewrite !lookup_insert_ne, lookup_alter_ne by congruence.
    + exact Hne.
    + rewrite lookup_alter_ne by congruence. exact Hd.
    + rewrite lookup_alter_eq, Hres. reflexivity.
    + apply lookup_lt_Some in Ei. lia.
  - apply lookup_ge_None in Ei. rewrite drop_ge by exact Ei.
    cbn [map]. rewrite app_nil_r. f_equal. symmetry. now apply insert_id.
Qed.


(** A mapper with an alias: "glad" stands for "joy". *)
Definition glad_mapper : VADMapper :=
  VADMapper_init [("joy", (0.9, 0.6, 0.7)%Q); ("sadness", (0.1, 0.4, 0.3)%Q)]
    (Some [("Glad", "JOY")]).

Definition glad_state : State :=
  {| _negative_labels := None;
     _vad_mapper := Some glad_mapper;
     _vad_status := initial_status |}.

Definition two_lists : gmap nat (list (string * Q)) :=
  {[ 0%nat := [("GLAD", 0.7%Q); ("Sadness", 0.3%Q)]; 1%nat := [] ]}.


Example canonicalize_joy_sadness :
  exists h',
    canonicalize_distribution bare_env 3 0 two_lists glad_state =
      Some (Returns (h', glad_state, 2%nat)) /\
    h' !! 2%nat = Some [("joy", 0.7%Q); ("sadness", 0.3%Q)].
Proof. eexists. split; vm_compute; reflexivity. Qed.

(** An environment whose default table is there but does not decode. *)
Definition broken_default : Env :=
  {| PROJECT_ROOT := "/srv";
     get_negative_config_paths := fun _ => None;
     get_negative_valence_threshold := 0.4;
     path_exists := fun p => String.eqb p "/srv/app/vad_maps/default.json";
     read_json := fun _ => Raises ValueError;
     _load_mapping_from_json := fun _ => Raises ValueError |}.

(** C10 as stated fails: [canonicalize_distribution] does not return a
    list for every input.  On a fresh module state, where no mapper is set
    yet, with a default table that does not decode, the call raises what
    the decoder raised and returns nothing. *)
Lemma canonicalize_raises_counterexample :
  _vad_mapper initial_state = None /\
  two_lists !! 0%nat = Some [("GLAD", 0.7%Q); ("Sadness", 0.3%Q)] /\
  canonicalize_distribution broken_default 3 0 two_lists initial_state =
    Some (Raises ValueError).
Proof. repeat split; vm_compute; reflexivity. Qed.

(** *** [normalize_distribution] *)

Lemma normalize_distribution_uniform (pairs : list (string * Q)) :
  (clamped_total pairs <= 0)%Q ->
  normalize_distribution pairs =
  Returns (map (fun p => (p.1, 1.0 / inject_Z (Z.of_nat (length pairs)))%Q) pairs).
Proof.
  intros Hle. unfold normalize_distribution.
  assert (Hb : leb (sum (map (fun p => max 0.0 p.2) pairs)) 0 = true)
    by (apply leb_le; now rewrite sum_clamped).
  rewrite Hb. destruct pairs as [|p rest]; [reflexivity|].
  apply traverse_returns. intros x _.
  rewrite truediv_ok; [reflexivity|].
  apply inject_Z_nonzero. cbn [length]. lia.
Qed.

Lemma normalize_distribution_scaled (pairs : list (string * Q)) :
  (0 < clamped_total pairs)%Q ->
  normalize_distribution pairs =
  Returns (map (fun p =>
                  (p.1, max 0.0 p.2 / sum (map (fun p => max 0.0 p.2) pairs))%Q)
             pairs).
Proof.
  intros Hpos. unfold normalize_distribution.
  assert (Hb : leb (sum (map (fun p => max 0.0 p.2) pairs)) 0 = false)
    by (apply leb_gt; now rewrite sum_clamped).
  rewrite Hb. apply traverse_returns. intros x _.
  rewrite truediv_ok; [reflexivity|].
  rewrite sum_clamped. now apply positive_nonzero.
Qed.

Lemma uniform_sum (pairs : list (string * Q)) :
  pairs <> [] ->
  (Qsum (map snd
           (map (fun p => (p.1, 1.0 / inject_Z (Z.of_nat (length pairs)))%Q) pairs))
   == 1)%Q.
Proof.
  intros Hne. rewrite map_map. cbn [snd]. rewrite Qsum_const.
  field. apply inject_Z_nonzero.
  destruct pairs; [contradiction | cbn [length]; lia].
Qed.

End AnalysisSpec.

(** ** Shaping the classifier output *)

Module ModelsSpec.
Import Py PyFacts Analysis AnalysisSpec Models.

(** *** Normalisation *)

Lemma normalize_scores_raw (items : raw) :
  _normalize_scores items false = Returns (to_pairs items).
Proof. reflexivity. Qed.

Lemma normalize_scores_scaled (items : raw) :
  (0 < clamped_total (to_pairs items))%Q ->
  _normalize_scores items true =
  Returns (map (fun p =>
                  (p.1, max 0.0 p.2 /
                        sum (map (fun p => max 0.0 p.2) (to_pairs items)))%Q)
             (to_pairs items)).
Proof.
  intros Hpos. unfold _normalize_scores.
  assert (Hb : ltb 0 (sum (map (fun p => max 0.0 p.2) (to_pairs items))) = true)
    by (apply ltb_lt; now rewrite sum_clamped).
  rewrite Hb. apply traverse_returns. intros x _. unfold clamp_div.
  rewrite truediv_ok; [reflexivity|].
  rewrite sum_clamped. now apply positive_nonzero.
Qed.

Lemma normalize_scores_kept (items : raw) :
  (clamped_total (to_pairs items) <= 0)%Q ->
  _normalize_scores items true = Returns (to_pairs items).
Proof.
  intros Hle. unfold _normalize_scores.
  assert (Hb : ltb 0 (sum (map (fun p => max 0.0 p.2) (to_pairs items))) = false)
    by (apply ltb_ge; now rewrite sum_clamped).
  now rewrite Hb.
Qed.

Lemma map_fst_scaled (f : string * Q -> Q) (pairs : list (string * Q)) :
  map fst (map (fun p => (p.1, f p)) pairs) = map fst pairs.
Proof. rewrite map_map. reflexivity. Qed.

Definition entry (l : string) (s : Q) : Item :=
  {| item_label := Some l; item_score := Some s |}.

(** *** The emotion selector *)

(** [best] is the first entry of [l] with the highest score. *)
Definition first_highest (best : string * Q) (l : list (string * Q)) : Prop :=
  exists before after,
    l = before ++ best :: after /\
    Forall (fun p => (p.2 < best.2)%Q) before /\
    Forall (fun p => (p.2 <= best.2)%Q) after.

Lemma max_by_fold (xs before mid : list (string * Q)) (best : string * Q) :
  Forall (fun p => (p.2 < best.2)%Q) before ->
  Forall (fun p => (p.2 <= best.2)%Q) mid ->
  first_highest
    (fold_left (fun best y => if ltb best.2 y.2 then y else best) xs best)
    (before ++ best :: mid ++ xs).
Proof.
  revert before mid best.
  induction xs as [|y xs IH]; intros before mid best Hbefore Hmid.
  - exists before, mid. now rewrite app_nil_r.
  - cbn [fold_left]. destruct (ltb best.2 y.2) eqn:E.
    + apply ltb_lt in E.
      replace (before ++ best :: mid ++ y :: xs)
        with ((before ++ best :: mid) ++ y :: [] ++ xs)
        by (now rewrite <- app_assoc).
      apply IH; [|constructor].
      apply Forall_app. split; [|constructor].
      * eapply Forall_impl; [exact Hbefore|].
        intros p Hp. cbv beta in *. lra.
      * exact E.
      * eapply Forall_impl; [exact Hmid|].
        intros p Hp. cbv beta in *. lra.
    + apply ltb_ge in E.
      replace (before ++ best :: mid ++ y :: xs)
        with (before ++ best :: (mid ++ [y]) ++ xs)
        by (now rewrite <- app_assoc).
      apply IH; [exact Hbefore|].
      apply Forall_app. split; [exact Hmid|]. now constructor.
Qed.

Lemma max_by_first_highest (p : string * Q) (l : list (string * Q)) :
  exists best, max_by snd (p :: l) = Returns best /\ first_highest best (p :: l).
Proof.
  eexists. split; [reflexivity|].
  apply (max_by_fold l [] [] p); constructor.
Qed.

(** Descending by score. *)
Definition score_ge (a b : string * Q) : Prop := (b.2 <= a.2)%Q.

Lemma sort_desc_perm (l : list (string * Q)) : Permutation (sort_desc l) l.
Proof. apply stable_sort_perm. Qed.

Lemma sort_desc_sorted (l : list (string * Q)) :
  StronglySorted score_ge (sort_desc l).
Proof.
  apply stable_sort_sorted; unfold score_ge.
  - intros x y z Hxy Hyz. lra.
  - intros y x H. apply ltb_lt in H. lra.
  - intros y x H. now apply ltb_ge in H.
Qed.

Lemma sort_desc_nil (l : list (string * Q)) : sort_desc l = [] -> l = [].
Proof.
  intros H. apply Permutation_nil. rewrite <- H. apply sort_desc_perm.
Qed.

(** The selection cut to its first [k] entries when a cap [k > 0] is set,
    whole when none is set. *)
Definition top (topk : option Z) (l : list (string * Q)) : list (string * Q) :=
  match topk with
  | Some k => if (0 <? k)%Z then take (Z.to_nat k) l else l
  | None => l
  end.

Lemma cap_top (topk : option Z) (l : list (string * Q)) :
  (forall k, topk = Some k -> (0 <= k)%Z) -> cap topk l = top topk l.
Proof.
  intros Hk. unfold cap, top. destruct topk as [k|]; [|reflexivity].
  specialize (Hk k eq_refl).
  destruct (Z.eqb_spec k 0) as [->|Hnz]; [reflexivity|].
  cbn [negb andb].
  destruct (Z.ltb_spec 0 k) as [_|]; [|lia].
  destruct (Z.ltb_spec k (Z.of_nat (length l))) as [Hlt|Hge].
  - unfold slice_to. destruct (Z.leb_spec 0 k); [reflexivity | lia].
  - symmetry. apply take_ge. lia.
Qed.

Lemma top_nonempty (topk : option Z) (l : list (string * Q)) :
  l <> [] -> top topk l <> [].
Proof.
  intros Hl. unfold top. destruct topk as [k|]; [|exact Hl].
  destruct (Z.ltb_spec 0 k) as [Hk|_]; [|exact Hl].
  destruct l as [|x l]; [contradiction|].
  destruct (Z.to_nat k) eqn:E; [lia | discriminate].
Qed.

(** C6.  In multi-label mode the selector returns, for a non-empty raw
    distribution, a non-empty list.  When some entry reaches the threshold
    (and the cap, when set, is not negative) the list is made of exactly
    the entries with score >= threshold, sorted descending by score, cut to
    the first K when a cap K > 0 is set.  When no entry reaches the
    threshold, the list is the single highest-scoring entry of the input,
    the first one among equals. *)
Theorem multi_label_selection (thr : Q) (topk : option Z) (raw_output : raw) :
  let pairs := to_pairs raw_output in
  let kept := List.filter (fun p => leb thr p.2) pairs in
  exists selected,
    analyze_emotions true thr topk raw_output = Returns selected /\
    (pairs <> [] -> selected <> []) /\
    (forall p, In p kept <-> In p pairs /\ (thr <= p.2)%Q) /\
    Permutation (sort_desc kept) kept /\
    StronglySorted score_ge (sort_desc kept) /\
    (kept <> [] -> (forall k, topk = Some k -> (0 <= k)%Z) ->
     selected = top topk (sort_desc kept)) /\
    (kept = [] -> pairs <> [] ->
     exists best, selected = [best] /\ first_highest best pairs).
Proof.
  intros pairs kept.
  assert (Hfall : cap topk (sort_desc kept) = [] -> pairs <> [] ->
                  exists best, analyze_emotions true thr topk raw_output =
                                 Returns [best] /\ first_highest best pairs).
  { intros Hcap Hne. unfold analyze_emotions.
    rewrite normalize_scores_raw. cbn [negb mbind result_bind].
    fold pairs. fold kept. rewrite Hcap.
    destruct pairs as [|p rest] eqn:Ep; [contradiction|].
    destruct (max_by_first_highest p rest) as (best & Hbest & Hfirst).
    exists best. rewrite Hbest. now split. }
  assert (Hsel : cap topk (sort_desc kept) <> [] ->
                 analyze_emotions true thr topk raw_output =
                   Returns (cap topk (sort_desc kept))).
  { intros Hcap. unfold analyze_emotions.
    rewrite normalize_scores_raw. cbn [negb mbind result_bind].
    fold pairs. fold kept.
    destruct (cap topk (sort_desc kept)) as [|s rest]; [contradiction|].
    reflexivity. }
  assert (Hres : exists selected,
    analyze_emotions true thr topk raw_output = Returns selected /\
    (pairs <> [] -> selected <> []) /\
    (cap topk (sort_desc kept) <> [] -> selected = cap topk (sort_desc kept)) /\
    (cap topk (sort_desc kept) = [] -> pairs <> [] ->
     exists best, selected = [best] /\ first_highest best pairs)).
  { destruct (cap topk (sort_desc kept)) as [|s rest] eqn:Ecap.
    - destruct pairs as [|p ps] eqn:Ep.
      + exists []. split; [|split; [|split]]; try contradiction.
        unfold analyze_emotions. rewrite normalize_scores_raw.
        cbn [negb mbind result_bind]. fold pairs. rewrite Ep.
        unfold kept in Ecap. now rewrite Ecap.
      + destruct Hfall as (best & Hret & Hfirst); [reflexivity | discriminate|].
        exists [best]. split; [exact Hret|]. split; [discriminate|].
        split; [contradiction|]. intros _ _. now exists best.
    - exists (s :: rest). split; [apply Hsel; discriminate|].
      split; [discriminate|]. split; [reflexivity|]. discriminate. }
  destruct Hres as (selected & Hret & Hne & Hcap & Hnone).
  exists selected. split; [exact Hret|]. split; [exact Hne|].
  split.
  { intros p. unfold kept. rewrite filter_In, leb_le. reflexivity. }
  split; [apply sort_desc_perm|]. split; [apply sort_desc_sorted|].
  split.
  - intros Hkept Hk. rewrite <- (cap_top topk _ Hk). apply Hcap.
    rewrite (cap_top topk _ Hk). apply top_nonempty.
    intros E. now apply sort_desc_nil in E.
  - intros Hkept Hpairs. apply Hnone; [|exact Hpairs].
    rewrite Hkept. now destruct topk as [k|]; [destruct k|].
Qed.

Lemma multi_label_selection_witness :
  to_pairs (Flat [entry "joy" 0.2; entry "fear" 0.4; entry "anger" 0.4]) <> [] /\
  exists selected,
    analyze_emotions true 0.5 (Some 2%Z)
      (Flat [entry "joy" 0.2; entry "fear" 0.4; entry "anger" 0.4]) =
      Returns selected /\
    selected <> [].
Proof.
  assert (H : to_pairs (Flat [entry "joy" 0.2; entry "fear" 0.4; entry "anger" 0.4])
              <> []) by discriminate.
  split; [exact H|].
  destruct (multi_label_selection 0.5 (Some 2%Z)
              (Flat [entry "joy" 0.2; entry "fear" 0.4; entry "anger" 0.4]))
    as (selected & Hret & Hne & _).
  exists selected. split; [exact Hret | exact (Hne H)].
Defined.

Example multi_label_fallback :
  analyze_emotions true 0.5 (Some 2%Z)
    (Flat [entry "joy" 0.2; entry "fear" 0.4; entry "anger" 0.4]) =
  Returns [("fear", 0.4%Q)].
Proof. reflexivity. Qed.

(** *** The sentiment normaliser *)

Lemma normalize_scores_returns (items : raw) :
  exists pairs, _normalize_scores items true = Returns pairs.
Proof.
  destruct (Qlt_le_dec 0 (clamped_total (to_pairs items))) as [Hpos|Hle].
  - rewrite (normalize_scores_scaled items Hpos). now eexists.
  - rewrite (normalize_scores_kept items Hle). now eexists.
Qed.

Lemma or_one_nonzero (x : Q) : ~ (or_one x == 0)%Q.
Proof.
  unfold or_one. destruct (Qeq_bool x 0) eqn:E.
  - discriminate.
  - now apply Qeq_bool_neq.
Qed.

Lemma or_one_eq (x : Q) : ~ (x == 0)%Q -> or_one x = x.
Proof.
  intros Hx. unfold or_one. destruct (Qeq_bool x 0) eqn:E; [|reflexivity].
  apply Qeq_bool_iff in E. contradiction.
Qed.

Lemma max_lower (a b : Q) : (a <= max a b)%Q.
Proof.
  unfold max. destruct (ltb a b) eqn:E.
  - apply ltb_lt in E. now apply Qlt_le_weak.
  - apply Qle_refl.
Qed.

Lemma max_reached (a b : Q) : (a <= b)%Q -> (max a b == b)%Q.
Proof.
  intros H. unfold max. destruct (ltb a b) eqn:E; [reflexivity|].
  apply ltb_ge in E. now apply Qle_antisym.
Qed.

Definition scaled (total : Q) (d : dict Q) : dict Q :=
  map (fun kv => (kv.1, kv.2 / total)%Q) d.

Lemma scale_scaled (total : Q) (d : dict Q) :
  ~ (total == 0)%Q -> scale total d = Returns (scaled total d).
Proof.
  intros Hnz. apply traverse_returns. intros kv _. now rewrite truediv_ok.
Qed.

Lemma scaled_keys (total : Q) (d : dict Q) :
  dict_keys (scaled total d) = dict_keys d.
Proof. unfold dict_keys, scaled. now rewrite map_map. Qed.

Lemma scaled_sum (total : Q) (d : dict Q) :
  (Qsum (dict_values (scaled total d)) == Qsum (dict_values d) / total)%Q.
Proof.
  unfold dict_values, scaled. rewrite map_map. cbn [snd].
  rewrite <- (map_map snd (fun x => x / total)%Q). apply Qsum_div.
Qed.

Lemma scaled_get (total : Q) (k : string) (d : dict Q) :
  (dict_get k 0.0 (scaled total d) == dict_get k 0.0 d / total)%Q.
Proof.
  unfold dict_get. induction d as [|[k' v] d IH]; cbn [scaled map dict_lookup fst snd].
  - cbn [default]. unfold Qdiv. ring.
  - destruct (String.eqb k' k); [reflexivity | exact IH].
Qed.

Lemma two_way_spec (pos neg : Q) :
  exists d,
    two_way pos neg = Returns d /\
    dict_keys d = ["positive"; "negative"] /\
    (Qsum (dict_values d) == 1)%Q /\
    ((pos + neg <= 0)%Q -> d = [("positive", 1.0%Q); ("negative", 0.0%Q)]).
Proof.
  unfold two_way. destruct (leb (pos + neg) 0) eqn:E.
  - eexists. split; [reflexivity|]. split; [reflexivity|]. split; reflexivity.
  - apply leb_gt in E.
    assert (Hnz : ~ (pos + neg == 0)%Q) by now apply positive_nonzero.
    rewrite !truediv_ok by exact Hnz. cbn [mbind result_bind].
    eexists. split; [reflexivity|]. split; [reflexivity|]. split.
    + cbn [dict_values map snd]. rewrite !Qsum_cons. cbn [Qsum foldr]. now field.
    + intros H. now apply Qlt_not_le in E.
Qed.

(** The keys a sentiment mapping can have. *)
Definition three : list string := ["negative"; "neutral"; "positive"].

Definition well_keyed (d : dict Q) : Prop :=
  NoDup (dict_keys d) /\ forall k, In k (dict_keys d) -> In k three.

Lemma dict_lookup_None {V : Type} (k : string) (d : dict V) :
  dict_lookup k d = None <-> ~ In k (dict_keys d).
Proof.
  induction d as [|[k' v] d IH]; cbn [dict_lookup dict_keys map fst In].
  - tauto.
  - destruct (String.eqb_spec k' k) as [->|Hne].
    + split; [discriminate | intros H; exfalso; apply H; now left].
    + rewrite IH. unfold dict_keys. tauto.
Qed.

Lemma dict_set_keys {V : Type} (k : string) (v : V) (d : dict V) :
  dict_keys (dict_set k v d) =
  match dict_lookup k d with
  | Some _ => dict_keys d
  | None => dict_keys d ++ [k]
  end.
Proof.
  unfold dict_keys.
  induction d as [|[k' v'] d IH]; cbn [dict_set dict_lookup]; [reflexivity|].
  destruct (String.eqb k' k); [reflexivity|].
  cbn [map fst]. rewrite IH. now destruct (dict_lookup k d).
Qed.

Lemma well_keyed_snoc (k : string) (v : Q) (d : dict Q) :
  In k three -> dict_lookup k d = None -> well_keyed d -> well_keyed (d ++ [(k, v)]).
Proof.
  intros Hk Hnone [Hnd Hin]. apply dict_lookup_None in Hnone.
  unfold well_keyed, dict_keys in *. rewrite map_app. cbn [map fst]. split.
  - apply NoDup_app. split; [exact Hnd|]. split; [|apply NoDup_singleton].
    intros x Hx [->|[]]%list_elem_of_In. apply Hnone. now apply list_elem_of_In.
  - intros x [Hx|[<-|[]]]%in_app_or; auto.
Qed.

Lemma well_keyed_add (k : string) (s : Q) (d : dict Q) :
  In k three -> well_keyed d -> well_keyed (add_to k s d).
Proof.
  intros Hk Hd. unfold well_keyed, add_to in *. rewrite dict_set_keys.
  destruct (dict_lookup k d) eqn:E; [exact Hd|].
  pose proof (well_keyed_snoc k s d Hk E Hd) as H.
  unfold well_keyed, dict_keys in H. rewrite map_app in H. exact H.
Qed.

Lemma well_keyed_classify (pairs : list (string * Q)) (tmp : dict Q) (u : Q) :
  well_keyed tmp -> well_keyed (fold_left classify pairs (tmp, u)).1.
Proof.
  revert tmp u. induction pairs as [|p pairs IH]; intros tmp u Hwf; [exact Hwf|].
  cbn [fold_left]. unfold classify at 2.
  destruct (_ || _); [|destruct (_ || _); [|destruct (_ || _)]];
    apply IH; try apply well_keyed_add; try exact Hwf; unfold three; simpl; tauto.
Qed.

Lemma well_keyed_classified (has_neutral : bool) (neutral_mode : string)
    (pairs : list (string * Q)) :
  well_keyed (classified has_neutral neutral_mode pairs).
Proof.
  assert (Hnil : well_keyed []) by (split; [constructor | intros k []]).
  pose proof (well_keyed_classify pairs [] 0.0%Q Hnil) as H.
  unfold classified.
  destruct (fold_left classify pairs _) as [tmp u].
  cbn [fst] in H.
  destruct (_ && _); [|exact H].
  apply well_keyed_add; [unfold three; simpl; tauto | exact H].
Qed.

Lemma well_keyed_scaled (total : Q) (d : dict Q) :
  well_keyed d -> well_keyed (scaled total d).
Proof. unfold well_keyed. now rewrite scaled_keys. Qed.

Lemma setdefault_spec (k : string) (d : dict Q) :
  In k three -> well_keyed d ->
  well_keyed (dict_setdefault k 0.0%Q d) /\
  In k (dict_keys (dict_setdefault k 0.0%Q d)) /\
  (forall k', In k' (dict_keys d) -> In k' (dict_keys (dict_setdefault k 0.0%Q d))) /\
  (Qsum (dict_values (dict_setdefault k 0.0%Q d)) == Qsum (dict_values d))%Q.
Proof.
  intros Hk Hd. unfold dict_setdefault.
  destruct (dict_lookup k d) eqn:E.
  - split; [exact Hd|]. split; [|split; [auto | reflexivity]].
    destruct (in_dec String.string_dec k (dict_keys d)) as [H|H]; [exact H|].
    apply dict_lookup_None in H. congruence.
  - split; [now apply well_keyed_snoc|].
    unfold dict_keys, dict_values. rewrite !map_app. cbn [map fst snd].
    split; [apply in_or_app; right; now left|].
    split; [intros k' Hk'; apply in_or_app; now left|].
    rewrite Qsum_app. cbn [Qsum foldr]. ring.
Qed.

(** How the generic branch reads a label. *)
Inductive kind : Type := Positive | Negative | Neutral | Unmatched.

Definition kind_of (lbl : string) : kind :=
  let l := lower lbl in
  if contains "pos" l || contains "positive" l then Positive
  else if contains "neg" l || contains "negative" l then Negative
  else if contains "neu" l || contains "neutral" l then Neutral
  else Unmatched.

Definition kind_eqb (a b : kind) : bool :=
  match a, b with
  | Positive, Positive | Negative, Negative
  | Neutral, Neutral | Unmatched, Unmatched => true
  | _, _ => false
  end.

(** The mass of a kind: the sum of the scores of the labels read as it. *)
Definition mass (k : kind) (pairs : list (string * Q)) : Q :=
  Qsum (map snd (List.filter (fun p => kind_eqb (kind_of p.1) k) pairs)).

Lemma mass_cons (k : kind) (p : string * Q) (pairs : list (string * Q)) :
  (mass k (p :: pairs) ==
   (if kind_eqb (kind_of p.1) k then p.2 else 0) + mass k pairs)%Q.
Proof.
  unfold mass. cbn [List.filter].
  destruct (kind_eqb (kind_of p.1) k); cbn [map]; [now rewrite Qsum_cons | ring].
Qed.

Lemma dict_set_lookup_eq {V : Type} (k : string) (v : V) (d : dict V) :
  dict_lookup k (dict_set k v d) = Some v.
Proof.
  induction d as [|[k' v'] d IH]; cbn [dict_set dict_lookup].
  - now rewrite String.eqb_refl.
  - destruct (String.eqb k' k) eqn:E; cbn [dict_lookup]; now rewrite E.
Qed.

Lemma dict_set_lookup_ne {V : Type} (k k' : string) (v : V) (d : dict V) :
  k <> k' -> dict_lookup k' (dict_set k v d) = dict_lookup k' d.
Proof.
  intros Hne. induction d as [|[k0 v0] d IH]; cbn [dict_set dict_lookup].
  - destruct (String.eqb_spec k k'); [contradiction | reflexivity].
  - destruct (String.eqb_spec k0 k) as [->|Hk0]; cbn [dict_lookup].
    + destruct (String.eqb_spec k k'); [contradiction | reflexivity].
    + now rewrite IH.
Qed.

Lemma dict_set_sum (k : string) (v : Q) (d : dict Q) :
  (Qsum (dict_values (dict_set k v d)) ==
   Qsum (dict_values d) - dict_get k 0.0 d + v)%Q.
Proof.
  unfold dict_get, dict_values.
  induction d as [|[k' v'] d IH]; cbn [dict_set dict_lookup map snd from_option id].
  - rewrite Qsum_cons. cbn [Qsum foldr].
    assert (H0 : (0.0 == 0)%Q) by reflexivity. rewrite H0. ring.
  - destruct (String.eqb k' k); cbn [map snd from_option id].
    + rewrite !Qsum_cons. ring.
    + rewrite !Qsum_cons, IH. ring.
Qed.

Lemma add_to_get (k : string) (s : Q) (d : dict Q) :
  (dict_get k 0.0 (add_to k s d) == dict_get k 0.0 d + s)%Q.
Proof.
  unfold add_to. unfold dict_get at 1. now rewrite dict_set_lookup_eq.
Qed.

Lemma add_to_get_other (k k' : string) (s : Q) (d : dict Q) :
  k <> k' -> dict_get k' 0.0%Q (add_to k s d) = dict_get k' 0.0%Q d.
Proof.
  intros Hne. unfold add_to, dict_get. now rewrite dict_set_lookup_ne.
Qed.

Lemma add_to_sum (k : string) (s : Q) (d : dict Q) :
  (Qsum (dict_values (add_to k s d)) == Qsum (dict_values d) + s)%Q.
Proof. unfold add_to. rewrite dict_set_sum. ring. Qed.

(** What the classifying loop leaves, read by kind. *)
Definition reads (tmp : dict Q) (u pos neg neu unm : Q) : Prop :=
  (dict_get "positive" 0.0 tmp == pos)%Q /\
  (dict_get "negative" 0.0 tmp == neg)%Q /\
  (dict_get "neutral" 0.0 tmp == neu)%Q /\
  (u == unm)%Q /\
  (Qsum (dict_values tmp) == pos + neg + neu)%Q.

Lemma classify_reads (pairs : list (string * Q)) (tmp : dict Q) (u pos neg neu unm : Q) :
  reads tmp u pos neg neu unm ->
  reads (fold_left classify pairs (tmp, u)).1 (fold_left classify pairs (tmp, u)).2
    (pos + mass Positive pairs) (neg + mass Negative pairs)
    (neu + mass Neutral pairs) (unm + mass Unmatched pairs).
Proof.
  revert tmp u pos neg neu unm.
  induction pairs as [|[lbl s] pairs IH]; intros tmp u pos neg neu unm H.
  - unfold mass. cbn [fold_left List.filter map Qsum foldr fst snd].
    destruct H as (Hp & Hn & Hu & Hm & Hs).
    unfold reads. rewrite !Qplus_0_r. repeat split; assumption.
  - cbn [fold_left].
    assert (Hstep :
      reads (classify (tmp, u) (lbl, s)).1 (classify (tmp, u) (lbl, s)).2
        (pos + (if kind_eqb (kind_of lbl) Positive then s else 0))
        (neg + (if kind_eqb (kind_of lbl) Negative then s else 0))
        (neu + (if kind_eqb (kind_of lbl) Neutral then s else 0))
        (unm + (if kind_eqb (kind_of lbl) Unmatched then s else 0))).
    { destruct H as (Hp & Hn & Hu & Hm & Hs).
      unfold classify, kind_of. cbn [fst snd].
      destruct (_ || _); [|destruct (_ || _); [|destruct (_ || _)]];
        cbn [fst snd kind_eqb]; unfold reads;
        rewrite ?add_to_sum, ?add_to_get, ?add_to_get_other by discriminate;
        rewrite ?Hp, ?Hn, ?Hu, ?Hm, ?Hs; repeat split; ring. }
    destruct (classify (tmp, u) (lbl, s)) as [tmp' u'].
    specialize (IH tmp' u' _ _ _ _ Hstep).
    destruct IH as (Hp & Hn & Hu & Hm & Hs).
    unfold reads. rewrite !mass_cons. cbn [fst snd].
    rewrite Hp, Hn, Hu, Hm, Hs. repeat split; ring.
Qed.

Lemma ltb_comp (x x' y y' : Q) :
  (x == x')%Q -> (y == y')%Q -> ltb x y = ltb x' y'.
Proof. intros Hx Hy. unfold ltb. now rewrite Hx, Hy. Qed.

(** Whether the unmatched mass goes to [neutral]. *)
Definition folds_unmatched (has_neutral : bool) (neutral_mode : string)
    (pairs : list (string * Q)) : bool :=
  (has_neutral && negb (String.eqb neutral_mode "off")) &&
  ltb 0 (mass Unmatched pairs).

(** The three masses the generic branch normalises: negative, neutral
    (with the unmatched mass when it is folded in), positive. *)
Definition generic_shares (has_neutral : bool) (neutral_mode : string)
    (pairs : list (string * Q)) : Q * Q * Q :=
  (mass Negative pairs,
   (mass Neutral pairs +
    if folds_unmatched has_neutral neutral_mode pairs
    then mass Unmatched pairs else 0)%Q,
   mass Positive pairs).

Lemma classified_reads (has_neutral : bool) (neutral_mode : string)
    (pairs : list (string * Q)) :
  let tmp := classified has_neutral neutral_mode pairs in
  let '(neg, neu, pos) := generic_shares has_neutral neutral_mode pairs in
  (dict_get "positive" 0.0 tmp == pos)%Q /\
  (dict_get "negative" 0.0 tmp == neg)%Q /\
  (Qsum (dict_values tmp) == neg + neu + pos)%Q.
Proof.
  assert (Hnil : reads [] 0.0 0 0 0 0) by (repeat split; reflexivity).
  pose proof (classify_reads pairs [] 0.0%Q 0 0 0 0 Hnil) as H.
  unfold classified, generic_shares, folds_unmatched.
  destruct (fold_left classify pairs _) as [tmp u].
  cbn [fst snd] in H. destruct H as (Hp & Hn & Hu & Hm & Hs).
  rewrite Qplus_0_l in Hp, Hn, Hu, Hm. rewrite !Qplus_0_l in Hs.
  rewrite (ltb_comp 0 0 u (mass Unmatched pairs)) by (reflexivity || exact Hm).
  destruct (_ && _).
  - rewrite add_to_sum, !add_to_get_other by discriminate.
    rewrite Hp, Hn, Hs, Hm. repeat split; try reflexivity. ring.
  - rewrite Hp, Hn, Hs. repeat split; try reflexivity. ring.
Qed.

Lemma setdefault_three (d : dict Q) :
  well_keyed d ->
  let d' := fold_left (fun d k => dict_setdefault k 0.0%Q d) three d in
  Permutation (dict_keys d') three /\
  (Qsum (dict_values d') == Qsum (dict_values d))%Q.
Proof.
  intros Hd. unfold three. cbn [fold_left].
  destruct (setdefault_spec "negative" d) as (H1 & I1 & K1 & S1);
    [unfold three; simpl; tauto | exact Hd |].
  destruct (setdefault_spec "neutral" _ ltac:(unfold three; simpl; tauto) H1)
    as (H2 & I2 & K2 & S2).
  destruct (setdefault_spec "positive" _ ltac:(unfold three; simpl; tauto) H2)
    as (H3 & I3 & K3 & S3).
  split; [|now rewrite S3, S2, S1].
  apply NoDup_Permutation.
  - exact (proj1 H3).
  - apply (bool_decide_unpack _). vm_compute. reflexivity.
  - intros k. rewrite !list_elem_of_In. split; [apply (proj2 H3)|].
    intros [<-|[<-|[<-|[]]]]; auto.
Qed.

Lemma generic_sentiment_spec (id2label : option (list string))
    (neutral_mode : string) (pairs : list (string * Q)) :
  let has_neutral := model_has_neutral id2label in
  let '(neg, neu, pos) := generic_shares has_neutral neutral_mode pairs in
  exists d,
    generic_sentiment id2label neutral_mode pairs = Returns d /\
    if drops_neutral neutral_mode has_neutral
    then dict_keys d = ["positive"; "negative"] /\
         (Qsum (dict_values d) == 1)%Q /\
         ((pos == 0)%Q -> (neg == 0)%Q ->
          d = [("positive", 1.0%Q); ("negative", 0.0%Q)])
    else Permutation (dict_keys d) three /\
         (~ (neg + neu + pos == 0)%Q -> (Qsum (dict_values d) == 1)%Q).
Proof.
  intros has_neutral.
  pose proof (classified_reads has_neutral neutral_mode pairs) as Hreads.
  pose proof (well_keyed_classified has_neutral neutral_mode pairs) as Hwf.
  destruct (generic_shares has_neutral neutral_mode pairs) as [[neg neu] pos].
  cbv zeta in Hreads. destruct Hreads as (Hp & Hn & Hs).
  unfold generic_sentiment. fold has_neutral.
  set (tmp := classified has_neutral neutral_mode pairs) in *.
  set (total := or_one (sum (dict_values tmp))).
  rewrite (scale_scaled total tmp) by apply or_one_nonzero.
  cbn [mbind result_bind].
  destruct (drops_neutral neutral_mode has_neutral).
  - destruct (two_way_spec (dict_get "positive" 0.0%Q (scaled total tmp))
                (dict_get "negative" 0.0%Q (scaled total tmp)))
      as (d & Hd & Hkeys & Hsum & Hzero).
    exists d. split; [exact Hd|]. split; [exact Hkeys|]. split; [exact Hsum|].
    intros Hpos Hneg. apply Hzero.
    rewrite !scaled_get, Hp, Hn, Hpos, Hneg. unfold Qdiv.
    rewrite !Qmult_0_l. discriminate.
  - set (scores := fold_left _ _ (scaled total tmp)).
    destruct (setdefault_three (scaled total tmp) (well_keyed_scaled total tmp Hwf))
      as (Hperm & Hsum).
    fold three in scores. fold scores in Hperm, Hsum.
    rewrite (scale_scaled _ scores) by apply or_one_nonzero.
    eexists. split; [reflexivity|]. rewrite scaled_keys. split; [exact Hperm|].
    intros Hmass.
    assert (Htotal : (total == neg + neu + pos)%Q).
    { unfold total. rewrite or_one_eq; rewrite sum_Qsum, Hs; [reflexivity | exact Hmass]. }
    assert (Hone : (Qsum (dict_values scores) == 1)%Q).
    { rewrite Hsum, scaled_sum, Hs, Htotal. now field. }
    rewrite scaled_sum, or_one_eq; rewrite sum_Qsum, Hone; [reflexivity | discriminate].
Qed.

Lemma star_sentiment_spec (neutral_mode : string) (pairs : list (string * Q)) :
  let '(neg, neu, pos) := star_buckets pairs in
  exists d,
    star_sentiment neutral_mode pairs = Returns d /\
    if String.eqb neutral_mode "off"
    then dict_keys d = ["positive"; "negative"] /\
         (Qsum (dict_values d) == 1)%Q /\
         ((pos == 0)%Q -> (neg == 0)%Q ->
          d = [("positive", 1.0%Q); ("negative", 0.0%Q)])
    else dict_keys d = three /\
         ((1e-9 <= neg + neu + pos)%Q -> (Qsum (dict_values d) == 1)%Q).
Proof.
  unfold star_sentiment.
  destruct (star_buckets pairs) as [[neg neu] pos].
  set (total := max 1e-9 (neg + neu + pos)).
  assert (Hpos : (0 < total)%Q).
  { eapply Qlt_le_trans; [|apply max_lower]. reflexivity. }
  assert (Hnz : ~ (total == 0)%Q) by now apply positive_nonzero.
  rewrite !truediv_ok by exact Hnz. cbn [mbind result_bind].
  destruct (String.eqb neutral_mode "off").
  - change (dict_get "positive" 0.0%Q _) with (pos / total)%Q.
    change (dict_get "negative" 0.0%Q _) with (neg / total)%Q.
    destruct (two_way_spec (pos / total) (neg / total))
      as (d & Hd & Hkeys & Hsum & Hzero).
    exists d. split; [exact Hd|]. split; [exact Hkeys|]. split; [exact Hsum|].
    intros Hp Hn. apply Hzero. rewrite Hp, Hn. unfold Qdiv.
    rewrite !Qmult_0_l. discriminate.
  - eexists. split; [reflexivity|]. split; [reflexivity|].
    intros Hmass. cbn [dict_values map snd]. rewrite !Qsum_cons. cbn [Qsum foldr].
    assert (Htotal : (total == neg + neu + pos)%Q) by now apply max_reached.
    rewrite Htotal in Hnz |- *. now field.
Qed.

Definition star_model : string :=
  "nlptown/bert-base-multilingual-uncased-sentiment".










Lemma max_by_returns (d : dict Q) :
  d <> [] -> exists best, max_by snd d = Returns best.
Proof. destruct d; [contradiction | now eexists]. Qed.


Definition five_stars : raw :=
  Flat [entry "1 star" 0.1; entry "2 stars" 0.1; entry "3 stars" 0.2;
        entry "4 stars" 0.3; entry "5 stars" 0.3].

(** The example of the specification: the star ratings above, under
    policy on, give negative 0.2, neutral 0.2, positive 0.6. *)
Example five_stars_on :
  exists r,
    analyze_sentiment star_model None "on" five_stars = Returns r /\
    label r = "positive" /\
    Forall2 (fun kv ex => kv.1 = ex.1 /\ (kv.2 == ex.2)%Q) (scores r)
      [("negative", 0.2%Q); ("neutral", 0.2%Q); ("positive", 0.6%Q)].
Proof.
  eexists. split; [vm_compute; reflexivity|]. split; [reflexivity|].
  repeat constructor.
Qed.


(** The star-rating branch does not look at the label table: under policy
    auto it keeps the neutral key although no label of the table is
    neutral-like. *)
Example star_auto_keeps_neutral :
  exists r,
    analyze_sentiment star_model
      (Some ["1 star"; "2 stars"; "3 stars"; "4 stars"; "5 stars"]) "auto"
      five_stars = Returns r /\
    model_has_neutral
      (Some ["1 star"; "2 stars"; "3 stars"; "4 stars"; "5 stars"]) = false /\
    dict_keys (scores r) = ["negative"; "neutral"; "positive"].
Proof.
  eexists. split; [vm_compute; reflexivity|]. split; reflexivity.
Qed.

(** A model found under the local models directory, with a label table
    that has a neutral class, and its output for a text. *)
Definition local_model : string := "/srv/models/sentiment/roberta".

Definition three_way_output : raw :=
  Flat [entry "NEGATIVE" 0.2; entry "NEUTRAL" 0.3; entry "POSITIVE" 0.5].


(** The same output under the four settings, computed. *)
Example sentiment_policies :
  (exists r,
      analyze_sentiment local_model (Some ["NEGATIVE"; "NEUTRAL"; "POSITIVE"])
        "auto" three_way_output = Returns r /\
      label r = "positive" /\
      Forall2 (fun kv ex => kv.1 = ex.1 /\ (kv.2 == ex.2)%Q) (scores r)
        [("negative", 0.2%Q); ("neutral", 0.3%Q); ("positive", 0.5%Q)]) /\
  (exists r,
      analyze_sentiment local_model (Some ["NEGATIVE"; "NEUTRAL"; "POSITIVE"])
        "off" three_way_output = Returns r /\
      Forall2 (fun kv ex => kv.1 = ex.1 /\ (kv.2 == ex.2)%Q) (scores r)
        [("positive", (5 # 7)%Q); ("negative", (2 # 7)%Q)]) /\
  (exists r,
      analyze_sentiment local_model (Some ["NEGATIVE"; "POSITIVE"])
        "auto" three_way_output = Returns r /\
      Forall2 (fun kv ex => kv.1 = ex.1 /\ (kv.2 == ex.2)%Q) (scores r)
        [("positive", (5 # 7)%Q); ("negative", (2 # 7)%Q)]).
Proof.
  split; [|split]; (eexists; split; [vm_compute; reflexivity|]);
    repeat split; repeat constructor.
Qed.

End ModelsSpec.


(** * Part III: the rest of the code *)

(** ** [app/main.py]: reading the label table, the windowed summary *)

Module Handlers.
Import Py Main.

(** A key of [id2label]: an [int], or a [str]. *)
Inductive key : Type :=
| KInt (z : Z)
| KStr (s : string).

Definition is_digit (c : ascii) : bool :=
  match digit_value c with Some _ => true | None => false end.

Fixpoint all_digits (s : string) : bool :=
  match s with
  | EmptyString => true
  | String c s' => is_digit c && all_digits s'
  end.

(** [s.isdigit()] *)
Definition isdigit (s : string) : bool :=
  match s with
  | EmptyString => false
  | _ => all_digits s
  end.

(** [isinstance(k, int) or (isinstance(k, str) and str(k).isdigit())] *)
Definition is_numeric (k : key) : bool :=
  match k with
  | KInt _ => true
  | KStr s => isdigit s
  end.

(** What the [except Exception] clause sees of a call: its value, or that it
    raised. *)
Definition caught {A : Type} (r : result A) : option A :=
  match r with
  | Returns a => Some a
  | Raises _ => None
  end.

(** [int(k)] *)
Definition int_of_key (k : key) : result Z :=
  match k with
  | KInt z => Returns z
  | KStr s => int_of_str s
  end.

(** [id2label[i]] for an [int] [i]; a [str] key is never equal to it.
    [None] is the [KeyError]. *)
Fixpoint lookup_int (i : Z) (id2label : list (key * string)) : option string :=
  match id2label with
  | [] => None
  | (KInt z, v) :: rest => if (z =? i)%Z then Some v else lookup_int i rest
  | (KStr _, _) :: rest => lookup_int i rest
  end.

(** [sorted] on a list of [int]. *)
Definition sorted_ints (l : list Z) : list Z :=
  stable_sort (fun y x => (y <? x)%Z) l.

(** The body of the [try] that reads the labels of the emotion model;
    [None] when it raises.  [id2label] is the items of the table, in
    insertion order, values already strings. *)
Definition read_labels (id2label : list (key * string)) : option (list string) :=
  match id2label with
  | [] => Some []
  | _ =>
      if existsb is_numeric (map fst id2label) then
        idxs ← caught (traverse int_of_key (map fst id2label));
        mapM (fun i => lookup_int i id2label) (sorted_ints idxs)
      else Some (map snd id2label)
  end.

(** The labels [analyze] and [lifespan] hand to [init_vad_mapper]:
    [labels if labels else None], where an exception while reading leaves
    [labels = []].  [None] for [id2label] is a config without a dict
    there. *)
Definition emotion_labels (id2label : option (list (key * string)))
    : option (list string) :=
  match id2label ≫= read_labels with
  | Some (l :: ls) => Some (l :: ls)
  | _ => None
  end.

(** What [_recent] of [metrics] returns. *)
Record Summary : Type := {
  avg : option Q;
  p50 : option Q;
  p95 : option Q;
  p99 : option Q;
  count : nat;
}.

Definition no_sample : Summary :=
  {| avg := None; p50 := None; p95 := None; p99 := None; count := 0 |}.

(** [[v for v, t in zip(vals, times) if (now - t) <= window_sec]] *)
Definition within (now window_sec : Q) (vals times : list Q) : list Q :=
  map fst (List.filter (fun vt => leb (now - vt.2) window_sec) (combine vals times)).

(** [_recent], the helper of [metrics]; [now] is the clock reading
    [metrics] took. *)
Definition _recent (now : Q) (vals times : list Q) (window_sec : Q)
    : result Summary :=
  match vals, times with
  | [], _ | _, [] => Returns no_sample
  | _, _ =>
      let sel := within now window_sec vals times in
      match sel with
      | [] => Returns no_sample
      | _ =>
          a ← truediv (sum sel) (inject_Z (Z.of_nat (length sel)));
          q50 ← _percentile sel 0.50;
          q95 ← _percentile sel 0.95;
          q99 ← _percentile sel 0.99;
          Returns {| avg := Some a; p50 := q50; p95 := q95; p99 := q99;
                     count := length sel |}
      end
  end.

End Handlers.

(** ** The handlers and the metrics, beyond the claims *)

Module HandlersSpec.
Import Py PyFacts Main MainSpec Handlers.

(** *** Counters and history *)

(** The request passes the empty-text check. *)
Definition processed (req : Request) : bool :=
  negb (String.eqb (strip (text req)) "").

(** The request passes the check and its [try] block raises. *)
Definition failed (req : Request) : bool :=
  processed req &&
  match outcome req with
  | BodyRaises => true
  | BodyReturns _ => false
  end.

(** The latency [analyze] records for a request. *)
Definition latency_of (req : Request) : Q := ((t1 req - t0 req) * 1000.0)%Q.

(** The top-1 sample a request records, if any: score and clock reading. *)
Definition top1_of (req : Request) : option (Q * Q) :=
  if processed req then
    match outcome req with
    | BodyReturns (first :: _) => Some (first.2, t2 req)
    | _ => None
    end
  else None.

Lemma analyze_refused (req : Request) (m : Metrics) :
  processed req = false -> analyze req m = (m, Raises (HTTPException 400)).
Proof.
  unfold processed, analyze. intros H%negb_false_iff. now rewrite H.
Qed.

Lemma analyze_counts (req : Request) (m : Metrics) :
  inference_count (analyze req m).1 =
    (inference_count m + if processed req then 1 else 0)%nat /\
  error_count (analyze req m).1 =
    (error_count m + if failed req then 1 else 0)%nat /\
  start_time (analyze req m).1 = start_time m.
Proof.
  unfold failed, processed, analyze.
  destruct (String.eqb _ _); cbn [negb andb fst].
  - repeat split; lia.
  - destruct (outcome req) as [|[|first rest]]; cbn; repeat split; lia.
Qed.

Lemma filter_length_snoc {A : Type} (f : A -> bool) (l : list A) (x : A) :
  length (List.filter f (l ++ [x])) =
  (length (List.filter f l) + if f x then 1 else 0)%nat.
Proof.
  rewrite List.filter_app, length_app. cbn [List.filter].
  now destruct (f x).
Qed.

(** X1.  After any sequence of requests, [inference_count] is the number
    of requests that passed the empty-text check and [error_count] the
    number of those whose [try] block raised, so it never exceeds
    [inference_count]; [start_time] is never written.  A request whose
    text is empty once stripped of its white space (that of
    [str.strip()], the ideographic space included) is answered with
    HTTP 400 and leaves the metrics as they were. *)
Theorem serve_counts (reqs : list Request) (t : Q) :
  let m := serve reqs (initial_metrics t) in
  inference_count m = length (List.filter processed reqs) /\
  error_count m = length (List.filter failed reqs) /\
  (error_count m <= inference_count m)%nat /\
  start_time m = t /\
  (forall (req : Request) (m' : Metrics),
      processed req = false ->
      analyze req m' = (m', Raises (HTTPException 400))).
Proof.
  cbv zeta.
  assert (H : inference_count (serve reqs (initial_metrics t)) =
                length (List.filter processed reqs) /\
              error_count (serve reqs (initial_metrics t)) =
                length (List.filter failed reqs) /\
              start_time (serve reqs (initial_metrics t)) = t).
  { induction reqs as [|req reqs (IHi & IHe & IHs)] using rev_ind.
    - repeat split.
    - rewrite serve_snoc, !filter_length_snoc.
      destruct (analyze_counts req (serve reqs (initial_metrics t)))
        as (Hi & He & Hs).
      rewrite Hi, He, Hs, IHi, IHe, IHs. repeat split. }
  destruct H as (Hi & He & Hs).
  split; [exact Hi|]. split; [exact He|]. split; [|split; [exact Hs|]].
  - rewrite Hi, He. clear. induction reqs as [|req reqs IH]; [reflexivity|].
    cbn [List.filter]. unfold failed at 1.
    destruct (processed req); cbn [andb length].
    + destruct (outcome req); cbn [length]; lia.
    + exact IH.
  - exact analyze_refused.
Qed.

(** *** The buffers hold the most recent samples *)

Lemma append_capped_suffix (buf hist : list Q) (x : Q) :
  buf `suffix_of` hist -> append_capped buf x `suffix_of` (hist ++ [x]).
Proof.
  intros [pre ->]. unfold append_capped.
  destruct (2000 <? length (buf ++ [x]))%nat.
  - etransitivity; [apply suffix_drop|]. rewrite <- app_assoc. now exists pre.
  - rewrite <- app_assoc. now exists pre.
Qed.

Lemma append_capped_keeps (buf : list Q) (x : Q) (n : nat) :
  (Nat.min n 1000 <= length buf)%nat ->
  (Nat.min (S n) 1000 <= length (append_capped buf x))%nat.
Proof.
  intros H. rewrite append_capped_length.
  destruct (Nat.ltb_spec (length buf) 2000); lia.
Qed.

(** [buf] holds the last entries of [hist]: all of them, or at least the
    last 1000. *)
Definition recent_of (buf hist : list Q) : Prop :=
  buf `suffix_of` hist /\ (Nat.min (length hist) 1000 <= length buf)%nat.

Lemma recent_of_append (buf hist : list Q) (x : Q) :
  recent_of buf hist -> recent_of (append_capped buf x) (hist ++ [x]).
Proof.
  intros [Hs Hl]. split; [now apply append_capped_suffix|].
  rewrite length_app. cbn [length]. rewrite Nat.add_1_r.
  now apply append_capped_keeps.
Qed.

Lemma omap_snoc {A B : Type} (f : A -> option B) (l : list A) (x : A) :
  omap f (l ++ [x]) = omap f l ++ match f x with Some y => [y] | None => [] end.
Proof. rewrite omap_app. cbn. now destruct (f x). Qed.

Lemma analyze_latencies (req : Request) (m : Metrics) :
  inference_latencies_ms (analyze req m).1 =
  if processed req
  then append_capped (inference_latencies_ms m) (latency_of req)
  else inference_latencies_ms m.
Proof.
  unfold processed, analyze, latency_of.
  destruct (String.eqb _ _); cbn [negb fst]; [reflexivity|].
  now destruct (outcome req) as [|[|first rest]].
Qed.

Lemma analyze_top1 (req : Request) (m : Metrics) :
  lockstep m ->
  emotion_top1_scores (analyze req m).1 =
    match top1_of req with
    | Some st => append_capped (emotion_top1_scores m) st.1
    | None => emotion_top1_scores m
    end /\
  emotion_top1_times (analyze req m).1 =
    match top1_of req with
    | Some st => append_capped (emotion_top1_times m) st.2
    | None => emotion_top1_times m
    end.
Proof.
  intros Hl. unfold top1_of, processed, analyze.
  destruct (String.eqb _ _); cbn [negb fst]; [now split|].
  destruct (outcome req) as [|[|first rest]]; cbn [fst snd]; try now split.
  split; [reflexivity|].
  rewrite top1_times by now apply lockstep_latency. reflexivity.
Qed.

Lemma serve_lockstep (reqs : list Request) (t : Q) :
  lockstep (serve reqs (initial_metrics t)).
Proof.
  induction reqs as [|req reqs IH] using rev_ind; [reflexivity|].
  rewrite serve_snoc. now apply analyze_lockstep.
Qed.

(** X2.  After any sequence of requests each buffer is a suffix of the full
    history of what was recorded into it, in order, and it holds the whole
    history or at least its last 1000 entries. *)
Theorem buffers_hold_latest (reqs : list Request) (t : Q) :
  let m := serve reqs (initial_metrics t) in
  recent_of (inference_latencies_ms m)
    (map latency_of (List.filter processed reqs)) /\
  recent_of (emotion_top1_scores m) (omap top1_of reqs).*1 /\
  recent_of (emotion_top1_times m) (omap top1_of reqs).*2.
Proof.
  cbv zeta. induction reqs as [|req reqs (IHl & IHs & IHt)] using rev_ind.
  - repeat split; cbn; try reflexivity; lia.
  - rewrite serve_snoc, List.filter_app, map_app, omap_snoc, !fmap_app.
    pose proof (serve_lockstep reqs t) as Hlock.
    rewrite analyze_latencies.
    destruct (analyze_top1 req _ Hlock) as [-> ->].
    cbn [List.filter]. split; [|split].
    + destruct (processed req); cbn [map].
      * now apply recent_of_append.
      * now rewrite app_nil_r.
    + destruct (top1_of req) as [[s c]|]; cbn.
      * now apply recent_of_append.
      * now rewrite app_nil_r.
    + destruct (top1_of req) as [[s c]|]; cbn.
      * now apply recent_of_append.
      * now rewrite app_nil_r.
Qed.

(** U+3000, the ideographic space, in UTF-8. *)
Definition ideographic_space : string :=
  String (ascii_of_nat 227) (String (ascii_of_nat 128)
    (String (ascii_of_nat 128) EmptyString)).

(** A request whose text is a space, a tab and an ideographic space. *)
Definition blank_request : Request :=
  {| text := String " " (String (ascii_of_nat 9) ideographic_space);
     outcome := BodyRaises; t0 := 1; t1 := 2; t2 := 3 |}.

Lemma serve_counts_witness :
  processed blank_request = false /\
  analyze blank_request (initial_metrics 0) =
    (initial_metrics 0, Raises (HTTPException 400)) /\
  inference_count (serve [blank_request; joy_request; failed_request]
                     (initial_metrics 0)) = 2%nat /\
  error_count (serve [blank_request; joy_request; failed_request]
                 (initial_metrics 0)) = 1%nat.
Proof.
  assert (H : processed blank_request = false) by reflexivity.
  split; [exact H|].
  split.
  - exact (proj2 (proj2 (proj2 (proj2 (serve_counts [] 0))))
             blank_request (initial_metrics 0) H).
  - pose proof (serve_counts [blank_request; joy_request; failed_request] 0)
      as (Hi & He & _).
    split; [rewrite Hi | rewrite He]; reflexivity.
Defined.

(** *** Percentiles *)

Lemma sorted_lookup_le (s : list Q) (i j : nat) (x y : Q) :
  StronglySorted Qle s -> (i <= j)%nat ->
  s !! i = Some x -> s !! j = Some y -> (x <= y)%Q.
Proof.
  intros Hs. revert i j. induction Hs as [|z s Hs IH Hall]; intros i j Hij Hi Hj.
  - discriminate.
  - destruct i as [|i], j as [|j]; cbn in Hi, Hj.
    + injection Hi as <-. injection Hj as <-. apply Qle_refl.
    + injection Hi as <-. rewrite Forall_forall in Hall. apply Hall.
      eapply list_elem_of_lookup_2. exact Hj.
    + lia.
    + apply (IH i j); [lia | assumption | assumption].
Qed.

Lemma rank_bounds (n : nat) (q : Q) :
  (0 < n)%nat -> (0 <= rank n q <= Z.of_nat n - 1)%Z.
Proof. unfold rank. lia. Qed.

Lemma rank_mono (n : nat) (q1 q2 : Q) :
  (0 < n)%nat -> (q1 <= q2)%Q -> (rank n q1 <= rank n q2)%Z.
Proof.
  intros Hn Hq. unfold rank.
  assert (Htop : (0 <= inject_Z (Z.of_nat n - 1))%Q)
    by (rewrite <- (Zle_Qle 0); lia).
  assert (H : (Qfloor (q1 * inject_Z (Z.of_nat n - 1)) <=
               Qfloor (q2 * inject_Z (Z.of_nat n - 1)))%Z).
  { apply Qfloor_resp_le. now apply Qmult_le_compat_r. }
  lia.
Qed.

Lemma rank_low (n : nat) (q : Q) : (0 < n)%nat -> (q <= 0)%Q -> rank n q = 0%Z.
Proof.
  intros Hn Hq. unfold rank.
  assert (Htop : (0 <= inject_Z (Z.of_nat n - 1))%Q)
    by (rewrite <- (Zle_Qle 0); lia).
  assert (H : (Qfloor (q * inject_Z (Z.of_nat n - 1)) <= 0)%Z).
  { apply floor_nonpos.
    rewrite <- (Qmult_0_l (inject_Z (Z.of_nat n - 1))).
    now apply Qmult_le_compat_r. }
  lia.
Qed.

Lemma rank_high (n : nat) (q : Q) :
  (0 < n)%nat -> (1 <= q)%Q -> rank n q = (Z.of_nat n - 1)%Z.
Proof.
  intros Hn Hq. unfold rank.
  assert (Htop : (0 <= inject_Z (Z.of_nat n - 1))%Q)
    by (rewrite <- (Zle_Qle 0); lia).
  assert (H : (Z.of_nat n - 1 <= Qfloor (q * inject_Z (Z.of_nat n - 1)))%Z).
  { rewrite <- (Qfloor_Z (Z.of_nat n - 1)) at 1. apply Qfloor_resp_le.
    rewrite <- (Qmult_1_l (inject_Z (Z.of_nat n - 1))) at 1.
    now apply Qmult_le_compat_r. }
  lia.
Qed.

Lemma nonempty_length {A : Type} (l : list A) : l <> [] -> (0 < length l)%nat.
Proof. destruct l; [contradiction | cbn; lia]. Qed.

(** The element [_percentile] returns, with its place in the sorted list. *)
Lemma percentile_at (values : list Q) (q : Q) :
  values <> [] ->
  exists x,
    _percentile values q = Returns (Some x) /\
    sorted values !! Z.to_nat (rank (length values) q) = Some x /\
    In x values.
Proof.
  intros Hne. destruct (percentile_rank values q Hne) as (x & Hx & Hp).
  exists x. split; [exact Hp|]. split; [exact Hx|].
  apply list_elem_of_In. rewrite <- (sorted_perm values).
  eapply list_elem_of_lookup_2. exact Hx.
Qed.

Lemma sorted_lookup_In (values : list Q) (v : Q) :
  In v values -> exists j, sorted values !! j = Some v /\ (j < length values)%nat.
Proof.
  intros Hv. apply list_elem_of_In in Hv. rewrite <- (sorted_perm values) in Hv.
  apply list_elem_of_lookup_1 in Hv as [j Hj]. exists j. split; [exact Hj|].
  apply lookup_lt_Some in Hj. now rewrite (Permutation_length (sorted_perm values)) in Hj.
Qed.

Lemma percentile_le (values : list Q) (q1 q2 : Q) :
  values <> [] -> (q1 <= q2)%Q ->
  exists x1 x2,
    _percentile values q1 = Returns (Some x1) /\
    _percentile values q2 = Returns (Some x2) /\
    In x1 values /\ In x2 values /\
    (x1 <= x2)%Q.
Proof.
  intros Hne Hq. pose proof (nonempty_length values Hne) as Hn.
  destruct (percentile_at values q1 Hne) as (x1 & Hp1 & Hx1 & Hin1).
  destruct (percentile_at values q2 Hne) as (x2 & Hp2 & Hx2 & Hin2).
  exists x1, x2. repeat split; try assumption.
  pose proof (rank_mono (length values) q1 q2 Hn Hq).
  pose proof (rank_bounds (length values) q1 Hn).
  apply (sorted_lookup_le (sorted values) (Z.to_nat (rank (length values) q1))
           (Z.to_nat (rank (length values) q2)) x1 x2 (sorted_ascending values));
    [lia | exact Hx1 | exact Hx2].
Qed.



(** *** The windowed summary *)

Lemma filter_length_le {A : Type} (f : A -> bool) (l : list A) :
  (length (List.filter f l) <= length l)%nat.
Proof.
  induction l as [|x l IH]; [reflexivity|]. cbn [List.filter].
  destruct (f x); cbn [length]; lia.
Qed.

Lemma filter_length_impl {A : Type} (f g : A -> bool) (l : list A) :
  (forall x, f x = true -> g x = true) ->
  (length (List.filter f l) <= length (List.filter g l))%nat.
Proof.
  intros H. induction l as [|x l IH]; [reflexivity|]. cbn [List.filter].
  destruct (f x) eqn:E.
  - rewrite (H x E). cbn [length]. lia.
  - destruct (g x); cbn [length]; lia.
Qed.

Lemma within_length (now w : Q) (vals times : list Q) :
  (length (within now w vals times) <= Nat.min (length vals) (length times))%nat.
Proof.
  unfold within. rewrite length_map.
  etransitivity; [apply filter_length_le|]. now rewrite length_combine.
Qed.

Lemma within_In (now w : Q) (vals times : list Q) (v : Q) :
  In v (within now w vals times) -> In v vals.
Proof.
  unfold within. intros ([v' t] & <- & H)%in_map_iff.
  apply filter_In in H as [H _]. now apply in_combine_l in H.
Qed.

Lemma within_wider (now w w' : Q) (vals times : list Q) :
  (w <= w')%Q ->
  (length (within now w vals times) <= length (within now w' vals times))%nat.
Proof.
  intros Hw. unfold within. rewrite !length_map.
  apply filter_length_impl. intros vt H. apply leb_le in H. apply leb_le.
  now apply Qle_trans with w.
Qed.

Lemma recent_unfold (now w : Q) (vals times : list Q) :
  _recent now vals times w =
  let sel := within now w vals times in
  match sel with
  | [] => Returns no_sample
  | _ :: _ =>
      a ← truediv (sum sel) (inject_Z (Z.of_nat (length sel)));
      q50 ← _percentile sel 0.50;
      q95 ← _percentile sel 0.95;
      q99 ← _percentile sel 0.99;
      Returns {| avg := Some a; p50 := q50; p95 := q95; p99 := q99;
                 count := length sel |}
  end.
Proof.
  destruct vals as [|v vals]; [reflexivity|].
  destruct times as [|c times]; [reflexivity|]. reflexivity.
Qed.


(** *** Reading the labels of the model *)

Definition int_keyed (table : list (key * string)) : Prop :=
  Forall (fun kv => exists z, kv.1 = KInt z) table.

Definition str_keyed (table : list (key * string)) : Prop :=
  Forall (fun kv => exists s, kv.1 = KStr s) table.

Lemma sorted_ints_perm (l : list Z) : Permutation (sorted_ints l) l.
Proof. apply stable_sort_perm. Qed.

Lemma sorted_ints_sorted (l : list Z) : StronglySorted Z.le (sorted_ints l).
Proof.
  apply stable_sort_sorted.
  - intros x y z. lia.
  - intros y x H. apply Z.ltb_lt in H. lia.
  - intros y x H. apply Z.ltb_ge in H. exact H.
Qed.

Lemma lookup_int_In (table : list (key * string)) (i : Z) :
  In (KInt i) (map fst table) ->
  exists v, lookup_int i table = Some v /\ In (KInt i, v) table.
Proof.
  induction table as [|[[z|s] v] table IH]; cbn [map fst In lookup_int].
  - intros [].
  - destruct (Z.eqb_spec z i) as [->|Hne].
    + intros _. exists v. split; [reflexivity | now left].
    + intros [[= ->]|H]; [contradiction|].
      destruct (IH H) as (v' & Hl & Hin). exists v'. split; [exact Hl | now right].
  - intros [[=]|H]. destruct (IH H) as (v' & Hl & Hin).
    exists v'. split; [exact Hl | now right].
Qed.

Lemma lookup_int_str_keyed (table : list (key * string)) (i : Z) :
  str_keyed table -> lookup_int i table = None.
Proof.
  induction 1 as [|[k v] table [s Hk] _ IH]; [reflexivity|].
  cbn in Hk. subst k. exact IH.
Qed.

Lemma int_keys (table : list (key * string)) :
  int_keyed table ->
  exists zs, map fst table = map KInt zs /\
             traverse int_of_key (map fst table) = Returns zs.
Proof.
  induction 1 as [|[k v] table [z Hk] _ (zs & Hkeys & Htr)].
  - now exists [].
  - cbn in Hk. subst k. exists (z :: zs). cbn [map fst traverse int_of_key].
    rewrite Hkeys. split; [reflexivity|].
    rewrite <- Hkeys, Htr. reflexivity.
Qed.

Lemma mapM_lookup_int (table : list (key * string)) (idxs : list Z) :
  Forall (fun i => In (KInt i) (map fst table)) idxs ->
  exists labels,
    mapM (fun i => lookup_int i table) idxs = Some labels /\
    Forall2 (fun i lbl => In (KInt i, lbl) table) idxs labels.
Proof.
  induction 1 as [|i idxs Hi _ (labels & Hm & Hall)].
  - exists []. split; [reflexivity | constructor].
  - destruct (lookup_int_In table i Hi) as (v & Hl & Hin).
    exists (v :: labels). split; [|now constructor].
    cbn [mapM]. rewrite Hl. cbn. rewrite Hm. reflexivity.
Qed.

(** X6.  How the labels of the emotion model are read from [id2label].
    With [int] keys only, the labels are the values in ascending order of
    their keys, one per key.  With [str] keys only, of which at least one
    is made of digits, no label comes out: the lookup by [int] index raises
    and the exception is swallowed.  With no numeric key at all, the labels
    are the values in the order of the table. *)
Theorem emotion_labels_by_keys (table : list (key * string)) :
  table <> [] ->
  (int_keyed table ->
   exists zs labels,
     map fst table = map KInt zs /\
     emotion_labels (Some table) = Some labels /\
     Permutation (sorted_ints zs) zs /\
     StronglySorted Z.le (sorted_ints zs) /\
     Forall2 (fun i lbl => In (KInt i, lbl) table) (sorted_ints zs) labels) /\
  (str_keyed table -> existsb is_numeric (map fst table) = true ->
   emotion_labels (Some table) = None) /\
  (existsb is_numeric (map fst table) = false ->
   emotion_labels (Some table) = Some (map snd table)).
Proof.
  intros Hne. split; [|split].
  - intros Hint. destruct (int_keys table Hint) as (zs & Hkeys & Htr).
    destruct (mapM_lookup_int table (sorted_ints zs)) as (labels & Hm & Hall).
    { rewrite Forall_forall. intros i Hi. rewrite Hkeys.
      apply in_map. apply list_elem_of_In.
      rewrite <- (sorted_ints_perm zs). exact Hi. }
    exists zs, labels. split; [exact Hkeys|].
    split; [|split; [apply sorted_ints_perm | split; [apply sorted_ints_sorted | exact Hall]]].
    unfold emotion_labels. cbn [mbind option_bind]. unfold read_labels.
    destruct table as [|[k v] table]; [contradiction|].
    assert (Hnum : existsb is_numeric (map fst ((k, v) :: table)) = true).
    { inversion Hint as [|? ? [z Hz] _]; subst. cbn in Hz. subst k. reflexivity. }
    rewrite Hnum, Htr. cbn [caught mbind option_bind]. rewrite Hm.
    destruct labels as [|l ls]; [|reflexivity].
    apply Forall2_length in Hall.
    rewrite (Permutation_length (sorted_ints_perm zs)) in Hall.
    apply (f_equal (@length key)) in Hkeys. rewrite !length_map in Hkeys.
    cbn [length] in *. lia.
  - intros Hstr Hnum. unfold emotion_labels. cbn [mbind option_bind].
    unfold read_labels. destruct table as [|kv table]; [contradiction|].
    rewrite Hnum.
    destruct (traverse int_of_key (map fst (kv :: table))) as [idxs|e] eqn:Htr;
      [|reflexivity].
    cbn [caught mbind option_bind].
    destruct (sorted_ints idxs) as [|i rest] eqn:Es.
    + exfalso. assert (Hnil : idxs = []).
      { apply Permutation_nil. rewrite <- Es. apply sorted_ints_perm. }
      subst idxs. cbn [map fst traverse] in Htr.
      destruct (int_of_key kv.1); cbn in Htr; [|discriminate].
      destruct (traverse int_of_key (map fst table)); discriminate.
    + cbn [mapM]. now rewrite (lookup_int_str_keyed _ i Hstr).
  - intros Hnum. unfold emotion_labels. cbn [mbind option_bind].
    unfold read_labels. destruct table as [|kv table]; [contradiction|].
    now rewrite Hnum.
Qed.

Lemma emotion_labels_by_keys_witness :
  [(KInt 1, "joy"); (KInt 0, "anger")] <> [] /\
  int_keyed [(KInt 1, "joy"); (KInt 0, "anger")] /\
  exists zs labels,
    map fst [(KInt 1, "joy"); (KInt 0, "anger")] = map KInt zs /\
    emotion_labels (Some [(KInt 1, "joy"); (KInt 0, "anger")]) = Some labels.
Proof.
  assert (H : [(KInt 1, "joy"); (KInt 0, "anger")] <> []) by discriminate.
  assert (Hi : int_keyed [(KInt 1, "joy"); (KInt 0, "anger")])
    by (repeat constructor; eexists; reflexivity).
  split; [exact H|]. split; [exact Hi|].
  destruct (proj1 (emotion_labels_by_keys _ H) Hi) as (zs & labels & Hk & Hl & _).
  now exists zs, labels.
Defined.

End HandlersSpec.

(** ** [app/analysis.py]: unknown labels, [init_vad_mapper], [get_vad_status] *)

Module Vad.
Import Py Analysis.

(** [sorted] on strings: by code point. *)
Definition sorted_strs (l : list string) : list string :=
  stable_sort (fun y x => String.ltb y x) l.

(** [VADMapper.unknown_labels]: [set(res)] is a [gset], whose elements
    [sorted] puts in order. *)
Definition unknown_labels (self : VADMapper) (labels : list string) : list string :=
  let res :=
    fold_left
      (fun res l =>
         let c := canonical self l in
         match mapping self !! c with
         | None => res ++ [l]
         | Some _ => res
         end)
      labels [] in
  sorted_strs (elements (list_to_set res : gset string)).

(** What [get_vad_config_paths] returns: the entries ["map"], ["alias"] and
    ["unknown"]. *)
Record VadPaths : Type := {
  vad_map : option string;
  vad_alias : option string;
  vad_unknown : string;
}.

(** What [init_vad_mapper] and [get_vad_status] need beyond [Env].
    [write_unknown p unknowns] is the outcome of
    [p.write_text(json.dumps({"unknown_labels": unknowns}, ...))]. *)
Record VadEnv : Type := {
  base : Env;
  get_vad_config_paths : string -> VadPaths;
  write_unknown : string -> list string -> result unit;
}.

(** The globals of the module: those of [State], and [_last_emotion_dir]. *)
Record Globals : Type := {
  state : State;
  _last_emotion_dir : option string;
}.

Definition initial_globals : Globals :=
  {| state := initial_state; _last_emotion_dir := None |}.

Definition with_state (g : Globals) (st : State) : Globals :=
  {| state := st; _last_emotion_dir := _last_emotion_dir g |}.

(** What a call leaves: the globals, the file it wrote, the exception it
    let through. *)
Record Outcome : Type := {
  globals : Globals;
  written : option (string * list string);
  raised : option exn;
}.

(** The [alias] argument of [VADMapper]: [(alias or {}).items()] with
    [str(k)], [str(v)]; a truthy value that is no dict has no [items]. *)
Definition alias_items (alias : option json)
    : result (option (list (string * string))) :=
  match alias with
  | None => Returns None
  | Some j =>
      if py_bool j then
        match j with
        | JDict _ items => Returns (Some (map (fun kv => (kv.1, py_str kv.2)) items))
        | _ => Raises AttributeError
        end
      else Returns None
  end.

(** The alias table [init_vad_mapper] reads: [None] without a file, and
    when reading it raised. *)
Definition read_alias (env : Env) (alias_path : option string) : option json :=
  match alias_path with
  | Some p =>
      if path_exists env p then
        match read_json env p with
        | Returns j => Some j
        | Raises _ => None
        end
      else None
  | None => None
  end.

(** The first half of [init_vad_mapper]: the mapper it goes on with. *)
Definition choose_mapper (env : Env) (paths : VadPaths) (st : State)
    : result State :=
  match vad_map paths with
  | None => _ensure_default_mapper env st
  | Some map_path =>
      mapping ← _load_mapping_from_json env map_path;
      alias ← alias_items (read_alias env (vad_alias paths));
      Returns (with_mapper st (VADMapper_init mapping alias))
  end.

(** [_vad_status.update({...})] of [init_vad_mapper] *)
Definition record_unknown (st : State) (emo_dir : string) (paths : VadPaths)
    (unknowns : list string) : State :=
  let s := _vad_status st in
  {| _negative_labels := _negative_labels st;
     _vad_mapper := _vad_mapper st;
     _vad_status :=
       {| emotion_model_dir := Some emo_dir;
          map_path := vad_map paths;
          alias_path := vad_alias paths;
          unknown_labels_path := Some (vad_unknown paths);
          unknown_labels_count := length unknowns;
          Analysis.unknown_labels := unknowns;
          negative_path := negative_path s;
          negative_labels_count := negative_labels_count s;
          negative_labels_source := negative_labels_source s;
          negative_threshold := negative_threshold s |} |}.

Definition init_vad_mapper (env : VadEnv) (emotion_model_dir : string)
    (emotion_labels : option (list string)) (g : Globals) : Outcome :=
  let emo_dir := emotion_model_dir in
  let g := {| state := state g; _last_emotion_dir := Some emo_dir |} in
  let paths := get_vad_config_paths env emo_dir in
  match choose_mapper (base env) paths (state g) with
  | Raises e => {| globals := g; written := None; raised := Some e |}
  | Returns st =>
      let unknowns :=
        match emotion_labels, _vad_mapper st with
        | Some labels, Some mapper => unknown_labels mapper labels
        | _, _ => []
        end in
      match write_unknown env (vad_unknown paths) unknowns with
      | Raises _ =>
          {| globals := with_state g st; written := None; raised := None |}
      | Returns _ =>
          {| globals := with_state g (record_unknown st emo_dir paths unknowns);
             written := Some (vad_unknown paths, unknowns);
             raised := None |}
      end
  end.

(** The [try] block of [get_vad_status]: the unknown labels of the file,
    when it is there and holds a dict whose ["unknown_labels"] is a list. *)
Definition unknown_from_file (env : Env) (s : VadStatus) : option (list string) :=
  match unknown_labels_path s with
  | Some upath =>
      if negb (String.eqb upath "") && path_exists env upath then
        match read_json env upath with
        | Returns (JDict _ items) =>
            match dict_get "unknown_labels" (JList "[]" []) items with
            | JList _ u => Some (map py_str u)
            | _ => None
            end
        | _ => None
        end
      else None
  | None => None
  end.

Definition set_unknown (st : State) (u : list string) : State :=
  let s := _vad_status st in
  {| _negative_labels := _negative_labels st;
     _vad_mapper := _vad_mapper st;
     _vad_status :=
       {| emotion_model_dir := emotion_model_dir s;
          map_path := map_path s;
          alias_path := alias_path s;
          unknown_labels_path := unknown_labels_path s;
          unknown_labels_count := length u;
          Analysis.unknown_labels := u;
          negative_path := negative_path s;
          negative_labels_count := negative_labels_count s;
          negative_labels_source := negative_labels_source s;
          negative_threshold := negative_threshold s |} |}.

(** [get_vad_status]: the globals it leaves and the snapshot it returns. *)
Definition get_vad_status (env : Env) (g : Globals) : Globals * result VadStatus :=
  match ensure_mapper env (state g) with
  | Raises e => (g, Raises e)
  | Returns st =>
      let st :=
        match unknown_from_file env (_vad_status st) with
        | Some u => set_unknown st u
        | None => st
        end in
      (with_state g st, Returns (_vad_status st))
  end.

End Vad.

(** ** The mapper and the status, beyond the claims *)

Module VadSpec.
Import Py PyFacts Analysis AnalysisSpec Vad.

(** *** The order of strings *)

Definition str_lt (a b : string) : Prop := String.ltb a b = true.
Definition str_le (a b : string) : Prop := String.ltb b a = false.

Lemma str_lt_compare (a b : string) : str_lt a b <-> String.compare a b = Lt.
Proof.
  unfold str_lt, String.ltb. destruct (String.compare a b); split; congruence.
Qed.

Lemma str_lt_irrefl (a : string) : ~ str_lt a a.
Proof.
  rewrite str_lt_compare. intros H.
  pose proof (String.compare_antisym a a) as Ha. rewrite H in Ha. discriminate.
Qed.

Lemma str_lt_trans (a b c : string) : str_lt a b -> str_lt b c -> str_lt a c.
Proof.
  rewrite !str_lt_compare. intros H1 H2.
  apply OrderedTypeEx.String_as_OT.cmp_lt.
  apply OrderedTypeEx.String_as_OT.lt_trans with b;
    now apply OrderedTypeEx.String_as_OT.cmp_lt.
Qed.

Lemma str_le_cases (a b : string) : str_le a b <-> str_lt a b \/ a = b.
Proof.
  unfold str_le, str_lt, String.ltb.
  rewrite (String.compare_antisym a b).
  destruct (String.compare b a) eqn:E; cbn [CompOpp].
  - apply String.compare_eq_iff in E. subst b. split; [now right | reflexivity].
  - split; [discriminate|]. intros [H| ->]; [discriminate|].
    pose proof (String.compare_antisym b b) as Ha. rewrite E in Ha. discriminate.
  - split; [now left | reflexivity].
Qed.

Lemma str_le_trans (a b c : string) : str_le a b -> str_le b c -> str_le a c.
Proof.
  rewrite !str_le_cases. intros [H1| ->] [H2| ->]; auto.
  left. now apply str_lt_trans with b.
Qed.

Lemma sorted_strs_perm (l : list string) : Permutation (sorted_strs l) l.
Proof. apply stable_sort_perm. Qed.

Lemma sorted_strs_le (l : list string) : StronglySorted str_le (sorted_strs l).
Proof.
  apply stable_sort_sorted.
  - apply str_le_trans.
  - intros y x H. apply str_le_cases. now left.
  - intros y x H. exact H.
Qed.

Lemma sorted_distinct (l : list string) :
  StronglySorted str_le l -> List.NoDup l -> StronglySorted str_lt l.
Proof.
  induction 1 as [|x l Hs IH Hall]; intros Hnd; [constructor|].
  inversion Hnd as [|? ? Hx Hnd']; subst.
  constructor; [now apply IH|].
  rewrite Forall_forall in Hall |- *. intros y Hy.
  destruct (proj1 (str_le_cases x y) (Hall y Hy)) as [H| ->]; [exact H|].
  exfalso. apply Hx. now apply list_elem_of_In.
Qed.

(** A strictly ascending list is fixed by its elements. *)
Lemma ascending_unique (l1 l2 : list string) :
  StronglySorted str_lt l1 -> StronglySorted str_lt l2 ->
  (forall x, In x l1 <-> In x l2) -> l1 = l2.
Proof.
  intros H1. revert l2.
  induction H1 as [|x l1 Hs1 IH Hall1]; intros l2 H2 Hin.
  - destruct l2 as [|y l2]; [reflexivity|].
    exfalso. apply (Hin y). now left.
  - destruct H2 as [|y l2 Hs2 Hall2].
    + exfalso. apply (Hin x). now left.
    + rewrite Forall_forall in Hall1, Hall2.
      assert (Hxy : x = y).
      { destruct (proj1 (Hin x) (or_introl eq_refl)) as [<-|Hx]; [reflexivity|].
        destruct (proj2 (Hin y) (or_introl eq_refl)) as [<-|Hy]; [reflexivity|].
        exfalso. apply (str_lt_irrefl x).
        apply str_lt_trans with y.
        - apply Hall1. now apply list_elem_of_In.
        - apply Hall2. now apply list_elem_of_In. }
      subst y. f_equal. apply IH; [exact Hs2|].
      intros z. split; intros Hz.
      * destruct (proj1 (Hin z) (or_intror Hz)) as [<-|H]; [|exact H].
        exfalso. apply (str_lt_irrefl x). apply Hall1. now apply list_elem_of_In.
      * destruct (proj2 (Hin z) (or_intror Hz)) as [<-|H]; [|exact H].
        exfalso. apply (str_lt_irrefl x). apply Hall2. now apply list_elem_of_In.
Qed.

(** *** [unknown_labels] *)

Definition unmapped (self : VADMapper) (l : string) : bool :=
  match mapping self !! canonical self l with
  | None => true
  | Some _ => false
  end.

Lemma unknown_res (self : VADMapper) (labels acc : list string) :
  fold_left
    (fun res l =>
       let c := canonical self l in
       match mapping self !! c with
       | None => res ++ [l]
       | Some _ => res
       end)
    labels acc = acc ++ List.filter (unmapped self) labels.
Proof.
  revert acc. induction labels as [|l labels IH]; intros acc.
  - cbn. now rewrite app_nil_r.
  - cbn [fold_left List.filter]. rewrite IH. unfold unmapped. cbv zeta.
    destruct (mapping self !! canonical self l); [reflexivity|].
    now rewrite <- app_assoc.
Qed.

Lemma unknown_labels_In (self : VADMapper) (labels : list string) (l : string) :
  In l (unknown_labels self labels) <->
  In l labels /\ mapping self !! canonical self l = None.
Proof.
  unfold unknown_labels. rewrite unknown_res. cbn [app].
  rewrite <- list_elem_of_In, (sorted_strs_perm _), elem_of_elements,
    elem_of_list_to_set, list_elem_of_In, filter_In.
  unfold unmapped. destruct (mapping self !! canonical self l); intuition congruence.
Qed.

Lemma unknown_labels_ascending (self : VADMapper) (labels : list string) :
  StronglySorted str_lt (unknown_labels self labels).
Proof.
  unfold unknown_labels. apply sorted_distinct; [apply sorted_strs_le|].
  apply NoDup_ListNoDup. rewrite (sorted_strs_perm _). apply NoDup_elements.
Qed.

(** X7.  [unknown_labels] returns, in strictly ascending order (so each
    once), exactly the labels whose canonical form has no entry in the
    table.  The result depends only on which labels are given, not on their
    order or repetition, and it is empty exactly when every label is
    mapped. *)
Theorem unknown_labels_sorted_distinct (self : VADMapper) (labels : list string) :
  StronglySorted str_lt (unknown_labels self labels) /\
  (forall l, In l (unknown_labels self labels) <->
             In l labels /\ mapping self !! canonical self l = None) /\
  (forall labels', (forall l, In l labels <-> In l labels') ->
                   unknown_labels self labels' = unknown_labels self labels) /\
  (unknown_labels self labels = [] <->
   forall l, In l labels -> is_Some (mapping self !! canonical self l)).
Proof.
  split; [apply unknown_labels_ascending|].
  split; [apply unknown_labels_In|]. split.
  - intros labels' Hsame. apply ascending_unique; try apply unknown_labels_ascending.
    intros l. rewrite !unknown_labels_In, Hsame. reflexivity.
  - split.
    + intros Hnil l Hl.
      destruct (mapping self !! canonical self l) eqn:E; [now eexists|].
      exfalso. assert (H : In l (unknown_labels self labels))
        by (apply unknown_labels_In; now split).
      rewrite Hnil in H. exact H.
    + intros Hall. destruct (unknown_labels self labels) as [|l rest] eqn:E;
        [reflexivity|].
      exfalso. assert (H : In l (unknown_labels self labels))
        by (rewrite E; now left).
      apply unknown_labels_In in H as [Hl Hnone].
      destruct (Hall l Hl) as [v Hv]. congruence.
Qed.

(** *** Tables built by [VADMapper.__init__] *)

Lemma lower_ascii_idem (c : ascii) : lower_ascii (lower_ascii c) = lower_ascii c.
Proof.
  destruct c as [[] [] [] [] [] [] [] []]; reflexivity.
Qed.

Lemma lower_idem (s : string) : lower (lower s) = lower s.
Proof.
  induction s as [|c s IH]; [reflexivity|].
  cbn [lower]. now rewrite lower_ascii_idem, IH.
Qed.

(** The items of [table] whose lowered key is [key]. *)
Definition matching {V : Type} (key : string) (table : list (string * V))
    : list (string * V) :=
  List.filter (fun kv => String.eqb (lower kv.1) key) table.

Lemma lowered_table_lookup {V W : Type} (g : V -> W) (table : list (string * V))
    (m0 : gmap string W) (key : string) :
  fold_left (fun m kv => <[lower kv.1 := g kv.2]> m) table m0 !! key =
  match last (matching key table) with
  | Some kv => Some (g kv.2)
  | None => m0 !! key
  end.
Proof.
  revert m0. induction table as [|kv table IH]; intros m0; [reflexivity|].
  cbn [fold_left]. rewrite IH. unfold matching. cbn [List.filter].
  destruct (String.eqb_spec (lower kv.1) key) as [E|E].
  - fold (matching key table).
    destruct (matching key table) as [|kv' rest] eqn:Em.
    + cbn [last]. rewrite E. apply lookup_insert_eq.
    + change (last (kv :: kv' :: rest)) with (last (kv' :: rest)).
      now destruct (last (kv' :: rest)) eqn:El;
        [|apply last_None in El; discriminate].
  - fold (matching key table).
    destruct (last (matching key table)); [reflexivity|].
    now apply lookup_insert_ne.
Qed.

Lemma matching_lower {V : Type} (key : string) (table : list (string * V))
    (kv : string * V) :
  last (matching key table) = Some kv -> lower kv.1 = key /\ In kv table.
Proof.
  intros H. apply last_Some_elem_of in H. apply list_elem_of_In in H.
  unfold matching in H. apply filter_In in H as [Hin Heq].
  split; [now apply String.eqb_eq | exact Hin].
Qed.

(** X8.  In a mapper built by [VADMapper] from a table and aliases, with
    ASCII keys, aliases and label, keys are compared after lower-casing
    and a later item replaces an earlier one with the same lowered key:
    [canonical] is the lowered value of the last alias whose key equals
    the label up to case, the lowered label when there is none;
    [map_label] is the vector of the last table item whose key equals that
    canonical form up to case, the neutral vector when there is none.  The
    canonical form is lower-case, and neither function looks at the case of
    the label. *)
Theorem init_lookup_last_wins (table : list (string * VAD))
    (aliases : option (list (string * string))) (label : string) :
  isascii label = true ->
  Forall (fun kv => isascii kv.1 = true) table ->
  Forall (fun kv => isascii kv.1 = true /\ isascii kv.2 = true) (default [] aliases) ->
  let self := VADMapper_init table aliases in
  canonical self label =
    default (lower label)
      ((fun kv => lower kv.2) <$> last (matching (lower label) (default [] aliases))) /\
  map_label self label =
    default neutral_vad (snd <$> last (matching (canonical self label) table)) /\
  lower (canonical self label) = canonical self label /\
  canonical self (lower label) = canonical self label /\
  map_label self (lower label) = map_label self label.
Proof.
  intros _ _ _. cbv zeta.
  assert (Hc : forall l,
    canonical (VADMapper_init table aliases) l =
    default (lower l)
      ((fun kv => lower kv.2) <$> last (matching (lower l) (default [] aliases)))).
  { intros l. unfold canonical, VADMapper_init. cbn [alias]. cbv zeta.
    rewrite (lowered_table_lookup lower), lookup_empty.
    now destruct (last (matching (lower l) (default [] aliases))). }
  assert (Hl : canonical (VADMapper_init table aliases) (lower label) =
               canonical (VADMapper_init table aliases) label).
  { unfold canonical. cbv zeta. now rewrite lower_idem. }
  split; [apply Hc|]. split; [|split; [|split]].
  - unfold map_label. cbv zeta.
    set (c := canonical (VADMapper_init table aliases) label).
    pose proof (lowered_table_lookup id table ∅ c) as H.
    unfold id in H. unfold VADMapper_init. cbn [mapping].
    rewrite H, lookup_empty.
    now destruct (last (matching _ table)).
  - rewrite Hc. destruct (last (matching (lower label) (default [] aliases)));
      cbn; apply lower_idem.
  - exact Hl.
  - unfold map_label. cbv zeta. now rewrite Hl.
Qed.

Lemma init_lookup_last_wins_witness :
  let self :=
    VADMapper_init [("Joy", (0.9, 0.6, 0.7)%Q); ("JOY", (0.8, 0.5, 0.6)%Q)]
      (Some [("glad", "happy"); ("Glad", "Joy")]) in
  canonical self "GLAD" = "joy" /\
  map_label self "GLAD" = (0.8, 0.5, 0.6)%Q /\
  canonical self "glad" = canonical self "GLAD" /\
  map_label self "glad" = map_label self "GLAD".
Proof.
  cbv zeta.
  destruct (init_lookup_last_wins
              [("Joy", (0.9, 0.6, 0.7)%Q); ("JOY", (0.8, 0.5, 0.6)%Q)]
              (Some [("glad", "happy"); ("Glad", "Joy")]) "GLAD")
    as (Hc & Hm & _ & Hl & Hml).
  - reflexivity.
  - repeat constructor.
  - repeat constructor.
  - split; [rewrite Hc; reflexivity|].
    split; [rewrite Hm, Hc; reflexivity|].
    split; [exact Hl | exact Hml].
Defined.

(** Two keys that differ by case only collide, and the later one stays. *)
Example later_key_wins :
  map_label (VADMapper_init [("Joy", (0.9, 0.6, 0.7)%Q); ("joy", (0.8, 0.5, 0.6)%Q)] None)
    "JOY" = (0.8, 0.5, 0.6)%Q.
Proof. vm_compute. reflexivity. Qed.

(** Aliases are followed once, not to the end of a chain. *)
Example alias_single_step :
  let self := VADMapper_init [] (Some [("glad", "happy"); ("happy", "joy")]) in
  canonical self "Glad" = "happy" /\ canonical self (canonical self "Glad") = "joy".
Proof. vm_compute. split; reflexivity. Qed.

(** *** [map_distribution] as an average *)

(** All three coordinates lie between [lo] and [hi]. *)
Definition within_box (lo hi : Q) (x : VAD) : Prop :=
  (lo <= valence x <= hi)%Q /\ (lo <= arousal x <= hi)%Q /\
  (lo <= dominance x <= hi)%Q.

Definition nonneg_scores (distribution : list (string * Q)) : Prop :=
  Forall (fun p => (0 <= p.2)%Q) distribution.

Lemma total_score_nonneg (distribution : list (string * Q)) :
  nonneg_scores distribution -> (0 <= total_score distribution)%Q.
Proof.
  induction 1 as [|p rest Hp _ IH]; [discriminate|].
  unfold total_score in *. cbn [map]. rewrite Qsum_cons.
  change 0%Q with (0 + 0)%Q. now apply Qplus_le_compat.
Qed.

Lemma weighted_bounds (self : VADMapper) (axis : VAD -> Q) (lo hi : Q)
    (distribution : list (string * Q)) :
  nonneg_scores distribution ->
  Forall (fun p => (lo <= axis (map_label self p.1) <= hi)%Q) distribution ->
  (lo * total_score distribution <= weighted self axis distribution)%Q /\
  (weighted self axis distribution <= hi * total_score distribution)%Q.
Proof.
  induction 1 as [|p rest Hp _ IH]; intros Hall.
  - unfold weighted, total_score. cbn. split; rewrite Qmult_0_r; apply Qle_refl.
  - inversion Hall as [|? ? [Hlo Hhi] Hrest]; subst.
    destruct (IH Hrest) as [IHlo IHhi].
    unfold weighted, total_score in *. cbn [map]. rewrite !Qsum_cons.
    cbn [fst snd] in Hlo, Hhi.
    set (x := axis (map_label self p.1)) in *.
    set (w := Qsum (map (fun p => (p.2 * axis (map_label self p.1))%Q) rest)) in *.
    set (t := Qsum (map snd rest)) in *.
    split; nra.
Qed.

Lemma quotient_bounds (lo hi w t : Q) :
  (0 < t)%Q -> (lo * t <= w)%Q -> (w <= hi * t)%Q -> (lo <= w / t <= hi)%Q.
Proof.
  intros Ht Hlo Hhi. split.
  - apply Qle_shift_div_l; assumption.
  - apply Qle_shift_div_r; assumption.
Qed.

Lemma map_distribution_average (self : VADMapper)
    (distribution : list (string * Q)) :
  (0 < total_score distribution)%Q ->
  exists r,
    map_distribution self distribution = Returns r /\
    (valence r == weighted self valence distribution / total_score distribution)%Q /\
    (arousal r == weighted self arousal distribution / total_score distribution)%Q /\
    (dominance r == weighted self dominance distribution / total_score distribution)%Q.
Proof.
  intros Hpos.
  destruct (accumulate_fold self distribution 0.0 0.0 0.0 0.0)
    as (v & a & d & t & Hf & Hv & Ha & Hd & Ht).
  rewrite zero_point_zero, Qplus_0_l in Hv, Ha, Hd, Ht.
  unfold map_distribution. destruct distribution as [|p rest].
  { exfalso. revert Hpos. unfold total_score. cbn. apply Qlt_irrefl. }
  rewrite Hf.
  assert (Hb : leb t 0 = false) by (apply leb_gt; now rewrite Ht).
  assert (Hnz : ~ (t == 0)%Q) by (rewrite Ht; now apply positive_nonzero).
  rewrite Hb, !truediv_ok by exact Hnz. cbn [mbind result_bind].
  eexists. split; [reflexivity|].
  unfold valence, arousal, dominance in *. cbn [fst snd].
  rewrite Hv, Ha, Hd, Ht. repeat split; reflexivity.
Qed.

Lemma map_distribution_fallback (self : VADMapper)
    (distribution : list (string * Q)) :
  (total_score distribution <= 0)%Q ->
  map_distribution self distribution = Returns neutral_vad.
Proof.
  intros Hle.
  destruct (accumulate_fold self distribution 0.0 0.0 0.0 0.0)
    as (v & a & d & t & Hf & Hv & Ha & Hd & Ht).
  rewrite zero_point_zero, Qplus_0_l in Ht.
  unfold map_distribution. destruct distribution as [|p rest]; [reflexivity|].
  rewrite Hf.
  assert (Hb : leb t 0 = true) by (apply leb_le; now rewrite Ht).
  now rewrite Hb.
Qed.

Lemma map_label_in_box (self : VADMapper) (lo hi : Q) (label : string) :
  within_box lo hi neutral_vad ->
  (forall k x, mapping self !! k = Some x -> within_box lo hi x) ->
  within_box lo hi (map_label self label).
Proof.
  intros Hn Htable. unfold map_label. cbv zeta.
  destruct (mapping self !! canonical self label) as [x|] eqn:E; cbn.
  - now apply (Htable _ _ E).
  - exact Hn.
Qed.

Lemma map_distribution_box (self : VADMapper) (lo hi : Q)
    (distribution : list (string * Q)) :
  nonneg_scores distribution ->
  within_box lo hi neutral_vad ->
  (forall k x, mapping self !! k = Some x -> within_box lo hi x) ->
  exists r, map_distribution self distribution = Returns r /\ within_box lo hi r.
Proof.
  intros Hs Hn Htable.
  destruct (Qlt_le_dec 0 (total_score distribution)) as [Hpos|Hle].
  - destruct (map_distribution_average self distribution Hpos)
      as (r & Hr & Hv & Ha & Hd).
    exists r. split; [exact Hr|].
    assert (Hax : forall axis,
      (axis = valence \/ axis = arousal \/ axis = dominance) ->
      (lo <= weighted self axis distribution / total_score distribution <= hi)%Q).
    { intros axis Haxis.
      destruct (weighted_bounds self axis lo hi distribution Hs) as [H1 H2].
      - rewrite Forall_forall. intros p _.
        pose proof (map_label_in_box self lo hi p.1 Hn Htable) as (B1 & B2 & B3).
        destruct Haxis as [->|[->| ->]]; assumption.
      - now apply quotient_bounds. }
    unfold within_box. rewrite Hv, Ha, Hd.
    repeat split; apply Hax; auto.
  - exists neutral_vad. split; [|exact Hn].
    now apply map_distribution_fallback.
Qed.

(** *** The default mapper *)

Definition default_path (env : Env) : string :=
  path_join (path_join (path_join (PROJECT_ROOT env) "app") "vad_maps")
    "default.json".

Definition neutral_only : VADMapper :=
  VADMapper_init [("neutral", (0.5, 0.3, 0.5)%Q)] None.

Lemma neutral_only_label (label : string) :
  map_label neutral_only label =
  if String.eqb (lower label) "neutral" then (0.5, 0.3, 0.5)%Q else neutral_vad.
Proof.
  unfold map_label, canonical, neutral_only, VADMapper_init.
  cbn [mapping alias fold_left default from_option id fst snd]. cbv zeta.
  rewrite lookup_empty. cbn [from_option id].
  change (lower "neutral") with "neutral".
  destruct (String.eqb_spec (lower label) "neutral") as [->|Hne].
  - now rewrite lookup_insert_eq.
  - rewrite lookup_insert_ne by congruence. now rewrite lookup_empty.
Qed.

Lemma ensure_default_frame (env : Env) (st st' : State) :
  _ensure_default_mapper env st = Returns st' ->
  _negative_labels st' = _negative_labels st /\
  _vad_status st' = _vad_status st /\
  (exists m, _vad_mapper st' = Some m) /\
  (_vad_mapper st <> None -> st' = st).
Proof.
  unfold _ensure_default_mapper.
  destruct (_vad_mapper st) as [m0|] eqn:Em.
  - intros [= <-]. repeat split. now exists m0.
  - destruct (path_exists env _).
    + destruct (_load_mapping_from_json env _) as [table|e]; [|discriminate].
      cbn [mbind result_bind]. intros [= <-].
      split; [reflexivity|]. split; [reflexivity|].
      split; [now eexists | congruence].
    + intros [= <-].
      split; [reflexivity|]. split; [reflexivity|].
      split; [now eexists | congruence].
Qed.

Lemma ensure_mapper_frame (env : Env) (st st' : State) :
  ensure_mapper env st = Returns st' ->
  _negative_labels st' = _negative_labels st /\
  _vad_status st' = _vad_status st /\
  (exists m, _vad_mapper st' = Some m) /\
  (_vad_mapper st <> None -> st' = st).
Proof.
  unfold ensure_mapper. destruct (_vad_mapper st) as [m0|] eqn:Em.
  - intros [= <-]. repeat split. now exists m0.
  - intros H. destruct (ensure_default_frame env st st' H) as (H1 & H2 & H3 & _).
    repeat split; auto. congruence.
Qed.

(** X11.  [_ensure_default_mapper] installs a mapper at most once.  When it
    returns, a mapper is in place, the one that was there if there was one;
    the negative labels and the status are untouched; and calling it again,
    in whatever environment, changes nothing.  Without the default file the
    mapper knows "neutral" alone, as (0.5, 0.3, 0.5), and gives every other
    label the neutral vector (0.5, 0.5, 0.5).  It raises only when the
    default file is there and loading it raises. *)
Theorem ensure_default_mapper_once (env : Env) (st : State) :
  (forall st',
     _ensure_default_mapper env st = Returns st' ->
     _negative_labels st' = _negative_labels st /\
     _vad_status st' = _vad_status st /\
     (exists m, _vad_mapper st' = Some m) /\
     (_vad_mapper st <> None -> st' = st) /\
     (_vad_mapper st = None -> path_exists env (default_path env) = false ->
      _vad_mapper st' = Some neutral_only /\
      forall label,
        map_label neutral_only label =
        if String.eqb (lower label) "neutral" then (0.5, 0.3, 0.5)%Q
        else neutral_vad) /\
     forall env', _ensure_default_mapper env' st' = Returns st') /\
  (forall e,
     _ensure_default_mapper env st = Raises e ->
     _vad_mapper st = None /\ path_exists env (default_path env) = true /\
     _load_mapping_from_json env (default_path env) = Raises e).
Proof.
  unfold _ensure_default_mapper. fold (default_path env).
  destruct (_vad_mapper st) as [m0|] eqn:Em.
  - split; [|discriminate]. intros st' [= <-].
    split; [reflexivity|]. split; [reflexivity|].
    split; [now exists m0|]. split; [reflexivity|].
    split; [congruence|]. intros env'. now rewrite Em.
  - destruct (path_exists env (default_path env)) eqn:Ex.
    + destruct (_load_mapping_from_json env (default_path env)) as [table|e0] eqn:El;
        cbn [mbind result_bind].
      * split; [|discriminate]. intros st' [= <-].
        split; [reflexivity|]. split; [reflexivity|].
        split; [now eexists|]. split; [congruence|].
        split; [discriminate|]. reflexivity.
      * split; [discriminate|]. intros e [= <-]. auto.
    + split; [|discriminate]. intros st' [= <-].
      split; [reflexivity|]. split; [reflexivity|].
      split; [now eexists|]. split; [congruence|].
      split; [|reflexivity].
      intros _ _. split; [reflexivity | apply neutral_only_label].
Qed.

(** *** [derive_stress]: monotone, and lazy once *)

(** The levels in order. *)
Definition level_rank (level : string) : nat :=
  if String.eqb level "low" then 0
  else if String.eqb level "medium" then 1
  else 2.

Definition stress_of (valence arousal neg_sum : Q) : Q :=
  max 0.0 (min 1.0 (0.6 * (1.0 - valence) + 0.4 * arousal + 0.15 * neg_sum)).

Definition level_of (stress : Q) : string :=
  if ltb stress 0.33 then "low"
  else if ltb stress 0.66 then "medium"
  else "high".

Lemma derive_stress_unfold (env : Env) (V A : Q)
    (distribution : list (string * Q)) (st st' : State) :
  ensure_negative_labels env st = Returns st' ->
  exists neg_sum,
    forall V A,
      derive_stress env V A distribution st =
      Returns (st', (stress_of V A neg_sum, level_of (stress_of V A neg_sum))).
Proof.
  intros H. unfold derive_stress. rewrite H. cbn [mbind result_bind].
  eexists. intros V' A'. reflexivity.
Qed.

Lemma stress_of_monotone (V1 V2 A1 A2 n : Q) :
  (V2 <= V1)%Q -> (A1 <= A2)%Q -> (stress_of V1 A1 n <= stress_of V2 A2 n)%Q.
Proof.
  intros HV HA. unfold stress_of. rewrite !max_min_clamp.
  apply Q.max_le_compat_l. apply Q.min_le_compat_l.
  assert (H10 : (1.0 == 1)%Q) by reflexivity.
  rewrite H10. lra.
Qed.

Lemma level_of_monotone (s1 s2 : Q) :
  (s1 <= s2)%Q -> (level_rank (level_of s1) <= level_rank (level_of s2))%nat.
Proof.
  intros Hs. unfold level_of.
  destruct (ltb s1 0.33) eqn:E1; [cbn; lia|].
  apply ltb_ge in E1.
  assert (F1 : ltb s2 0.33 = false).
  { apply ltb_ge. now apply Qle_trans with s1. }
  rewrite F1.
  destruct (ltb s1 0.66) eqn:E2.
  - destruct (ltb s2 0.66); cbn; lia.
  - apply ltb_ge in E2.
    assert (F2 : ltb s2 0.66 = false).
    { apply ltb_ge. now apply Qle_trans with s1. }
    rewrite F2. cbn. lia.
Qed.

(** X12.  [derive_stress] is monotone: on the same distribution and state,
    lowering the valence or raising the arousal never lowers the score, nor
    the level (low, medium, high in that order). *)
Theorem derive_stress_monotone (env : Env) (V1 V2 A1 A2 : Q)
    (distribution : list (string * Q)) (st st' : State) :
  ensure_negative_labels env st = Returns st' ->
  (V2 <= V1)%Q -> (A1 <= A2)%Q ->
  exists s1 l1 s2 l2,
    derive_stress env V1 A1 distribution st = Returns (st', (s1, l1)) /\
    derive_stress env V2 A2 distribution st = Returns (st', (s2, l2)) /\
    (s1 <= s2)%Q /\ (level_rank l1 <= level_rank l2)%nat.
Proof.
  intros Hens HV HA.
  destruct (derive_stress_unfold env V1 A1 distribution st st' Hens) as [n Hn].
  exists (stress_of V1 A1 n), (level_of (stress_of V1 A1 n)),
         (stress_of V2 A2 n), (level_of (stress_of V2 A2 n)).
  split; [apply Hn|]. split; [apply Hn|].
  pose proof (stress_of_monotone V1 V2 A1 A2 n HV HA) as Hs.
  split; [exact Hs | now apply level_of_monotone].
Qed.

Lemma derive_stress_monotone_witness :
  exists s1 l1 s2 l2,
    derive_stress bare_env 0.8 0.2 [("sadness", 1%Q)] joy_sadness_state =
      Returns (joy_sadness_derived, (s1, l1)) /\
    derive_stress bare_env 0.1 0.9 [("sadness", 1%Q)] joy_sadness_state =
      Returns (joy_sadness_derived, (s2, l2)) /\
    (s1 <= s2)%Q /\ (level_rank l1 <= level_rank l2)%nat.
Proof.
  apply (derive_stress_monotone bare_env 0.8 0.1 0.2 0.9 [("sadness", 1%Q)]
           joy_sadness_state joy_sadness_derived).
  - vm_compute. reflexivity.
  - discriminate.
  - discriminate.
Defined.

Example ensure_default_mapper_bare :
  _ensure_default_mapper bare_env initial_state =
  Returns (with_mapper initial_state neutral_only).
Proof. reflexivity. Qed.

(** X13.  [derive_stress] initialises the negative labels at most once.
    When a call returns, the labels are set; they, the mapper and the
    status are the ones before the call if the labels were set already;
    and every later call, whatever its arguments and whatever the
    configuration and the files have become, returns and leaves the state
    as it is. *)
Theorem negative_labels_initialised_once (env : Env) (V A : Q)
    (distribution : list (string * Q)) (st st' : State) (out : Q * string) :
  derive_stress env V A distribution st = Returns (st', out) ->
  _negative_labels st' <> None /\
  (_negative_labels st <> None -> st' = st) /\
  forall env' V' A' distribution',
    exists out', derive_stress env' V' A' distribution' st' = Returns (st', out').
Proof.
  unfold derive_stress at 1.
  destruct (ensure_negative_labels env st) as [st1|e] eqn:Hens; [|discriminate].
  cbn [mbind result_bind]. intros [= <- _].
  destruct (ensure_negative_labels_set env st st1 Hens) as [negative Hneg].
  split; [congruence|]. split.
  - intros Hset. unfold ensure_negative_labels in Hens.
    destruct (_negative_labels st); [congruence | contradiction].
  - intros env' V' A' distribution'.
    assert (Hens' : ensure_negative_labels env' st1 = Returns st1).
    { unfold ensure_negative_labels. now rewrite Hneg. }
    destruct (derive_stress_unfold env' V' A' distribution' st1 st1 Hens') as [n Hn].
    eexists. apply Hn.
Qed.

Lemma negative_labels_initialised_once_witness :
  _negative_labels joy_sadness_derived <> None /\
  forall env' V' A' distribution',
    exists out',
      derive_stress env' V' A' distribution' joy_sadness_derived =
      Returns (joy_sadness_derived, out').
Proof.
  destruct (derive_stress_unfold bare_env 0.2 0.5 [("Sadness", 1%Q)]
              joy_sadness_state joy_sadness_derived) as [n Hn];
    [vm_compute; reflexivity|].
  destruct (negative_labels_initialised_once _ _ _ _ _ _ _ (Hn 0.2 0.5)%Q)
    as (H1 & _ & H3).
  split; [exact H1 | exact H3].
Defined.

(** *** Deriving the negative labels *)

(** X14.  The set derived from a valence threshold grows with it: a label
    that is negative under a threshold stays negative under a higher one.
    Each member is the canonical form of a candidate, and the canonical
    form of a candidate that the table does not know is a member exactly
    when the threshold is above the neutral valence 0.5. *)
Theorem derive_negative_monotone (m : VADMapper) (t1 t2 : Q)
    (candidates : list string) :
  (t1 <= t2)%Q ->
  derive_negative m t1 candidates ⊆ derive_negative m t2 candidates /\
  (forall k, k ∈ derive_negative m t1 candidates ->
             exists lbl, In lbl candidates /\ k = canonical m lbl) /\
  (forall lbl, In lbl candidates -> mapping m !! canonical m lbl = None ->
               (canonical m lbl ∈ derive_negative m t1 candidates <-> (0.5 < t1)%Q)).
Proof.
  intros Ht. unfold derive_negative. split; [|split].
  - intros k Hk. apply derive_negative_fold in Hk as [Hk|(lbl & Hin & Hlt & ->)].
    + now apply elem_of_empty in Hk.
    + apply derive_negative_fold. right. exists lbl.
      split; [exact Hin|]. split; [|reflexivity].
      now apply Qlt_le_trans with t1.
  - intros k Hk. apply derive_negative_fold in Hk as [Hk|(lbl & Hin & Hlt & ->)].
    + now apply elem_of_empty in Hk.
    + now exists lbl.
  - intros lbl Hin Hnone.
    assert (Hv : forall l, canonical m l = canonical m lbl ->
                           valence (map_label m l) = 0.5%Q).
    { intros l Hl. unfold map_label. cbv zeta. now rewrite Hl, Hnone. }
    split.
    + intros Hk.
      apply derive_negative_fold in Hk as [Hk|(lbl' & Hin' & Hlt & Heq)].
      * now apply elem_of_empty in Hk.
      * now rewrite (Hv lbl') in Hlt by now symmetry.
    + intros H05. apply derive_negative_fold. right. exists lbl.
      split; [exact Hin|]. split; [|reflexivity]. now rewrite (Hv lbl eq_refl).
Qed.

Lemma derive_negative_monotone_witness :
  derive_negative joy_sadness 0.4 ["joy"; "sadness"; "fear"] ⊆
  derive_negative joy_sadness 0.6 ["joy"; "sadness"; "fear"].
Proof.
  apply (derive_negative_monotone joy_sadness 0.4 0.6 ["joy"; "sadness"; "fear"]).
  discriminate.
Defined.

(** With the threshold 0.6 the unknown label "fear" counts as negative. *)
Example unknown_label_negative :
  derive_negative joy_sadness 0.4 ["joy"; "sadness"; "fear"] = {["sadness"]} /\
  derive_negative joy_sadness 0.6 ["joy"; "sadness"; "fear"] = {["sadness"; "fear"]}.
Proof. split; apply (bool_decide_unpack _); vm_compute; reflexivity. Qed.

(** *** [init_vad_mapper] *)

(** The part of the status that [init_negative_labels] owns. *)
Definition negative_side (st : State) : option (gset string) * (option string * nat * option string * option Q) :=
  (_negative_labels st,
   (negative_path (_vad_status st), negative_labels_count (_vad_status st),
    negative_labels_source (_vad_status st), negative_threshold (_vad_status st))).

Lemma choose_mapper_frame (env : Env) (paths : VadPaths) (st st' : State) :
  choose_mapper env paths st = Returns st' ->
  _negative_labels st' = _negative_labels st /\
  _vad_status st' = _vad_status st /\
  (exists m, _vad_mapper st' = Some m) /\
  (vad_map paths = None -> _vad_mapper st <> None -> st' = st).
Proof.
  unfold choose_mapper. destruct (vad_map paths) as [map_path|].
  - destruct (_load_mapping_from_json env map_path) as [table|e]; [|discriminate].
    cbn [mbind result_bind].
    destruct (alias_items _) as [al|e]; [|discriminate].
    cbn [mbind result_bind]. intros [= <-].
    split; [reflexivity|]. split; [reflexivity|].
    split; [now eexists | discriminate].
  - intros H. destruct (ensure_default_frame env st st' H) as (H1 & H2 & H3 & H4).
    auto.
Qed.

(** X15.  What [init_vad_mapper] does to the globals.  It always notes the
    model directory and never touches the negative labels or the part of
    the status that describes them.  When it raises, nothing else changed
    and no file was written.  Otherwise a mapper is in place; without a
    map file for the model it is the mapper that was there before, if
    there was one.  When the file of unknown labels was written, it holds
    the unknown labels of the given labels under that mapper (none when no
    labels are given) and the status records them, their number and the
    three paths; when writing failed, no exception comes out and the status
    is the one before the call. *)
Theorem init_vad_mapper_outcome (env : VadEnv) (emotion_model_dir : string)
    (emotion_labels : option (list string)) (g : Globals) :
  let paths := get_vad_config_paths env emotion_model_dir in
  let o := init_vad_mapper env emotion_model_dir emotion_labels g in
  let st' := state (globals o) in
  _last_emotion_dir (globals o) = Some emotion_model_dir /\
  negative_side st' = negative_side (state g) /\
  (forall e, raised o = Some e -> st' = state g /\ written o = None) /\
  (raised o = None ->
   exists m,
     _vad_mapper st' = Some m /\
     (vad_map paths = None -> forall m0, _vad_mapper (state g) = Some m0 -> m = m0) /\
     match written o with
     | Some (p, unknowns) =>
         p = vad_unknown paths /\
         unknowns = match emotion_labels with
                    | Some labels => unknown_labels m labels
                    | None => []
                    end /\
         Analysis.unknown_labels (_vad_status st') = unknowns /\
         unknown_labels_count (_vad_status st') = length unknowns /\
         unknown_labels_path (_vad_status st') = Some p /\
         Analysis.emotion_model_dir (_vad_status st') = Some emotion_model_dir /\
         map_path (_vad_status st') = vad_map paths /\
         alias_path (_vad_status st') = vad_alias paths
     | None => _vad_status st' = _vad_status (state g)
     end).
Proof.
  cbv zeta. unfold init_vad_mapper. cbv zeta. cbn [state].
  destruct (choose_mapper (base env) _ (state g)) as [st1|e] eqn:Hc.
  - destruct (choose_mapper_frame _ _ _ _ Hc) as (Hn & Hs & [m Hm] & Hkeep).
    rewrite Hm.
    destruct (write_unknown env _ _) as [[]|e] eqn:Hw;
      cbn [globals written raised with_state state _last_emotion_dir].
    + split; [reflexivity|]. split.
      { unfold negative_side, record_unknown. cbn. now rewrite Hn, Hs. }
      split; [discriminate|]. intros _. exists m.
      split; [exact Hm|]. split.
      { intros Hnone m0 Hm0.
        assert (E : st1 = state g) by (apply Hkeep; [exact Hnone | congruence]).
        rewrite E in Hm. congruence. }
      cbn. repeat split.
    + split; [reflexivity|]. split.
      { unfold negative_side. now rewrite Hn, Hs. }
      split; [discriminate|]. intros _. exists m.
      split; [exact Hm|]. split; [|exact Hs].
      intros Hnone m0 Hm0.
      assert (E : st1 = state g) by (apply Hkeep; [exact Hnone | congruence]).
      rewrite E in Hm. congruence.
  - cbn [globals written raised state _last_emotion_dir].
    split; [reflexivity|]. split; [reflexivity|].
    split; [|discriminate]. intros e' _. now split.
Qed.

(** A model directory with a map of its own and no alias file; writing
    succeeds. *)
Definition model_env : VadEnv :=
  {| base :=
       {| PROJECT_ROOT := "/srv";
          get_negative_config_paths := fun _ => None;
          get_negative_valence_threshold := 0.4;
          path_exists := fun _ => false;
          read_json := fun _ => Raises RuntimeError;
          _load_mapping_from_json := fun _ =>
            Returns [("joy", (0.9, 0.6, 0.7)%Q); ("sadness", (0.1, 0.4, 0.3)%Q)] |};
     get_vad_config_paths := fun dir =>
       {| vad_map := Some (path_join dir "vad_map.json");
          vad_alias := None;
          vad_unknown := path_join dir "unknown_labels.json" |};
     write_unknown := fun _ _ => Returns tt |}.

Example init_vad_mapper_writes_unknown :
  let o := init_vad_mapper model_env "/models/emo" (Some ["Joy"; "fear"; "awe"; "fear"])
             initial_globals in
  written o = Some ("/models/emo/unknown_labels.json", ["awe"; "fear"]) /\
  raised o = None /\
  unknown_labels_count (_vad_status (state (globals o))) = 2%nat.
Proof. vm_compute. repeat split. Qed.

(** *** [get_vad_status] *)

(** The file at [p] holds what [init_vad_mapper] writes for [unknowns]. *)
Definition holds_unknown (env : Env) (p : string) (unknowns : list string) : Prop :=
  p <> "" /\ path_exists env p = true /\
  exists text items text',
    read_json env p = Returns (JDict text items) /\
    dict_lookup "unknown_labels" items = Some (JList text' (map JStr unknowns)).

Lemma unknown_from_file_read (env : Env) (s : VadStatus) (p : string)
    (unknowns : list string) :
  unknown_labels_path s = Some p -> holds_unknown env p unknowns ->
  unknown_from_file env s = Some unknowns.
Proof.
  intros Hp (Hne & Hex & text & items & text' & Hread & Hlook).
  unfold unknown_from_file. rewrite Hp, Hex, Hread.
  assert (E : String.eqb p "" = false) by now apply String.eqb_neq.
  rewrite E. cbn [negb andb]. unfold dict_get. rewrite Hlook. cbn [default from_option id].
  f_equal. clear. induction unknowns as [|u us IH]; [reflexivity|].
  cbn [map py_str]. now rewrite IH.
Qed.

(** X16.  [get_vad_status] returns the status it leaves in the globals.  It
    raises only when the default mapper cannot be loaded, and then changes
    nothing.  Otherwise a mapper is in place, and of the status only the
    unknown labels and their number can have changed, the number being the
    length of the list; with no file of unknown labels on record the status
    is the one before.  When the file on record holds what
    [init_vad_mapper] wrote for a list of labels, that list is what the
    status shows. *)
Theorem get_vad_status_snapshot (env : Env) (g : Globals) :
  let r := get_vad_status env g in
  (forall e, r.2 = Raises e ->
     r.1 = g /\ _ensure_default_mapper env (state g) = Raises e) /\
  (forall s, r.2 = Returns s ->
     let st' := state r.1 in
     let s0 := _vad_status (state g) in
     _vad_status st' = s /\
     _last_emotion_dir r.1 = _last_emotion_dir g /\
     _vad_mapper st' <> None /\
     negative_side st' = negative_side (state g) /\
     (Analysis.emotion_model_dir s, map_path s, alias_path s, unknown_labels_path s) =
     (Analysis.emotion_model_dir s0, map_path s0, alias_path s0, unknown_labels_path s0) /\
     (unknown_labels_count s0 = length (Analysis.unknown_labels s0) ->
      unknown_labels_count s = length (Analysis.unknown_labels s)) /\
     (unknown_labels_path s0 = None -> s = s0) /\
     (forall p unknowns,
        unknown_labels_path s0 = Some p -> holds_unknown env p unknowns ->
        Analysis.unknown_labels s = unknowns)).
Proof.
  cbv zeta. unfold get_vad_status.
  destruct (ensure_mapper env (state g)) as [st1|e] eqn:He; cbn [fst snd].
  - split; [discriminate|]. intros s [= <-].
    destruct (ensure_mapper_frame env (state g) st1 He) as (Hn & Hs & [m Hm] & _).
    destruct (unknown_from_file env (_vad_status st1)) as [u|] eqn:Hu;
      cbn [with_state state _last_emotion_dir].
    + split; [reflexivity|]. split; [reflexivity|].
      split; [cbn; congruence|].
      split; [unfold negative_side; cbn; now rewrite Hn, Hs|].
      split; [cbn; now rewrite Hs|].
      split; [reflexivity|]. split.
      * intros Hnone. unfold unknown_from_file in Hu.
        rewrite Hs, Hnone in Hu. discriminate.
      * intros p unknowns Hp Hholds. rewrite <- Hs in Hp.
        rewrite (unknown_from_file_read env _ p unknowns Hp Hholds) in Hu.
        injection Hu as <-. reflexivity.
    + split; [reflexivity|]. split; [reflexivity|].
      split; [congruence|].
      split; [unfold negative_side; now rewrite Hn, Hs|].
      split; [now rewrite Hs|].
      split; [now rewrite Hs|]. split; [now rewrite Hs|].
      intros p unknowns Hp Hholds. rewrite <- Hs in Hp.
      rewrite (unknown_from_file_read env _ p unknowns Hp Hholds) in Hu.
      discriminate.
  - split; [|discriminate]. intros e' [= <-]. split; [reflexivity|].
    unfold ensure_mapper in He. now destruct (_vad_mapper (state g)).
Qed.

(** The file written by [init_vad_mapper] read back by [get_vad_status]. *)
Definition written_env : Env :=
  {| PROJECT_ROOT := "/srv";
     get_negative_config_paths := fun _ => None;
     get_negative_valence_threshold := 0.4;
     path_exists := fun p => String.eqb p "/models/emo/unknown_labels.json";
     read_json := fun _ =>
       Returns (JDict "{...}" [("unknown_labels", JList "[...]" [JStr "awe"; JStr "fear"])]);
     _load_mapping_from_json := fun _ => Raises RuntimeError |}.

Example status_shows_written_labels :
  let g := globals (init_vad_mapper model_env "/models/emo"
                      (Some ["Joy"; "fear"; "awe"; "fear"]) initial_globals) in
  exists s,
    (get_vad_status written_env g).2 = Returns s /\
    (get_vad_status written_env g).1 = g /\
    Analysis.unknown_labels s = ["awe"; "fear"] /\
    unknown_labels_count s = 2%nat /\
    map_path s = Some "/models/emo/vad_map.json".
Proof. eexists. split; [vm_compute; reflexivity|]. repeat split. Qed.

(** *** The status across calls *)

Lemma map_distribution_returns (self : VADMapper)
    (distribution : list (string * Q)) :
  exists r, map_distribution self distribution = Returns r.
Proof.
  destruct (Qlt_le_dec 0 (total_score distribution)) as [Hpos|Hle].
  - destruct (map_distribution_average self distribution Hpos) as (r & Hr & _).
    now exists r.
  - exists neutral_vad. now apply map_distribution_fallback.
Qed.

(** A call into the module from outside, with the environment it meets. *)
Inductive call : Type :=
| InitVadMapper (env : VadEnv) (dir : string) (labels : option (list string))
| InitNegativeLabels (env : Env) (dir : string) (labels : option (list string))
| GetVadStatus (env : Env)
| EmotionsToVad (env : Env) (distribution : list (string * Q))
| DeriveStress (env : Env) (V A : Q) (distribution : list (string * Q)).

(** The globals after a call that returns a state or raises before it
    assigns anything. *)
Definition kept {A : Type} (g : Globals) (r : result A) (st : A -> State) : Globals :=
  match r with
  | Returns a => with_state g (st a)
  | Raises _ => g
  end.

(** The globals a call leaves, whether it returns or raises. *)
Definition run (g : Globals) (c : call) : Globals :=
  match c with
  | InitVadMapper env dir labels => globals (init_vad_mapper env dir labels g)
  | InitNegativeLabels env dir labels =>
      kept g (init_negative_labels env dir labels (state g)) id
  | GetVadStatus env => (get_vad_status env g).1
  | EmotionsToVad env distribution =>
      kept g (emotions_to_vad env distribution (state g)) fst
  | DeriveStress env V A distribution =>
      kept g (derive_stress env V A distribution (state g)) fst
  end.

(** [emotions_to_vad] raises only where [_ensure_default_mapper] does, before
    any assignment: [kept] loses nothing. *)
Lemma emotions_to_vad_returns (env : Env) (distribution : list (string * Q))
    (st st1 : State) :
  ensure_mapper env st = Returns st1 ->
  exists r, emotions_to_vad env distribution st = Returns (st1, r).
Proof.
  intros He. unfold emotions_to_vad. rewrite He. cbn [mbind result_bind].
  destruct (ensure_mapper_frame env st st1 He) as (_ & _ & [m Hm] & _).
  rewrite Hm. destruct (map_distribution_returns m distribution) as [r Hr].
  rewrite Hr. now exists r.
Qed.

(** The status agrees with the globals it describes. *)
Definition consistent (g : Globals) : Prop :=
  let s := _vad_status (state g) in
  unknown_labels_count s = length (Analysis.unknown_labels s) /\
  negative_labels_count s = from_option size 0%nat (_negative_labels (state g)) /\
  (negative_labels_source s = None <-> _negative_labels (state g) = None) /\
  (negative_labels_source s = None \/
   negative_labels_source s = Some "file" /\ negative_path s <> None \/
   negative_labels_source s = Some "derived" /\ negative_path s = None /\
   negative_threshold s <> None) /\
  (Analysis.emotion_model_dir s <> None ->
   _last_emotion_dir g <> None /\ unknown_labels_path s <> None).

Lemma consistent_frame (g g' : Globals) :
  _negative_labels (state g') = _negative_labels (state g) ->
  _vad_status (state g') = _vad_status (state g) ->
  (_last_emotion_dir g <> None -> _last_emotion_dir g' <> None) ->
  consistent g -> consistent g'.
Proof.
  intros Hn Hs Hd. unfold consistent. cbv zeta. rewrite Hn, Hs.
  intros (H1 & H2 & H3 & H4 & H5).
  split; [exact H1|]. split; [exact H2|]. split; [exact H3|].
  split; [exact H4|]. intros Hdir. destruct (H5 Hdir) as [Hl Hp].
  split; [now apply Hd | exact Hp].
Qed.

Lemma record_negative_consistent (g : Globals) (st : State) (labels : gset string)
    (path : option string) (source : string) (threshold : option Q) :
  _vad_status st = _vad_status (state g) ->
  (source = "file" /\ path <> None \/
   source = "derived" /\ path = None /\ threshold <> None) ->
  consistent g ->
  consistent (with_state g (record_negative st labels path source threshold)).
Proof.
  intros Hs Hsrc (H1 & H2 & H3 & H4 & H5).
  unfold consistent, record_negative. cbn. rewrite !Hs.
  split; [exact H1|]. split; [reflexivity|].
  split; [split; discriminate|]. split.
  - right. destruct Hsrc as [[-> Hp]|(-> & Hp & Ht)]; [left | right]; auto.
  - exact H5.
Qed.

Lemma init_negative_labels_consistent (env : Env) (dir : string)
    (labels : option (list string)) (g : Globals) (st' : State) :
  init_negative_labels env dir labels (state g) = Returns st' ->
  consistent g -> consistent (with_state g st').
Proof.
  unfold init_negative_labels. intros H Hc.
  destruct (explicit_negative env dir) as [[neg_path loaded]|].
  - injection H as <-. apply record_negative_consistent; [reflexivity| |exact Hc].
    left. split; [reflexivity | discriminate].
  - destruct (ensure_mapper env (state g)) as [st1|e] eqn:He; [|discriminate].
    cbn [mbind result_bind] in H.
    destruct (ensure_mapper_frame env _ _ He) as (Hn & Hs & _ & _).
    destruct (_vad_mapper st1) as [m|]; [|discriminate].
    injection H as <-. apply record_negative_consistent; [exact Hs| |exact Hc].
    right. split; [reflexivity|]. split; [reflexivity | discriminate].
Qed.

Lemma run_consistent (g : Globals) (c : call) : consistent g -> consistent (run g c).
Proof.
  intros Hc. destruct c as [env dir labels|env dir labels|env|env d|env V A d];
    cbn [run].
  - unfold init_vad_mapper. cbv zeta. cbn [state].
    destruct (choose_mapper (base env) _ (state g)) as [st1|e] eqn:Hch.
    + destruct (choose_mapper_frame _ _ _ _ Hch) as (Hn & Hs & _ & _).
      destruct (write_unknown env _ _) as [[]|e]; cbn [globals].
      * destruct Hc as (H1 & H2 & H3 & H4 & H5).
        unfold consistent, record_unknown. cbn. rewrite Hn, !Hs.
        split; [reflexivity|]. split; [exact H2|]. split; [exact H3|].
        split; [exact H4|]. intros _. split; discriminate.
      * apply (consistent_frame g); cbn; auto; discriminate.
    + cbn [globals]. apply (consistent_frame g); cbn; auto; discriminate.
  - unfold kept.
    destruct (init_negative_labels env dir labels (state g)) as [st'|e] eqn:H;
      [|exact Hc].
    now apply (init_negative_labels_consistent env dir labels).
  - unfold get_vad_status.
    destruct (ensure_mapper env (state g)) as [st1|e] eqn:He; [|exact Hc].
    destruct (ensure_mapper_frame env _ _ He) as (Hn & Hs & _ & _).
    cbn [fst].
    destruct (unknown_from_file env (_vad_status st1)) as [u|].
    + destruct Hc as (H1 & H2 & H3 & H4 & H5).
      unfold consistent, set_unknown. cbn. rewrite Hn, !Hs.
      split; [reflexivity|]. auto.
    + apply (consistent_frame g); cbn; auto.
  - unfold kept.
    destruct (emotions_to_vad env d (state g)) as [[st' r]|e] eqn:H; [|exact Hc].
    unfold emotions_to_vad in H.
    destruct (ensure_mapper env (state g)) as [st1|e] eqn:He; [|discriminate].
    cbn [mbind result_bind] in H.
    destruct (ensure_mapper_frame env _ _ He) as (Hn & Hs & _ & _).
    destruct (_vad_mapper st1); [|discriminate].
    destruct (map_distribution _ d); [|discriminate].
    injection H as <- _. apply (consistent_frame g); cbn; auto.
  - unfold kept.
    destruct (derive_stress env V A d (state g)) as [[st' r]|e] eqn:H; [|exact Hc].
    unfold derive_stress in H.
    destruct (ensure_negative_labels env (state g)) as [st1|e] eqn:He; [|discriminate].
    cbn [mbind result_bind] in H. injection H as <- _.
    unfold ensure_negative_labels in He.
    destruct (_negative_labels (state g)) eqn:En.
    + injection He as <-. apply (consistent_frame g); cbn; auto.
    + exact (init_negative_labels_consistent env _ None g st1 He Hc).
Qed.

(** X17.  After any sequence of calls of [init_vad_mapper],
    [init_negative_labels], [get_vad_status], [emotions_to_vad] and
    [derive_stress], each in an environment of its own and whether it
    returned or raised, the status agrees with the globals: the count of
    unknown labels is the length of their list; the count of negative
    labels is the size of the set, 0 while there is none; the source tag
    is missing exactly while the set is, "file" goes with a path, and
    "derived" with no path and a threshold; and a model directory on
    record comes with the path of the file of unknown labels. *)
Theorem status_consistent (calls : list call) :
  consistent (fold_left run calls initial_globals).
Proof.
  assert (H0 : consistent initial_globals).
  { unfold consistent. cbn. split; [reflexivity|]. split; [reflexivity|].
    split; [tauto|]. split; [now left | intros H; contradiction]. }
  revert H0. generalize initial_globals.
  induction calls as [|c calls IH]; intros g Hg; [exact Hg|].
  cbn [fold_left]. apply IH. now apply run_consistent.
Qed.

End VadSpec.

(** ** The selectors of [app/models.py], beyond the claims *)

Module SelectorSpec.
Import Py PyFacts Models ModelsSpec.

(** *** The entry that comes first *)

Lemma first_highest_In (best : string * Q) (l : list (string * Q)) :
  first_highest best l -> In best l /\ Forall (fun p => (p.2 <= best.2)%Q) l.
Proof.
  intros (before & after & -> & Hb & Ha). split.
  - apply in_or_app. right. now left.
  - apply Forall_app. split.
    + eapply Forall_impl; [exact Hb|]. intros p Hp. cbv beta in *. lra.
    + constructor; [apply Qle_refl | exact Ha].
Qed.

Lemma insert_desc_head (x h : string * Q) (l : list (string * Q)) :
  insert_stable (fun y x => ltb x.2 y.2) x (h :: l) =
  if ltb x.2 h.2 then h :: insert_stable (fun y x => ltb x.2 y.2) x l
  else x :: h :: l.
Proof. reflexivity. Qed.

(** The stable descending sort puts first the first entry with the highest
    score. *)
Lemma sort_desc_head (p : string * Q) (l : list (string * Q)) :
  exists best rest, sort_desc (p :: l) = best :: rest /\ first_highest best (p :: l).
Proof.
  revert p. induction l as [|q l IH]; intros p.
  - exists p, []. split; [reflexivity|]. exists [], []. repeat split; constructor.
  - destruct (IH q) as (h & rest & Hs & Hfirst).
    unfold sort_desc, stable_sort in *. cbn [foldr] in *.
    rewrite Hs, insert_desc_head.
    destruct (ltb p.2 h.2) eqn:E.
    + apply ltb_lt in E. eexists h, _. split; [reflexivity|].
      destruct Hfirst as (before & after & Hl & Hb & Ha).
      exists (p :: before), after. rewrite Hl. split; [reflexivity|].
      split; [now constructor | exact Ha].
    + apply ltb_ge in E. exists p, (h :: rest). split; [reflexivity|].
      exists [], (q :: l). split; [reflexivity|]. split; [constructor|].
      destruct (first_highest_In h (q :: l) Hfirst) as [_ Hall].
      eapply Forall_impl; [exact Hall|]. intros r Hr. cbv beta in *. lra.
Qed.

Lemma filter_split {A : Type} (f : A -> bool) (l before' after' : list A) (x : A) :
  List.filter f l = before' ++ x :: after' ->
  exists before after,
    l = before ++ x :: after /\
    List.filter f before = before' /\ List.filter f after = after'.
Proof.
  revert before'. induction l as [|y l IH]; intros before' H.
  - destruct before'; discriminate.
  - cbn [List.filter] in H. destruct (f y) eqn:E.
    + destruct before' as [|b bs].
      * injection H as Ey Hrest. subst x. exists [], l. now repeat split.
      * injection H as Ey Hrest. subst b.
        destruct (IH bs Hrest) as (before & after & -> & Hb & Ha).
        exists (y :: before), after. split; [reflexivity|].
        split; [|exact Ha]. cbn [List.filter]. now rewrite E, Hb.
    + destruct (IH before' H) as (before & after & -> & Hb & Ha).
      exists (y :: before), after. split; [reflexivity|].
      split; [|exact Ha]. cbn [List.filter]. now rewrite E.
Qed.

(** The first highest of the entries that reach a threshold is the first
    highest of them all. *)
Lemma first_highest_filter (thr : Q) (best : string * Q) (pairs : list (string * Q)) :
  first_highest best (List.filter (fun p => leb thr p.2) pairs) ->
  first_highest best pairs.
Proof.
  intros (before' & after' & Hl & Hb & Ha).
  assert (Hbest : (thr <= best.2)%Q).
  { assert (Hin : In best (List.filter (fun p => leb thr p.2) pairs))
      by (rewrite Hl; apply in_or_app; right; now left).
    apply filter_In in Hin as [_ H]. now apply leb_le in H. }
  destruct (filter_split _ _ _ _ _ Hl) as (before & after & -> & Hfb & Hfa).
  exists before, after. split; [reflexivity|]. split.
  - apply Forall_forall. intros p Hp. apply list_elem_of_In in Hp.
    destruct (leb thr p.2) eqn:E.
    + rewrite Forall_forall in Hb. apply Hb. apply list_elem_of_In.
      rewrite <- Hfb. apply filter_In. now split.
    + apply leb_gt in E. lra.
  - apply Forall_forall. intros p Hp. apply list_elem_of_In in Hp.
    destruct (leb thr p.2) eqn:E.
    + rewrite Forall_forall in Ha. apply Ha. apply list_elem_of_In.
      rewrite <- Hfa. apply filter_In. now split.
    + apply leb_gt in E. lra.
Qed.

Lemma cap_head (topk : option Z) (x : string * Q) (l : list (string * Q)) :
  (forall k, topk = Some k -> (0 <= k)%Z) ->
  exists rest, cap topk (x :: l) = x :: rest.
Proof.
  intros Hk. rewrite (cap_top topk _ Hk). unfold top.
  destruct topk as [k|]; [|now eexists].
  destruct (Z.ltb_spec 0 k) as [Hpos|_]; [|now eexists].
  destruct (Z.to_nat k) eqn:E; [lia|]. cbn [take]. now eexists.
Qed.

Lemma top_entry_head (multi : bool) (thr : Q) (topk : option Z)
    (raw_output : raw) :
  (forall k, topk = Some k -> (0 <= k)%Z) ->
  to_pairs raw_output <> [] ->
  exists pairs best rest,
    _normalize_scores raw_output (negb multi) = Returns pairs /\
    analyze_emotions multi thr topk raw_output = Returns (best :: rest) /\
    first_highest best pairs.
Proof.
  intros Hk Hne.
  assert (Hn : exists pairs,
    _normalize_scores raw_output (negb multi) = Returns pairs /\ pairs <> []).
  { destruct multi; cbn [negb].
    - exists (to_pairs raw_output). split; [apply normalize_scores_raw | exact Hne].
    - destruct (Qlt_le_dec 0 (clamped_total (to_pairs raw_output))) as [Hpos|Hle].
      + rewrite (normalize_scores_scaled raw_output Hpos). eexists.
        split; [reflexivity|]. intros E. apply Hne.
        now apply map_eq_nil in E.
      + rewrite (normalize_scores_kept raw_output Hle). now eexists. }
  destruct Hn as (pairs & Hpairs & Hpne). exists pairs.
  unfold analyze_emotions. rewrite Hpairs. cbn [mbind result_bind].
  destruct pairs as [|p ps]; [contradiction|].
  destruct multi.
  - destruct (List.filter (fun p => leb thr p.2) (p :: ps)) as [|s ss] eqn:Ef.
    + assert (Hc : cap topk (sort_desc []) = []) by now destruct topk as [[]|].
      rewrite Hc.
      destruct (max_by_first_highest p ps) as (best & Hbest & Hfirst).
      rewrite Hbest. cbn [mbind result_bind]. now exists best, [].
    + destruct (sort_desc_head s ss) as (best & rest & Hs & Hfirst).
      rewrite Hs. destruct (cap_head topk best rest Hk) as [rest' Hc].
      rewrite Hc. exists best, rest'. split; [reflexivity|]. split; [reflexivity|].
      apply (first_highest_filter thr). now rewrite Ef.
  - destruct (sort_desc_head p ps) as (best & rest & Hs & Hfirst).
    rewrite Hs. destruct (cap_head topk best rest Hk) as [rest' Hc].
    rewrite Hc. now exists best, rest'.
Qed.

(** X18.  Whatever the mode, the threshold and the cap (not negative when
    set), [analyze_emotions] on an output with at least one entry returns
    a list that starts with the highest-scoring entry of the distribution,
    the first one among equals: the entry whose score [analyze] records as
    top-1. *)
Theorem top_entry_comes_first (multi : bool) (thr : Q) (topk : option Z)
    (raw_output : raw) :
  (forall k, topk = Some k -> (0 <= k)%Z) ->
  to_pairs raw_output <> [] ->
  exists pairs best rest,
    _normalize_scores raw_output (negb multi) = Returns pairs /\
    analyze_emotions multi thr topk raw_output = Returns (best :: rest) /\
    first_highest best pairs.
Proof. apply top_entry_head. Qed.

Lemma top_entry_comes_first_witness :
  exists pairs best rest,
    _normalize_scores (Flat [entry "joy" 0.2; entry "fear" 0.4; entry "anger" 0.4])
      (negb false) = Returns pairs /\
    analyze_emotions false 0.5 (Some 2%Z)
      (Flat [entry "joy" 0.2; entry "fear" 0.4; entry "anger" 0.4]) =
      Returns (best :: rest) /\
    first_highest best pairs.
Proof.
  apply (top_entry_comes_first false 0.5 (Some 2%Z)
           (Flat [entry "joy" 0.2; entry "fear" 0.4; entry "anger" 0.4])).
  - intros k [= <-]. lia.
  - discriminate.
Defined.

(** *** Single-label mode *)

(** How many entries the cap leaves of [n]: all without a cap or with the
    cap 0, at most [k] for a cap [k > 0], and [n - |k|] (none when that is
    negative) for a cap [k < 0], which cuts from the end. *)
Definition cap_length (topk : option Z) (n : nat) : nat :=
  match topk with
  | None => n
  | Some k =>
      if (k =? 0)%Z then n
      else if (0 <? k)%Z then Nat.min (Z.to_nat k) n
      else Z.to_nat (Z.of_nat n + k)
  end.

Lemma cap_take (topk : option Z) (l : list (string * Q)) :
  cap topk l = take (cap_length topk (length l)) l.
Proof.
  unfold cap, cap_length. destruct topk as [k|]; [|now rewrite firstn_all].
  destruct (Z.eqb_spec k 0) as [->|Hnz]; cbn [negb andb]; [now rewrite firstn_all|].
  destruct (Z.ltb_spec 0 k) as [Hpos|Hneg].
  - destruct (Z.ltb_spec k (Z.of_nat (length l))) as [Hlt|Hge].
    + unfold slice_to. destruct (Z.leb_spec 0 k); [|lia].
      f_equal. lia.
    + rewrite Nat.min_r by lia. now rewrite firstn_all.
  - destruct (Z.ltb_spec k (Z.of_nat (length l))) as [Hlt|Hge]; [|lia].
    unfold slice_to. destruct (Z.leb_spec 0 k); [lia | reflexivity].
Qed.

Lemma cap_length_le (topk : option Z) (n : nat) : (cap_length topk n <= n)%nat.
Proof.
  unfold cap_length. destruct topk as [k|]; [|lia].
  destruct (k =? 0)%Z; [lia|]. destruct (Z.ltb_spec 0 k); lia.
Qed.

Lemma sorted_take (l : list (string * Q)) (n : nat) :
  StronglySorted score_ge l -> StronglySorted score_ge (take n l).
Proof.
  intros H. revert n. induction H as [|x l Hs IH Hall]; intros [|n]; cbn [take];
    try constructor.
  - apply IH.
  - rewrite Forall_forall in Hall |- *. intros y Hy. apply Hall.
    apply elem_of_take in Hy as (i & Hi & _). now apply list_elem_of_lookup_2 in Hi.
Qed.

(** X19.  Once the emotion pipeline has returned its output (loading the
    model and running it are not part of this), the rest of
    [analyze_emotions] in single-label mode returns, whatever the
    threshold, the first entries of the normalised distribution sorted by
    descending score: all of them without a cap, with the cap 0 or with a
    cap that is not under their number, the first [k] for a smaller cap
    [k > 0], and all but the last [|k|] for a cap [k < 0].  The uncut list
    is a rearrangement of the normalised distribution. *)
Theorem single_label_ranking (thr : Q) (topk : option Z) (raw_output : raw) :
  exists pairs out,
    _normalize_scores raw_output true = Returns pairs /\
    analyze_emotions false thr topk raw_output = Returns out /\
    out = take (cap_length topk (length pairs)) (sort_desc pairs) /\
    length out = cap_length topk (length pairs) /\
    StronglySorted score_ge out /\
    Permutation (sort_desc pairs) pairs /\
    (cap_length topk (length pairs) = length pairs -> Permutation out pairs).
Proof.
  destruct (normalize_scores_returns raw_output) as [pairs Hpairs].
  exists pairs, (cap topk (sort_desc pairs)).
  split; [exact Hpairs|]. split.
  { unfold analyze_emotions. cbn [negb]. now rewrite Hpairs. }
  assert (Hlen : length (sort_desc pairs) = length pairs)
    by apply Permutation_length, sort_desc_perm.
  rewrite cap_take, Hlen. split; [reflexivity|]. split.
  { rewrite length_take, Hlen. pose proof (cap_length_le topk (length pairs)). lia. }
  split; [apply sorted_take, sort_desc_sorted|].
  split; [apply sort_desc_perm|].
  intros Hall. rewrite Hall, <- Hlen, firstn_all. apply sort_desc_perm.
Qed.

(** A negative cap cuts from the end: -1 drops the lowest entry. *)
Example negative_cap_cuts_tail :
  analyze_emotions false 0.5 (Some (-1)%Z)
    (Flat [entry "joy" 1; entry "fear" 3]) =
  Returns [("fear", (3 / 4)%Q)] /\
  analyze_emotions false 0.5 (Some (-2)%Z)
    (Flat [entry "joy" 1; entry "fear" 3]) = Returns [].
Proof. split; vm_compute; reflexivity. Qed.

(** *** The label of the sentiment *)

Lemma analyze_sentiment_unfold (mid : string) (id2label : option (list string))
    (neutral_mode : string) (raw_output : raw) :
  exists d best,
    d <> [] /\
    max_by snd d = Returns best /\
    analyze_sentiment mid id2label neutral_mode raw_output =
      Returns {| label := best.1; scores := d; raw_model := mid |}.
Proof.
  destruct (normalize_scores_returns raw_output) as [pairs Hpairs].
  unfold analyze_sentiment. rewrite Hpairs. cbn [mbind result_bind].
  destruct (startswith mid _).
  - pose proof (star_sentiment_spec neutral_mode pairs) as H.
    destruct (star_buckets pairs) as [[neg neu] pos].
    destruct H as (d & Hd & H). rewrite Hd.
    assert (Hne : d <> []).
    { destruct (String.eqb neutral_mode "off"); destruct H as [Hk _];
        intros ->; discriminate Hk. }
    destruct (max_by_returns d Hne) as [best Hbest].
    cbn [mbind result_bind]. rewrite Hbest. cbn [mbind result_bind].
    now exists d, best.
  - pose proof (generic_sentiment_spec id2label neutral_mode pairs) as H.
    cbv zeta in H.
    destruct (generic_shares _ neutral_mode pairs) as [[neg neu] pos].
    destruct H as (d & Hd & H). rewrite Hd.
    assert (Hne : d <> []).
    { destruct (drops_neutral _ _); destruct H as [Hk _]; intros ->;
        [discriminate Hk | apply Permutation_nil in Hk; discriminate Hk]. }
    destruct (max_by_returns d Hne) as [best Hbest].
    cbn [mbind result_bind]. rewrite Hbest. cbn [mbind result_bind].
    now exists d, best.
Qed.

(** X20.  Once the sentiment pipeline has returned its output (loading the
    model and running it are not part of this), the rest of
    [analyze_sentiment] returns a result with the model id it was given,
    whose label is a key of its score mapping that no other key outscores:
    the first such key in the order of the mapping.  When the mapping has
    the two keys positive and negative, the label is positive unless
    negative has strictly the higher score. *)
Theorem sentiment_label_is_top (mid : string) (id2label : option (list string))
    (neutral_mode : string) (raw_output : raw) :
  exists r v,
    analyze_sentiment mid id2label neutral_mode raw_output = Returns r /\
    raw_model r = mid /\
    first_highest (label r, v) (scores r) /\
    (forall p n, scores r = [("positive", p); ("negative", n)] ->
                 (label r = "negative" <-> (p < n)%Q) /\
                 (label r = "positive" <-> (n <= p)%Q)).
Proof.
  destruct (analyze_sentiment_unfold mid id2label neutral_mode raw_output)
    as (d & best & Hne & Hbest & Hr).
  exists {| label := best.1; scores := d; raw_model := mid |}, best.2.
  split; [exact Hr|]. split; [reflexivity|]. cbn [label scores]. split.
  - destruct d as [|p l]; [contradiction|].
    destruct (max_by_first_highest p l) as (best' & Hbest' & Hfirst).
    rewrite Hbest in Hbest'. injection Hbest' as <-.
    now destruct best.
  - intros p n ->. cbn in Hbest. injection Hbest as <-.
    destruct (ltb p n) eqn:E; cbn [fst].
    + apply ltb_lt in E. split; split; try reflexivity; try discriminate.
      * intros _. exact E.
      * intros H. now apply Qle_not_lt in H.
    + apply ltb_ge in E. split; split; try reflexivity; try discriminate.
      * intros H. now apply Qle_not_lt in E.
      * intros _. exact E.
Qed.

(** On the star-rating branch with no rating at all, every score is 0 and
    the label is the first key, negative. *)
Example star_without_mass_is_negative :
  exists r,
    analyze_sentiment star_model None "auto" (Flat []) = Returns r /\
    label r = "negative".
Proof. eexists. split; [vm_compute; reflexivity | reflexivity]. Qed.

End SelectorSpec.

(** ** [app/models.py]: finding and loading the models *)

Module Manager.
Import Py.

(** What [_build_local_candidates] asks of [pathlib], of the file system
    and of [app/config.py].  A path is the string [str()] gives for it:
    [as_path s] is [str(Path(s))], [joinpath a b] is [str(Path(a) / b)],
    [name p] is [p.name], [iterdir p] the entries of [p] in the order the
    system lists them, [read_text p] is [p.read_text(encoding="utf-8")],
    [project_root] is [Path(__file__).resolve().parents[1]], and
    [get_model_selector] is the function of [app/config.py], which may
    raise. *)
Record Files : Type := {
  project_root : string;
  as_path : string -> string;
  joinpath : string -> string -> string;
  path_exists : string -> bool;
  is_dir : string -> bool;
  is_absolute : string -> bool;
  name : string -> string;
  iterdir : string -> list string;
  read_text : string -> result string;
  get_model_selector : string -> result (option string);
}.

Definition is_model_dir (fs : Files) (d : string) : bool :=
  path_exists fs (joinpath fs d "config.json") ||
  path_exists fs (joinpath fs d "pytorch_model.bin") ||
  path_exists fs (joinpath fs d "model.safetensors").

(** The number of bytes of the line boundary [s] starts with, 0 when it
    starts with none.  [splitlines] breaks at line feed, vertical tab, form
    feed, carriage return and the file, group and record separators, and
    at U+0085 (C2 85), U+2028 and U+2029 (E2 80 A8, E2 80 A9). *)
Definition break_width (s : string) : nat :=
  match s with
  | EmptyString => 0
  | String c rest =>
      let b0 := nat_of_ascii c in
      if ((10 <=? b0)%nat && (b0 <=? 13)%nat) || ((28 <=? b0)%nat && (b0 <=? 30)%nat)
      then 1
      else
        match rest with
        | String d rest' =>
            let b1 := nat_of_ascii d in
            if (b0 =? 194)%nat then (if (b1 =? 133)%nat then 2 else 0)
            else
              match rest' with
              | String e _ =>
                  let b2 := nat_of_ascii e in
                  if (b0 =? 226)%nat && (b1 =? 128)%nat &&
                     ((b2 =? 168)%nat || (b2 =? 169)%nat)
                  then 3 else 0
              | EmptyString => 0
              end
        | EmptyString => 0
        end
  end.

Fixpoint take_line (s : string) : string :=
  match s with
  | EmptyString => EmptyString
  | String c s' =>
      match break_width s with
      | O => String c (take_line s')
      | S _ => EmptyString
      end
  end.

(** [s.splitlines()[0]]; [IndexError] when [s] is empty. *)
Definition first_line (s : string) : result string :=
  match s with
  | EmptyString => Raises IndexError
  | _ => Returns (take_line s)
  end.

(** The [priority] of [_build_local_candidates]: the first line of
    [priority.txt], [None] without the file or when reading it raised. *)
Definition read_priority (fs : Files) (base : string) : option string :=
  let priority_path := joinpath fs base "priority.txt" in
  if path_exists fs priority_path then
    match (text ← read_text fs priority_path;
           line ← first_line (strip text);
           Returns (strip line)) with
    | Returns priority => Some priority
    | Raises _ => None
    end
  else None.

(** [sorted(l, key=lambda p: p.name.lower())] *)
Definition by_name (fs : Files) (l : list string) : list string :=
  stable_sort (fun y x => String.ltb (lower (name fs y)) (lower (name fs x))) l.

(** The key [(0 if p.name == priority else 1, p.name.lower())] *)
Definition priority_key (fs : Files) (priority : string) (p : string) : nat * string :=
  (if String.eqb (name fs p) priority then 0%nat else 1%nat, lower (name fs p)).

(** [<] on such keys: tuples compare item by item. *)
Definition key_ltb (a b : nat * string) : bool :=
  (a.1 <? b.1)%nat || ((a.1 =? b.1)%nat && String.ltb a.2 b.2).

Definition by_priority (fs : Files) (priority : string) (l : list string) : list string :=
  stable_sort (fun y x => key_ltb (priority_key fs priority y) (priority_key fs priority x)) l.

(** The selector, when it is set and names a model directory. *)
Definition selected_dir (fs : Files) (kind base : string) : option string :=
  match get_model_selector fs kind with
  | Returns (Some selector) =>
      if String.eqb selector "" then None
      else
        let sp :=
          if is_absolute fs selector then as_path fs selector
          else joinpath fs base selector in
        if is_model_dir fs sp then Some sp else None
  | _ => None
  end.

Definition _build_local_candidates (fs : Files) (kind : string) : list string :=
  let base := joinpath fs (joinpath fs (project_root fs) "models") kind in
  if negb (path_exists fs base) then []
  else
    match selected_dir fs kind base with
    | Some sp => [sp]
    | None =>
        if is_model_dir fs base then [base]
        else
          let priority := read_priority fs base in
          let subs :=
            List.filter (fun d => is_dir fs d && is_model_dir fs d) (iterdir fs base) in
          let subs_sorted := by_name fs subs in
          match priority with
          | Some (String c p) => by_priority fs (String c p) subs_sorted
          | _ => subs_sorted
          end
    end.

Section Loading.

(** A loaded pipeline, whatever it is. *)
Context {Pipe : Type}.

(** The body of the [try] of [_load_first_available] for one model id:
    the pipeline and the seconds it took, [None] when it raised. *)
Definition loader : Type := string -> string -> bool -> option (Pipe * Q).

Fixpoint _load_first_available (load : loader) (model_ids : list string)
    (task : string) (multilabel : bool) : result (Pipe * string * Q) :=
  match model_ids with
  | [] => Raises RuntimeError
  | mid :: rest =>
      match load mid task multilabel with
      | Some (pipe, dt) => Returns (pipe, mid, dt)
      | None => _load_first_available load rest task multilabel
      end
  end.

Record ModelManager : Type := {
  _sentiment_pipe : option Pipe;
  _sentiment_model_id : option string;
  _emotion_pipe : option Pipe;
  _emotion_model_id : option string;
  _sentiment_candidates : list string;
  _emotion_candidates : list string;
  _sentiment_load_sec : option Q;
  _emotion_load_sec : option Q;
}.

(** [ModelManager.__init__] *)
Definition ModelManager_init : ModelManager :=
  {| _sentiment_pipe := None; _sentiment_model_id := None;
     _emotion_pipe := None; _emotion_model_id := None;
     _sentiment_candidates := []; _emotion_candidates := [];
     _sentiment_load_sec := None; _emotion_load_sec := None |}.

(** What the two [ensure_] methods meet: the files, the loader, and
    [is_emotion_multi_label()]. *)
Record World : Type := {
  files : Files;
  load : loader;
  is_emotion_multi_label : bool;
}.

Definition set_sentiment_candidates (self : ModelManager) (local : list string)
    : ModelManager :=
  {| _sentiment_pipe := _sentiment_pipe self;
     _sentiment_model_id := _sentiment_model_id self;
     _emotion_pipe := _emotion_pipe self;
     _emotion_model_id := _emotion_model_id self;
     _sentiment_candidates := local;
     _emotion_candidates := _emotion_candidates self;
     _sentiment_load_sec := _sentiment_load_sec self;
     _emotion_load_sec := _emotion_load_sec self |}.

Definition set_sentiment (self : ModelManager) (pipe : Pipe) (mid : string) (dt : Q)
    : ModelManager :=
  {| _sentiment_pipe := Some pipe;
     _sentiment_model_id := Some mid;
     _emotion_pipe := _emotion_pipe self;
     _emotion_model_id := _emotion_model_id self;
     _sentiment_candidates := _sentiment_candidates self;
     _emotion_candidates := _emotion_candidates self;
     _sentiment_load_sec := Some dt;
     _emotion_load_sec := _emotion_load_sec self |}.

Definition set_emotion_candidates (self : ModelManager) (local : list string)
    : ModelManager :=
  {| _sentiment_pipe := _sentiment_pipe self;
     _sentiment_model_id := _sentiment_model_id self;
     _emotion_pipe := _emotion_pipe self;
     _emotion_model_id := _emotion_model_id self;
     _sentiment_candidates := _sentiment_candidates self;
     _emotion_candidates := local;
     _sentiment_load_sec := _sentiment_load_sec self;
     _emotion_load_sec := _emotion_load_sec self |}.

Definition set_emotion (self : ModelManager) (pipe : Pipe) (mid : string) (dt : Q)
    : ModelManager :=
  {| _sentiment_pipe := _sentiment_pipe self;
     _sentiment_model_id := _sentiment_model_id self;
     _emotion_pipe := Some pipe;
     _emotion_model_id := Some mid;
     _sentiment_candidates := _sentiment_candidates self;
     _emotion_candidates := _emotion_candidates self;
     _sentiment_load_sec := _sentiment_load_sec self;
     _emotion_load_sec := Some dt |}.

(** [ensure_sentiment]: the manager it leaves, and the pair it returns or
    the exception it raises. *)
Definition ensure_sentiment (w : World) (self : ModelManager)
    : ModelManager * result (option Pipe * option string) :=
  match _sentiment_pipe self with
  | Some _ => (self, Returns (_sentiment_pipe self, _sentiment_model_id self))
  | None =>
      let local := _build_local_candidates (files w) "sentiment" in
      let self := set_sentiment_candidates self local in
      match local with
      | [] => (self, Raises RuntimeError)
      | _ =>
          match _load_first_available (load w) local "text-classification" false with
          | Raises e => (self, Raises e)
          | Returns (pipe, mid, dt) =>
              let self := set_sentiment self pipe mid dt in
              (self, Returns (_sentiment_pipe self, _sentiment_model_id self))
          end
      end
  end.

Definition ensure_emotion (w : World) (self : ModelManager)
    : ModelManager * result (option Pipe * option string) :=
  match _emotion_pipe self with
  | Some _ => (self, Returns (_emotion_pipe self, _emotion_model_id self))
  | None =>
      let local := _build_local_candidates (files w) "emotion" in
      let self := set_emotion_candidates self local in
      match local with
      | [] => (self, Raises RuntimeError)
      | _ =>
          match _load_first_available (load w) local "text-classification"
                  (is_emotion_multi_label w) with
          | Raises e => (self, Raises e)
          | Returns (pipe, mid, dt) =>
              let self := set_emotion self pipe mid dt in
              (self, Returns (_emotion_pipe self, _emotion_model_id self))
          end
      end
  end.

(** One entry of [get_status]. *)
Record ModelStatus : Type := {
  selected : option string;
  candidates : list string;
  loaded : bool;
  load_time_sec : option Q;
}.

(** [get_status]: the entries ["sentiment"] and ["emotion"]. *)
Definition get_status (self : ModelManager) : ModelStatus * ModelStatus :=
  ({| selected := _sentiment_model_id self;
      candidates := _sentiment_candidates self;
      loaded := match _sentiment_pipe self with Some _ => true | None => false end;
      load_time_sec := _sentiment_load_sec self |},
   {| selected := _emotion_model_id self;
      candidates := _emotion_candidates self;
      loaded := match _emotion_pipe self with Some _ => true | None => false end;
      load_time_sec := _emotion_load_sec self |}).

End Loading.

Arguments loader : clear implicits.
Arguments ModelManager : clear implicits.
Arguments World : clear implicits.

End Manager.

(** ** Finding and loading the models: properties *)

Module ManagerSpec.
Import Py PyFacts Manager VadSpec.

(** *** [_build_local_candidates] *)

(** The order of the keys [(0 or 1, lowered name)]. *)
Definition key_le (a b : nat * string) : Prop := key_ltb b a = false.

Lemma key_le_cases (a b : nat * string) :
  key_le a b <-> (a.1 < b.1)%nat \/ (a.1 = b.1 /\ str_le a.2 b.2).
Proof.
  unfold key_le, key_ltb, str_le. destruct a as [n s], b as [m t]. cbn [fst snd].
  destruct (Nat.ltb_spec m n) as [Hlt|Hge]; cbn [orb].
  - split; [discriminate|]. intros [H|[H _]]; lia.
  - destruct (Nat.eqb_spec m n) as [->|Hne]; cbn [andb].
    + split; [now right|]. intros [H|[_ H]]; [lia | exact H].
    + split; [left; lia | reflexivity].
Qed.

Lemma key_le_trans (a b c : nat * string) : key_le a b -> key_le b c -> key_le a c.
Proof.
  rewrite !key_le_cases. intros [H1|[H1 S1]] [H2|[H2 S2]]; try (left; lia).
  right. split; [lia|]. now apply str_le_trans with b.2.
Qed.

Lemma key_ltb_le (a b : nat * string) : key_ltb a b = true -> key_le a b.
Proof.
  unfold key_ltb. rewrite key_le_cases. destruct a as [n s], b as [m t]. cbn [fst snd].
  destruct (Nat.ltb_spec n m) as [Hlt|Hge]; cbn [orb]; [now left|].
  destruct (Nat.eqb_spec n m) as [->|Hne]; cbn [andb]; [|discriminate].
  intros H. right. split; [reflexivity|]. apply str_le_cases. now left.
Qed.

(** Ascending by lowered name, and by priority key. *)
Definition name_le (fs : Files) (y x : string) : Prop :=
  str_le (lower (name fs y)) (lower (name fs x)).

Definition priority_le (fs : Files) (priority : string) (y x : string) : Prop :=
  key_le (priority_key fs priority y) (priority_key fs priority x).

Lemma by_name_sorted (fs : Files) (l : list string) :
  StronglySorted (name_le fs) (by_name fs l).
Proof.
  apply stable_sort_sorted; unfold name_le.
  - intros x y z. apply str_le_trans.
  - intros y x H. apply str_le_cases. now left.
  - intros y x H. exact H.
Qed.

Lemma by_priority_sorted (fs : Files) (priority : string) (l : list string) :
  StronglySorted (priority_le fs priority) (by_priority fs priority l).
Proof.
  apply stable_sort_sorted; unfold priority_le.
  - intros x y z. apply key_le_trans.
  - intros y x H. now apply key_ltb_le.
  - intros y x H. exact H.
Qed.

Lemma by_priority_perm (fs : Files) (priority : string) (l : list string) :
  Permutation (by_priority fs priority l) l.
Proof. apply stable_sort_perm. Qed.

Lemma by_name_perm (fs : Files) (l : list string) : Permutation (by_name fs l) l.
Proof. apply stable_sort_perm. Qed.

(** The directory the candidates are looked for in, and the model
    directories directly under it. *)
Definition models_base (fs : Files) (kind : string) : string :=
  joinpath fs (joinpath fs (project_root fs) "models") kind.

Definition model_subdirs (fs : Files) (kind : string) : list string :=
  List.filter (fun d => is_dir fs d && is_model_dir fs d)
    (iterdir fs (models_base fs kind)).

(** Where a selector points: the path it names when that is absolute,
    the path under [base] otherwise. *)
Definition selector_path (fs : Files) (base selector : string) : string :=
  if is_absolute fs selector then as_path fs selector else joinpath fs base selector.

(** The selector decides nothing: asking for it raised, there is none, it
    is empty, or it does not point to a model directory. *)
Definition no_selection (fs : Files) (kind : string) : Prop :=
  match get_model_selector fs kind with
  | Returns (Some selector) =>
      selector = "" \/
      is_model_dir fs (selector_path fs (models_base fs kind) selector) = false
  | Returns None | Raises _ => True
  end.

Lemma selected_dir_Some (fs : Files) (kind selector : string) :
  get_model_selector fs kind = Returns (Some selector) ->
  selector <> "" ->
  is_model_dir fs (selector_path fs (models_base fs kind) selector) = true ->
  selected_dir fs kind (models_base fs kind) =
  Some (selector_path fs (models_base fs kind) selector).
Proof.
  intros Hsel Hne Hm. unfold selected_dir. rewrite Hsel.
  destruct (String.eqb_spec selector "") as [E|_]; [contradiction|].
  fold (selector_path fs (models_base fs kind) selector). now rewrite Hm.
Qed.

Lemma selected_dir_None (fs : Files) (kind : string) :
  no_selection fs kind -> selected_dir fs kind (models_base fs kind) = None.
Proof.
  unfold no_selection, selected_dir.
  destruct (get_model_selector fs kind) as [[selector|]|e]; try reflexivity.
  fold (selector_path fs (models_base fs kind) selector).
  intros [->|H]; [reflexivity|].
  rewrite H. now destruct (String.eqb selector "").
Qed.

(** X21.  The rules of [_build_local_candidates].  Without the directory
    [models/<kind>] there is no candidate.  A selector that is not empty
    and points to a model directory (the path it names when absolute, the
    path under the directory otherwise) makes that directory the only
    candidate.  When the selector decides nothing, the directory itself is
    the only candidate when it holds a model.  Failing that, the
    candidates are the model directories directly under it, each once per
    listing, in ascending order of their lower-cased names when these are
    ASCII; when [priority.txt] yields a name that is not empty, the
    directories of that name come first, so a candidate of that name is
    the first one. *)
Theorem local_candidates_rules (fs : Files) (kind : string) :
  let base := joinpath fs (joinpath fs (project_root fs) "models") kind in
  let subs :=
    List.filter (fun d => is_dir fs d && is_model_dir fs d) (iterdir fs base) in
  let out := _build_local_candidates fs kind in
  Forall (fun d => isascii (name fs d) = true) subs ->
  (path_exists fs base = false -> out = []) /\
  (path_exists fs base = true ->
   (forall selector,
       get_model_selector fs kind = Returns (Some selector) ->
       selector <> "" ->
       let sp :=
         if is_absolute fs selector then as_path fs selector
         else joinpath fs base selector in
       is_model_dir fs sp = true -> out = [sp]) /\
   (no_selection fs kind ->
    (is_model_dir fs base = true -> out = [base]) /\
    (is_model_dir fs base = false ->
     Permutation out subs /\
     match read_priority fs base with
     | Some (String c p) =>
         StronglySorted (priority_le fs (String c p)) out /\
         (forall d, In d subs -> name fs d = String c p ->
                    exists first rest,
                      out = first :: rest /\ name fs first = String c p)
     | _ => StronglySorted (name_le fs) out
     end))).
Proof.
  cbv zeta. intros _. unfold _build_local_candidates.
  fold (models_base fs kind). fold (model_subdirs fs kind).
  destruct (path_exists fs (models_base fs kind)) eqn:Eb; cbn [negb].
  - split; [discriminate|]. intros _. split.
    + intros selector Hsel Hne Hm.
      fold (selector_path fs (models_base fs kind) selector) in Hm |- *.
      now rewrite (selected_dir_Some fs kind selector Hsel Hne Hm).
    + intros Hnone. rewrite (selected_dir_None fs kind Hnone). split.
      * intros Hm. now rewrite Hm.
      * intros Hm. rewrite Hm.
        destruct (read_priority fs (models_base fs kind)) as [[|c p]|].
        -- split; [apply by_name_perm | apply by_name_sorted].
        -- split; [|split].
           ++ rewrite by_priority_perm. apply by_name_perm.
           ++ apply by_priority_sorted.
           ++ intros d Hd Hname.
              assert (Hin : In d (by_priority fs (String c p)
                                    (by_name fs (model_subdirs fs kind)))).
              { apply list_elem_of_In. rewrite by_priority_perm, by_name_perm.
                now apply list_elem_of_In. }
              pose proof (by_priority_sorted fs (String c p)
                            (by_name fs (model_subdirs fs kind))) as Hs.
              destruct (by_priority fs (String c p) _) as [|first rest];
                [contradiction|].
              exists first, rest. split; [reflexivity|].
              destruct Hin as [->|Hin]; [exact Hname|].
              inversion Hs as [|? ? _ Hall]; subst.
              rewrite Forall_forall in Hall.
              assert (Hle : priority_le fs (String c p) first d)
                by (apply Hall; now apply list_elem_of_In).
              unfold priority_le in Hle. apply key_le_cases in Hle.
              unfold priority_key in Hle. cbn [fst snd] in Hle.
              rewrite Hname, String.eqb_refl in Hle.
              destruct (String.eqb_spec (name fs first) (String c p)) as [E|_];
                [exact E|]. destruct Hle as [Hle|[Hle _]]; lia.
        -- split; [apply by_name_perm | apply by_name_sorted].
  - split; [reflexivity | discriminate].
Qed.

(** [s] without the slashes it ends with. *)
Fixpoint without_trailing_slash (s : string) : string :=
  match s with
  | EmptyString => EmptyString
  | String c s' =>
      match without_trailing_slash s' with
      | EmptyString => if Ascii.eqb c "/" then EmptyString else String c EmptyString
      | r => String c r
      end
  end.

(** Three model directories and a priority file naming the last one;
    [selector] is what [get_model_selector] returns. *)
Definition three_models_with (selector : option string) : Files :=
  {| project_root := "/srv";
     as_path := without_trailing_slash;
     joinpath := fun a b => a +:+ "/" +:+ without_trailing_slash b;
     path_exists := fun p =>
       bool_decide (p ∈ ["/srv/models/emotion"; "/srv/models/emotion/priority.txt";
                         "/srv/models/emotion/beta/config.json";
                         "/srv/models/emotion/Alpha/model.safetensors";
                         "/srv/models/emotion/gamma/pytorch_model.bin"]);
     is_dir := fun p => negb (String.eqb p "/srv/models/emotion/priority.txt");
     is_absolute := fun p => String.prefix "/" p;
     name := fun p =>
       if String.eqb p "/srv/models/emotion/beta" then "beta"
       else if String.eqb p "/srv/models/emotion/Alpha" then "Alpha"
       else if String.eqb p "/srv/models/emotion/gamma" then "gamma"
       else if String.eqb p "/srv/models/emotion/notes" then "notes"
       else "priority.txt";
     iterdir := fun _ =>
       ["/srv/models/emotion/beta"; "/srv/models/emotion/priority.txt";
        "/srv/models/emotion/notes"; "/srv/models/emotion/Alpha";
        "/srv/models/emotion/gamma"];
     read_text := fun _ => Returns (String "010" (" gamma " +:+ String "010" "beta"));
     get_model_selector := fun _ => Returns selector |}.

Definition three_models : Files := three_models_with None.

Example candidates_priority_first :
  _build_local_candidates three_models "emotion" =
  ["/srv/models/emotion/gamma"; "/srv/models/emotion/Alpha"; "/srv/models/emotion/beta"].
Proof. vm_compute. reflexivity. Qed.

Lemma local_candidates_rules_witness :
  _build_local_candidates (three_models_with (Some "beta/")) "emotion" =
    ["/srv/models/emotion/beta"] /\
  _build_local_candidates (three_models_with (Some "/srv/models/emotion/Alpha/"))
    "emotion" = ["/srv/models/emotion/Alpha"] /\
  (exists first rest,
      _build_local_candidates (three_models_with (Some "missing")) "emotion" =
        first :: rest /\
      name (three_models_with (Some "missing")) first = "gamma").
Proof.
  assert (Hascii : forall sel,
    Forall (fun d => isascii (name (three_models_with sel) d) = true)
      (List.filter
         (fun d => is_dir (three_models_with sel) d &&
                   is_model_dir (three_models_with sel) d)
         (iterdir (three_models_with sel)
            (joinpath (three_models_with sel)
               (joinpath (three_models_with sel)
                  (project_root (three_models_with sel)) "models") "emotion")))).
  { intros sel. vm_compute. repeat constructor. }
  split; [|split].
  - destruct (local_candidates_rules (three_models_with (Some "beta/")) "emotion"
                (Hascii _)) as [_ H].
    exact (proj1 (H eq_refl) "beta/" eq_refl ltac:(discriminate) eq_refl).
  - destruct (local_candidates_rules
                (three_models_with (Some "/srv/models/emotion/Alpha/")) "emotion"
                (Hascii _)) as [_ H].
    exact (proj1 (H eq_refl) "/srv/models/emotion/Alpha/" eq_refl
             ltac:(discriminate) eq_refl).
  - destruct (local_candidates_rules (three_models_with (Some "missing")) "emotion"
                (Hascii _)) as [_ H].
    destruct (proj2 (H eq_refl)) as [_ Hsubs].
    { right. reflexivity. }
    destruct (Hsubs eq_refl) as [_ Hp].
    change (read_priority (three_models_with (Some "missing")) _)
      with (Some "gamma") in Hp.
    destruct Hp as [_ Hfirst].
    apply (Hfirst "/srv/models/emotion/gamma"); [|reflexivity].
    vm_compute. tauto.
Defined.

(** *** Loading *)

Section Loading.
Context {Pipe : Type}.
Implicit Types (load : loader Pipe) (self : ModelManager Pipe) (w : World Pipe).

(** X22.  [_load_first_available] takes the first model of the list that
    loads: when it returns a model id, every id before it failed to load
    and the pipeline and the time are those of that id; it raises
    [RuntimeError] exactly when none of the list loads, the empty list
    included. *)
Theorem first_loadable_wins load (model_ids : list string) (task : string)
    (multilabel : bool) :
  match _load_first_available load model_ids task multilabel with
  | Returns (pipe, mid, dt) =>
      exists before after,
        model_ids = before ++ mid :: after /\
        Forall (fun m => load m task multilabel = None) before /\
        load mid task multilabel = Some (pipe, dt)
  | Raises e =>
      e = RuntimeError /\ Forall (fun m => load m task multilabel = None) model_ids
  end.
Proof.
  induction model_ids as [|m rest IH]; cbn [_load_first_available].
  - split; [reflexivity | constructor].
  - destruct (load m task multilabel) as [[pipe dt]|] eqn:E.
    + exists [], rest. split; [reflexivity|]. split; [constructor | exact E].
    + destruct (_load_first_available load rest task multilabel)
        as [[[pipe mid] dt]|e].
      * destruct IH as (before & after & -> & Hb & Hl).
        exists (m :: before), after. split; [reflexivity|].
        split; [now constructor | exact Hl].
      * destruct IH as [-> Hall]. split; [reflexivity | now constructor].
Qed.

(** A call of one of the two [ensure_] methods, in the world it meets. *)
Inductive ensure_call : Type :=
| EnsureSentiment (w : World Pipe)
| EnsureEmotion (w : World Pipe).

Definition ensure (self : ModelManager Pipe) (c : ensure_call) : ModelManager Pipe :=
  match c with
  | EnsureSentiment w => (ensure_sentiment w self).1
  | EnsureEmotion w => (ensure_emotion w self).1
  end.

(** One entry of the status is sound: loaded, selected and timed go
    together, and the selected model is one of the candidates. *)
Definition sound (s : ModelStatus) : Prop :=
  (loaded s = true <-> selected s <> None) /\
  (loaded s = true <-> load_time_sec s <> None) /\
  (forall mid, selected s = Some mid -> In mid (candidates s)).

Lemma load_first_In load (ids : list string) (task : string) (ml : bool)
    (pipe : Pipe) (mid : string) (dt : Q) :
  _load_first_available load ids task ml = Returns (pipe, mid, dt) -> In mid ids.
Proof.
  induction ids as [|m rest IH]; cbn [_load_first_available]; [discriminate|].
  destruct (load m task ml) as [[pipe' dt']|].
  - intros [= _ <- _]. now left.
  - intros H. right. now apply IH.
Qed.

Definition sound_manager self : Prop :=
  sound (get_status self).1 /\ sound (get_status self).2.

Lemma ensure_sentiment_sound w self :
  sound_manager self -> sound_manager (ensure_sentiment w self).1.
Proof.
  intros [Hs He]. unfold ensure_sentiment.
  destruct (_sentiment_pipe self) as [p|] eqn:Ep; [now split|].
  assert (Hid : _sentiment_model_id self = None).
  { destruct Hs as [H _]. cbn in H. rewrite Ep in H.
    destruct (_sentiment_model_id self); [|reflexivity].
    assert (false = true) by (apply H; discriminate). discriminate. }
  destruct (_build_local_candidates (files w) "sentiment") as [|c cs] eqn:El.
  - cbn [fst]. split; [|exact He].
    unfold sound. cbn. rewrite Ep, Hid.
    destruct Hs as (H1 & H2 & H3). cbn in H1, H2. rewrite Ep in H1, H2. rewrite Hid in H1.
    split; [exact H1|]. split; [exact H2 | discriminate].
  - destruct (_load_first_available (load w) (c :: cs) "text-classification" false)
      as [[[pipe mid] dt]|e] eqn:Hl; cbn [fst].
    + split; [|exact He]. unfold sound. cbn.
      split; [split; [discriminate | reflexivity]|].
      split; [split; [discriminate | reflexivity]|].
      intros mid' [= <-]. exact (load_first_In _ _ _ _ _ _ _ Hl).
    + split; [|exact He].
      unfold sound. cbn. rewrite Ep, Hid.
      destruct Hs as (H1 & H2 & H3). cbn in H1, H2. rewrite Ep in H1, H2. rewrite Hid in H1.
      split; [exact H1|]. split; [exact H2 | discriminate].
Qed.

Lemma ensure_emotion_sound w self :
  sound_manager self -> sound_manager (ensure_emotion w self).1.
Proof.
  intros [Hs He]. unfold ensure_emotion.
  destruct (_emotion_pipe self) as [p|] eqn:Ep; [now split|].
  assert (Hid : _emotion_model_id self = None).
  { destruct He as [H _]. cbn in H. rewrite Ep in H.
    destruct (_emotion_model_id self); [|reflexivity].
    assert (false = true) by (apply H; discriminate). discriminate. }
  destruct (_build_local_candidates (files w) "emotion") as [|c cs] eqn:El.
  - cbn [fst]. split; [exact Hs|].
    unfold sound. cbn. rewrite Ep, Hid.
    destruct He as (H1 & H2 & H3). cbn in H1, H2. rewrite Ep in H1, H2. rewrite Hid in H1.
    split; [exact H1|]. split; [exact H2 | discriminate].
  - destruct (_load_first_available (load w) (c :: cs) "text-classification" _)
      as [[[pipe mid] dt]|e] eqn:Hl; cbn [fst].
    + split; [exact Hs|]. unfold sound. cbn.
      split; [split; [discriminate | reflexivity]|].
      split; [split; [discriminate | reflexivity]|].
      intros mid' [= <-]. exact (load_first_In _ _ _ _ _ _ _ Hl).
    + split; [exact Hs|].
      unfold sound. cbn. rewrite Ep, Hid.
      destruct He as (H1 & H2 & H3). cbn in H1, H2. rewrite Ep in H1, H2. rewrite Hid in H1.
      split; [exact H1|]. split; [exact H2 | discriminate].
Qed.

Lemma ensure_keeps self (c : ensure_call) :
  (forall p, _sentiment_pipe self = Some p ->
             _sentiment_pipe (ensure self c) = Some p /\
             _sentiment_model_id (ensure self c) = _sentiment_model_id self /\
             _sentiment_load_sec (ensure self c) = _sentiment_load_sec self) /\
  (forall p, _emotion_pipe self = Some p ->
             _emotion_pipe (ensure self c) = Some p /\
             _emotion_model_id (ensure self c) = _emotion_model_id self /\
             _emotion_load_sec (ensure self c) = _emotion_load_sec self).
Proof.
  destruct c as [w|w]; cbn [ensure]; unfold ensure_sentiment, ensure_emotion.
  - split; intros p Hp.
    + rewrite Hp. cbn [fst]. now rewrite Hp.
    + destruct (_sentiment_pipe self); cbn [fst]; [now rewrite Hp|].
      destruct (_build_local_candidates _ _); cbn [fst];
        [cbn [set_sentiment_candidates _emotion_pipe _emotion_model_id
              _emotion_load_sec]; now rewrite Hp|].
      destruct (_load_first_available _ _ _ _) as [[[pipe mid] dt]|e]; cbn [fst];
        cbn [set_sentiment set_sentiment_candidates _emotion_pipe _emotion_model_id
             _emotion_load_sec]; now rewrite Hp.
  - split; intros p Hp.
    + destruct (_emotion_pipe self); cbn [fst]; [now rewrite Hp|].
      destruct (_build_local_candidates _ _); cbn [fst];
        [cbn [set_emotion_candidates _sentiment_pipe _sentiment_model_id
              _sentiment_load_sec]; now rewrite Hp|].
      destruct (_load_first_available _ _ _ _) as [[[pipe mid] dt]|e]; cbn [fst];
        cbn [set_emotion set_emotion_candidates _sentiment_pipe _sentiment_model_id
             _sentiment_load_sec]; now rewrite Hp.
    + rewrite Hp. cbn [fst]. now rewrite Hp.
Qed.

(** X23.  Each model is loaded at most once.  After any sequence of calls
    of [ensure_sentiment] and [ensure_emotion], in whatever worlds and
    whether they returned or raised, both entries of [get_status] are
    sound: loaded, a selected model and a load time come together, and the
    selected model is one of the candidates.  A pipeline that is loaded
    stays, with its model id and load time, through every later call.  And
    a call that returns gives a pipeline and a model id, never [None]. *)
Theorem models_loaded_once (calls : list ensure_call) :
  let self := fold_left ensure calls ModelManager_init in
  sound (get_status self).1 /\ sound (get_status self).2 /\
  (forall c,
     (forall p, _sentiment_pipe self = Some p ->
                _sentiment_pipe (ensure self c) = Some p /\
                _sentiment_model_id (ensure self c) = _sentiment_model_id self /\
                _sentiment_load_sec (ensure self c) = _sentiment_load_sec self) /\
     (forall p, _emotion_pipe self = Some p ->
                _emotion_pipe (ensure self c) = Some p /\
                _emotion_model_id (ensure self c) = _emotion_model_id self /\
                _emotion_load_sec (ensure self c) = _emotion_load_sec self)) /\
  (forall w r,
     (ensure_sentiment w self).2 = Returns r \/ (ensure_emotion w self).2 = Returns r ->
     exists pipe mid, r = (Some pipe, Some mid)).
Proof.
  cbv zeta.
  assert (Hsound : sound_manager (fold_left ensure calls ModelManager_init)).
  { assert (H0 : sound_manager (@ModelManager_init Pipe)).
    { split; unfold sound; cbn; (split; [|split]); try discriminate;
        split; intros H; try discriminate; contradiction. }
    revert H0. generalize (@ModelManager_init Pipe).
    induction calls as [|c calls IH]; intros self Hs; [exact Hs|].
    cbn [fold_left]. apply IH. destruct c as [w|w]; cbn [ensure].
    - now apply ensure_sentiment_sound.
    - now apply ensure_emotion_sound. }
  set (self := fold_left ensure calls ModelManager_init) in *. clearbody self.
  destruct Hsound as [Hs He].
  split; [exact Hs|]. split; [exact He|]. split; [apply ensure_keeps|].
  intros w r [H|H].
  - unfold ensure_sentiment in H.
    destruct (_sentiment_pipe self) as [p|] eqn:Ep.
    + cbn in H. injection H as <-.
      destruct Hs as [H1 _]. cbn in H1. rewrite Ep in H1.
      destruct (_sentiment_model_id self) as [mid|]; [now exists p, mid|].
      exfalso. now apply (proj1 H1).
    + destruct (_build_local_candidates _ _); [discriminate|].
      destruct (_load_first_available _ _ _ _) as [[[pipe mid] dt]|e];
        [|discriminate].
      cbn in H. injection H as <-. now exists pipe, mid.
  - unfold ensure_emotion in H.
    destruct (_emotion_pipe self) as [p|] eqn:Ep.
    + cbn in H. injection H as <-.
      destruct He as [H1 _]. cbn in H1. rewrite Ep in H1.
      destruct (_emotion_model_id self) as [mid|]; [now exists p, mid|].
      exfalso. now apply (proj1 H1).
    + destruct (_build_local_candidates _ _); [discriminate|].
      destruct (_load_first_available _ _ _ _) as [[[pipe mid] dt]|e];
        [|discriminate].
      cbn in H. injection H as <-. now exists pipe, mid.
Qed.

End Loading.

(** Two candidates of which the first does not load: the second is
    selected, and a later call in a world without any model changes
    nothing. *)
Definition second_loads : World string :=
  {| files := three_models;
     load := fun mid _ _ =>
       if String.eqb mid "/srv/models/emotion/gamma" then None
       else Some ("pipeline of " +:+ mid, 2.5%Q);
     is_emotion_multi_label := false |}.

Definition no_models : World string :=
  {| files :=
       {| project_root := "/srv"; as_path := fun p => p;
          joinpath := fun a b => a +:+ "/" +:+ b; path_exists := fun _ => false;
          is_dir := fun _ => false; is_absolute := fun _ => false;
          name := fun p => p; iterdir := fun _ => [];
          read_text := fun _ => Raises RuntimeError;
          get_model_selector := fun _ => Raises RuntimeError |};
     load := fun _ _ _ => None;
     is_emotion_multi_label := false |}.

Example second_candidate_selected :
  let self := (ensure_emotion second_loads ModelManager_init).1 in
  selected (get_status self).2 = Some "/srv/models/emotion/Alpha" /\
  loaded (get_status self).2 = true /\
  loaded (get_status self).1 = false /\
  (ensure_emotion no_models self).1 = self /\
  (ensure_sentiment no_models self).2 = Raises RuntimeError.
Proof. vm_compute. repeat split. Qed.

End ManagerSpec.

(** ** [app/main.py]: the metrics endpoint *)

Module Endpoint.
Import Py Main Handlers Manager.

(** [(sum(l) / len(l)) if l else None] *)
Definition mean (l : list Q) : result (option Q) :=
  match l with
  | [] => Returns None
  | _ => a ← truediv (sum l) (inject_Z (Z.of_nat (length l))); Returns (Some a)
  end.

(** The entry ["inference_latency_ms"] of the report. *)
Record Latency : Type := {
  lat_avg : option Q;
  lat_p50 : option Q;
  lat_p95 : option Q;
  lat_p99 : option Q;
}.

(** What [metrics] returns.  [model_load_sec] and [device] are what
    [models.get_status()] and [get_device_report()] gave. *)
Record Report (S D : Type) : Type := {
  uptime_sec : Q;
  report_inference_count : nat;
  report_error_count : nat;
  inference_latency_ms : Latency;
  model_load_sec : S;
  device : D;
  emotion_top1_score : Summary;
  recent_60s : Summary;
  recent_300s : Summary;
}.
Arguments uptime_sec {S D} _.
Arguments report_inference_count {S D} _.
Arguments report_error_count {S D} _.
Arguments inference_latency_ms {S D} _.
Arguments model_load_sec {S D} _.
Arguments device {S D} _.
Arguments emotion_top1_score {S D} _.
Arguments recent_60s {S D} _.
Arguments recent_300s {S D} _.

(** [metrics]: [now] and [later] are its two readings of
    [time.perf_counter()], [models] is the model manager of the module,
    whose [get_status()] it calls, and [get_device_report] is the outcome
    of the call of that function of [app/config.py], which may raise. *)
Definition metrics {Pipe D : Type} (now later : Q) (models : ModelManager Pipe)
    (get_device_report : result D) (m : Metrics)
    : result (Report (ModelStatus * ModelStatus) D) :=
  let lat := inference_latencies_ms m in
  avg ← mean lat;
  let es := emotion_top1_scores m in
  let et := emotion_top1_times m in
  q50 ← _percentile lat 0.50;
  q95 ← _percentile lat 0.95;
  q99 ← _percentile lat 0.99;
  let status := get_status models in
  device_report ← get_device_report;
  es_avg ← mean es;
  e50 ← _percentile es 0.50;
  e95 ← _percentile es 0.95;
  e99 ← _percentile es 0.99;
  r60 ← _recent now es et 60.0;
  r300 ← _recent now es et 300.0;
  Returns
    {| uptime_sec := (later - start_time m)%Q;
       report_inference_count := inference_count m;
       report_error_count := error_count m;
       inference_latency_ms :=
         {| lat_avg := avg; lat_p50 := q50; lat_p95 := q95; lat_p99 := q99 |};
       model_load_sec := status;
       device := device_report;
       emotion_top1_score :=
         {| avg := es_avg; p50 := e50; p95 := e95; p99 := e99; count := length es |};
       recent_60s := r60;
       recent_300s := r300 |}.

End Endpoint.

(** ** The metrics endpoint: properties *)

Module EndpointSpec.
Import Py PyFacts Main MainSpec Handlers HandlersSpec Manager Endpoint.

(** Three percentiles of [values]: all null for the empty list, otherwise
    values of the list in ascending order. *)
Definition percentiles_of (values : list Q) (q50 q95 q99 : option Q) : Prop :=
  match values with
  | [] => q50 = None /\ q95 = None /\ q99 = None
  | _ =>
      exists a b c,
        q50 = Some a /\ q95 = Some b /\ q99 = Some c /\
        In a values /\ In b values /\ In c values /\ (a <= b)%Q /\ (b <= c)%Q
  end.

Lemma percentiles_return (values : list Q) :
  exists q50 q95 q99,
    _percentile values 0.50 = Returns q50 /\
    _percentile values 0.95 = Returns q95 /\
    _percentile values 0.99 = Returns q99 /\
    percentiles_of values q50 q95 q99.
Proof.
  destruct values as [|v values].
  - exists None, None, None. repeat split.
  - set (l := v :: values).
    assert (Hne : l <> []) by discriminate.
    destruct (percentile_le l 0.50 0.95 Hne ltac:(discriminate))
      as (a & b & Ha & Hb & Ia & Ib & Hab).
    destruct (percentile_le l 0.95 0.99 Hne ltac:(discriminate))
      as (b' & c & Hb' & Hc & _ & Ic & Hbc).
    rewrite Hb in Hb'. injection Hb' as <-.
    exists (Some a), (Some b), (Some c).
    split; [exact Ha|]. split; [exact Hb|]. split; [exact Hc|].
    exists a, b, c. repeat split; assumption.
Qed.

Lemma mean_returns (l : list Q) :
  exists a, mean l = Returns a /\
            match l with
            | [] => a = None
            | _ => exists x, a = Some x /\
                             (x == Qsum l / inject_Z (Z.of_nat (length l)))%Q
            end.
Proof.
  destruct l as [|v l]; [now exists None|].
  unfold mean.
  rewrite truediv_ok by (apply inject_Z_nonzero; cbn [length]; lia).
  cbn [mbind result_bind]. eexists. split; [reflexivity|].
  eexists. split; [reflexivity|]. now rewrite sum_Qsum.
Qed.

Lemma recent_returns (now w : Q) (vals times : list Q) :
  exists s,
    _recent now vals times w = Returns s /\
    count s = length (within now w vals times) /\
    percentiles_of (within now w vals times) (p50 s) (p95 s) (p99 s).
Proof.
  rewrite recent_unfold. cbv zeta.
  destruct (within now w vals times) as [|v sel] eqn:E.
  - exists no_sample. repeat split.
  - rewrite truediv_ok by (apply inject_Z_nonzero; cbn [length]; lia).
    cbn [mbind result_bind].
    destruct (percentiles_return (v :: sel)) as (q50 & q95 & q99 & H50 & H95 & H99 & Hp).
    rewrite H50, H95, H99. cbn [mbind result_bind].
    eexists. split; [reflexivity|]. split; [reflexivity | exact Hp].
Qed.

(** X24.  [metrics] raises exactly when [get_device_report()] does, and
    then what that call raised, whatever the metrics hold.  Otherwise its
    report copies the two counters and passes on the status of the models
    and the device report.  The latency and the top-1 percentiles are null
    for an empty buffer and otherwise values of the buffer with
    p50 <= p95 <= p99; the averages are null exactly for an empty buffer.
    The top-1 count is the length of the score buffer, and the count of
    the last 60 seconds is at most that of the last 300 seconds, which is
    at most the length of either top-1 buffer. *)
Theorem metrics_report {Pipe D : Type} (now later : Q) (models : ModelManager Pipe)
    (get_device_report : result D) (m : Metrics) :
  match get_device_report with
  | Raises e => metrics now later models get_device_report m = Raises e
  | Returns device_report =>
      exists r,
        metrics now later models get_device_report m = Returns r /\
        report_inference_count r = inference_count m /\
        report_error_count r = error_count m /\
        model_load_sec r = get_status models /\ device r = device_report /\
        percentiles_of (inference_latencies_ms m)
          (lat_p50 (inference_latency_ms r)) (lat_p95 (inference_latency_ms r))
          (lat_p99 (inference_latency_ms r)) /\
        (lat_avg (inference_latency_ms r) = None <-> inference_latencies_ms m = []) /\
        percentiles_of (emotion_top1_scores m)
          (p50 (emotion_top1_score r)) (p95 (emotion_top1_score r))
          (p99 (emotion_top1_score r)) /\
        (avg (emotion_top1_score r) = None <-> emotion_top1_scores m = []) /\
        count (emotion_top1_score r) = length (emotion_top1_scores m) /\
        (count (recent_60s r) <= count (recent_300s r))%nat /\
        (count (recent_300s r) <=
         Nat.min (length (emotion_top1_scores m)) (length (emotion_top1_times m)))%nat
  end.
Proof.
  unfold metrics. cbv zeta.
  destruct (mean_returns (inference_latencies_ms m)) as (la & Hla & Hla').
  destruct (percentiles_return (inference_latencies_ms m))
    as (q50 & q95 & q99 & H50 & H95 & H99 & Hq).
  destruct (mean_returns (emotion_top1_scores m)) as (ea & Hea & Hea').
  destruct (percentiles_return (emotion_top1_scores m))
    as (e50 & e95 & e99 & E50 & E95 & E99 & He).
  destruct (recent_returns now 60.0 (emotion_top1_scores m) (emotion_top1_times m))
    as (r60 & Hr60 & Hc60 & _).
  destruct (recent_returns now 300.0 (emotion_top1_scores m) (emotion_top1_times m))
    as (r300 & Hr300 & Hc300 & _).
  rewrite Hla, H50, H95, H99. cbn [mbind result_bind].
  destruct get_device_report as [device_report|e]; [|reflexivity].
  rewrite Hea, E50, E95, E99, Hr60, Hr300.
  cbn [mbind result_bind]. eexists. split; [reflexivity|].
  cbn [uptime_sec report_inference_count report_error_count inference_latency_ms
       model_load_sec device emotion_top1_score recent_60s recent_300s
       lat_avg lat_p50 lat_p95 lat_p99 avg p50 p95 p99 count].
  split; [reflexivity|]. split; [reflexivity|].
  split; [reflexivity|]. split; [reflexivity|]. split; [exact Hq|]. split.
  { destruct (inference_latencies_ms m).
    - now subst la.
    - destruct Hla' as (x & -> & _). split; discriminate. }
  split; [exact He|]. split.
  { destruct (emotion_top1_scores m).
    - now subst ea.
    - destruct Hea' as (x & -> & _). split; discriminate. }
  split; [reflexivity|]. rewrite Hc60, Hc300. split.
  - apply within_wider. discriminate.
  - apply within_length.
Qed.

(** After two requests, one answered and one failed, with a device report
    that comes back, and with one that raises. *)
Lemma metrics_report_witness :
  (exists r,
      metrics (Pipe := unit) 10 11 ModelManager_init (Returns "cpu")
        (serve [joy_request; failed_request] (initial_metrics 0)) = Returns r /\
      report_inference_count r = 2%nat /\ report_error_count r = 1%nat /\
      device r = "cpu" /\ count (emotion_top1_score r) = 1%nat) /\
  metrics (Pipe := unit) (D := string) 10 11 ModelManager_init (Raises RuntimeError)
    (serve [joy_request; failed_request] (initial_metrics 0)) = Raises RuntimeError.
Proof.
  split.
  - pose proof (metrics_report (Pipe := unit) 10 11 ModelManager_init (Returns "cpu")
                  (serve [joy_request; failed_request] (initial_metrics 0))) as H.
    cbv iota in H. destruct H as (r & Hr & Hi & He & _ & Hd & _ & _ & _ & _ & Hc & _).
    exists r. split; [exact Hr|].
    rewrite Hi, He, Hc. repeat split. exact Hd.
  - exact (metrics_report (Pipe := unit) (D := string) 10 11 ModelManager_init
             (Raises RuntimeError)
             (serve [joy_request; failed_request] (initial_metrics 0))).
Defined.

End EndpointSpec.

(** ** [app/main.py]: from the emotions to the response *)

Module Pipeline.
Import Py Analysis Models.

(** [canonicalize_distribution(emotions_pairs) if use_emotion_label_alias()
    else emotions_pairs]: the list [analyze_emotions] returned is the one
    object of the store, and the loop has one turn per entry and one to
    stop. *)
Definition canon_pairs_of (env : Env) (use_alias : bool)
    (emotions_pairs : list (string * Q)) (st : State)
    : result (State * list (string * Q)) :=
  if use_alias then
    match canonicalize_distribution env (S (length emotions_pairs)) 0
            {[ 0%nat := emotions_pairs ]} st with
    | Some (Returns (h, st, res)) => Returns (st, default [] (h !! res))
    | Some (Raises e) => Raises e
    | None => Raises RuntimeError  (* not reached: the loop has its turns *)
    end
  else Returns (st, emotions_pairs).

(** What the [try] block of [analyze] computes from the output of the
    emotion classifier: the emotions of the response, the VAD vector, the
    stress score and level.  [use_alias] is [use_emotion_label_alias()]. *)
Record Affect : Type := {
  emotions : list (string * Q);
  vad : VAD;
  stress : Q * string;
}.

Definition affect (env : Env) (use_alias multi : bool) (thr : Q) (topk : option Z)
    (raw_output : raw) (st : State) : result (State * Affect) :=
  emotions_pairs ← analyze_emotions multi thr topk raw_output;
  '(st, canon_pairs) ← canon_pairs_of env use_alias emotions_pairs st;
  '(st, v) ← emotions_to_vad env canon_pairs st;
  '(st, s) ← derive_stress env (valence v) (arousal v) canon_pairs st;
  Returns (st, {| emotions := canon_pairs; vad := v; stress := s |}).

End Pipeline.

(** ** From the emotions to the response: properties *)

Module PipelineSpec.
Import Py PyFacts Analysis AnalysisSpec Models ModelsSpec.
Import Main MainSpec HandlersSpec VadSpec SelectorSpec Pipeline.

(** The distribution with its labels replaced, scores and order kept. *)
Definition relabelled (f : string -> string) (pairs : list (string * Q))
    : list (string * Q) :=
  map (fun p => (f p.1, p.2)) pairs.

Lemma canon_pairs_alias (env : Env) (pairs : list (string * Q)) (st st1 : State) :
  ensure_mapper env st = Returns st1 ->
  canon_pairs_of env true pairs st = Returns (st1, relabelled (canon_of st1) pairs).
Proof.
  intros He. unfold canon_pairs_of, canonicalize_distribution. rewrite He.
  set (h := ({[ 0%nat := pairs ]} : gmap nat (list (string * Q)))).
  set (res := fresh (dom h)).
  assert (Hfresh : h !! res = None).
  { apply not_elem_of_dom. subst res. apply is_fresh. }
  assert (Hd : h !! 0%nat = Some pairs) by apply lookup_singleton_eq.
  assert (Hne : 0%nat <> res) by congruence.
  rewrite (canonicalize_loop_spec (canon_of st1) 0 res pairs _ 0 []).
  - cbn [mbind option_bind]. rewrite lookup_insert_eq. cbn [default from_option id].
    now rewrite drop_0.
  - exact Hne.
  - rewrite lookup_insert_ne by congruence. exact Hd.
  - apply lookup_insert_eq.
  - lia.
Qed.

Lemma canon_pairs_spec (env : Env) (use_alias : bool) (pairs : list (string * Q))
    (st st1 : State) :
  ensure_mapper env st = Returns st1 ->
  exists st2 f,
    canon_pairs_of env use_alias pairs st = Returns (st2, relabelled f pairs) /\
    ensure_mapper env st2 = Returns st1.
Proof.
  intros He. destruct use_alias.
  - exists st1, (canon_of st1). split; [now apply canon_pairs_alias|].
    destruct (ensure_mapper_frame env st st1 He) as (_ & _ & [m Hm] & _).
    unfold ensure_mapper. now rewrite Hm.
  - exists st, id. split; [|exact He].
    unfold canon_pairs_of, relabelled. f_equal. f_equal.
    rewrite <- (map_id pairs) at 1. apply map_ext. now intros [l s].
Qed.

(** *** The sign of the scores in single-label mode *)

Definition nonpos_scores (distribution : list (string * Q)) : Prop :=
  Forall (fun p => (p.2 <= 0)%Q) distribution.

Lemma clamped_total_nonpos (pairs : list (string * Q)) :
  (clamped_total pairs <= 0)%Q -> nonpos_scores pairs.
Proof.
  unfold clamped_total, nonpos_scores.
  induction pairs as [|p pairs IH]; intros H; [constructor|].
  cbn [map] in H. rewrite Qsum_cons in H.
  pose proof (clamped_total_nonneg pairs) as Hrest. unfold clamped_total in Hrest.
  pose proof (Q.le_max_l 0 p.2) as H0. pose proof (Q.le_max_r 0 p.2) as Hp.
  constructor; [lra|]. apply IH. lra.
Qed.

Lemma normalized_signed (raw_output : raw) (pairs : list (string * Q)) :
  _normalize_scores raw_output true = Returns pairs ->
  nonneg_scores pairs \/ nonpos_scores pairs.
Proof.
  destruct (Qlt_le_dec 0 (clamped_total (to_pairs raw_output))) as [Hpos|Hle].
  - rewrite (normalize_scores_scaled raw_output Hpos). intros [= <-]. left.
    unfold nonneg_scores. apply Forall_fmap, Forall_forall. intros p _.
    unfold compose. cbn [snd]. rewrite sum_clamped, max_Qmax.
    apply Qle_shift_div_l; [exact Hpos|]. rewrite Qmult_0_l.
    assert (H : (0.0 == 0)%Q) by reflexivity. rewrite H. apply Q.le_max_l.
  - rewrite (normalize_scores_kept raw_output Hle). intros [= <-]. right.
    now apply clamped_total_nonpos.
Qed.

Lemma relabelled_total (f : string -> string) (pairs : list (string * Q)) :
  total_score (relabelled f pairs) = total_score pairs.
Proof.
  unfold total_score, relabelled. rewrite map_map. reflexivity.
Qed.

Lemma nonpos_total (pairs : list (string * Q)) :
  nonpos_scores pairs -> (total_score pairs <= 0)%Q.
Proof.
  induction 1 as [|p pairs Hp _ IH]; [apply Qle_refl|].
  unfold total_score in *. cbn [map]. rewrite Qsum_cons. lra.
Qed.

Lemma stress_of_bounds (V A n : Q) : (0 <= stress_of V A n <= 1)%Q.
Proof.
  unfold stress_of. rewrite max_min_clamp. apply clamp01_bounds.
Qed.

Lemma ensure_negative_labels_mapper (env : Env) (st st' : State) (m : VADMapper) :
  _vad_mapper st = Some m ->
  ensure_negative_labels env st = Returns st' ->
  _vad_mapper st' = Some m.
Proof.
  intros Hm. unfold ensure_negative_labels, init_negative_labels.
  destruct (_negative_labels st); [now intros [= <-]|].
  destruct (explicit_negative env _) as [[neg_path loaded]|].
  - now intros [= <-].
  - unfold ensure_mapper. rewrite Hm. cbn [mbind result_bind]. rewrite Hm.
    now intros [= <-].
Qed.

Lemma cap_sorted_In (topk : option Z) (pairs : list (string * Q)) (p : string * Q) :
  In p (cap topk (sort_desc pairs)) -> In p pairs.
Proof.
  intros Hp. rewrite cap_take in Hp.
  apply list_elem_of_In in Hp. apply elem_of_take in Hp as (i & Hi & _).
  apply list_elem_of_lookup_2 in Hi. apply list_elem_of_In.
  now rewrite <- (sort_desc_perm pairs).
Qed.

(** What [affect] returns once the emotions are there. *)
Lemma affect_spec (env : Env) (use_alias multi : bool) (thr : Q) (topk : option Z)
    (raw_output : raw) (st st1 : State) (m : VADMapper) (out : list (string * Q)) :
  ensure_mapper env st = Returns st1 ->
  _vad_mapper st1 = Some m ->
  analyze_emotions multi thr topk raw_output = Returns out ->
  exists st' f v n,
    affect env use_alias multi thr topk raw_output st =
      Returns (st', {| emotions := relabelled f out; vad := v;
                       stress := (stress_of (valence v) (arousal v) n,
                                  level_of (stress_of (valence v) (arousal v) n)) |}) /\
    map_distribution m (relabelled f out) = Returns v /\
    _vad_mapper st' = Some m /\
    _negative_labels st' <> None.
Proof.
  intros He Hm Hout.
  destruct (canon_pairs_spec env use_alias out st st1 He) as (st2 & f & Hcanon & He2).
  destruct (map_distribution_returns m (relabelled f out)) as [v Hv].
  assert (Htovad : emotions_to_vad env (relabelled f out) st2 = Returns (st1, v)).
  { unfold emotions_to_vad. rewrite He2. cbn [mbind result_bind].
    rewrite Hm, Hv. reflexivity. }
  destruct (ensure_negative_labels_returns env st1) as [st' Hens];
    [right; congruence|].
  destruct (derive_stress_unfold env (valence v) (arousal v) (relabelled f out)
              st1 st' Hens) as [n Hstress].
  destruct (ensure_negative_labels_set env st1 st' Hens) as [negative Hnegative].
  exists st', f, v, n. split.
  { unfold affect. rewrite Hout. cbn [mbind result_bind].
    rewrite Hcanon. cbn [mbind result_bind].
    rewrite Htovad. cbn [mbind result_bind].
    rewrite Hstress. reflexivity. }
  split; [exact Hv|].
  split; [now apply (ensure_negative_labels_mapper env st1) | congruence].
Qed.

Lemma canon_pairs_canonical (env : Env) (use_alias : bool)
    (pairs : list (string * Q)) (st st1 : State) (m : VADMapper) :
  ensure_mapper env st = Returns st1 ->
  _vad_mapper st1 = Some m ->
  exists st2,
    canon_pairs_of env use_alias pairs st =
    Returns (st2, if use_alias then map (fun p => (canonical m p.1, p.2)) pairs
                  else pairs).
Proof.
  intros He Hm. destruct use_alias.
  - exists st1. rewrite (canon_pairs_alias env pairs st st1 He).
    unfold relabelled. f_equal. f_equal. apply map_ext. intros p.
    unfold canon_of. now rewrite Hm.
  - now exists st.
Qed.

(** X25.  The response of single-label mode.  When a mapper is there or
    the default one loads, the [try] block of [analyze] gets from any
    output of the emotion classifier, under any threshold and cap: the
    emotions [analyze_emotions] returned, as they are without aliases and,
    with aliases, each label replaced by its canonical form, scores and
    order kept; a stress score between 0 and 1 with one of the levels
    "low", "medium" and "high".  It leaves the mapper in place and the
    negative labels initialised. *)
Theorem affect_in_range (env : Env) (use_alias : bool) (thr : Q) (topk : option Z)
    (raw_output : raw) (st st1 : State) (m : VADMapper) :
  ensure_mapper env st = Returns st1 ->
  _vad_mapper st1 = Some m ->
  exists st' a out,
    analyze_emotions false thr topk raw_output = Returns out /\
    affect env use_alias false thr topk raw_output st = Returns (st', a) /\
    emotions a =
      (if use_alias then map (fun p => (canonical m p.1, p.2)) out else out) /\
    (0 <= (stress a).1 <= 1)%Q /\
    ((stress a).2 = "low" \/ (stress a).2 = "medium" \/ (stress a).2 = "high") /\
    _vad_mapper st' = Some m /\
    _negative_labels st' <> None.
Proof.
  intros He Hm.
  destruct (normalize_scores_returns raw_output) as [pairs Hpairs].
  set (out := cap topk (sort_desc pairs)).
  assert (Hout : analyze_emotions false thr topk raw_output = Returns out).
  { unfold analyze_emotions. cbn [negb]. now rewrite Hpairs. }
  destruct (affect_spec env use_alias false thr topk raw_output st st1 m out
              He Hm Hout) as (st' & f & v & n & Haffect & Hv & Hm' & Hneg').
  destruct (canon_pairs_canonical env use_alias out st st1 m He Hm) as [st2 Hcanon].
  eexists st', _, out.
  split; [exact Hout|]. split; [exact Haffect|].
  cbn [emotions stress fst snd].
  split.
  { unfold affect in Haffect. rewrite Hout in Haffect.
    cbn [mbind result_bind] in Haffect. rewrite Hcanon in Haffect.
    cbn [mbind result_bind] in Haffect.
    destruct (emotions_to_vad env _ st2) as [[st3 v3]|e3]; [|discriminate].
    cbn [mbind result_bind] in Haffect.
    destruct (derive_stress env _ _ _ st3) as [[st4 s4]|e4]; [|discriminate].
    cbn [mbind result_bind] in Haffect.
    injection Haffect as _ Hem _ _. symmetry. exact Hem. }
  split; [apply stress_of_bounds|].
  split; [|now split].
  unfold level_of.
  destruct (ltb _ 0.33); [now left|]. destruct (ltb _ 0.66); [right; now left|].
  right. now right.
Qed.

Lemma affect_in_range_witness :
  exists st' a,
    affect bare_env true false 0.5 None (Flat [entry "Joy" 3; entry "fear" 1])
      joy_sadness_state = Returns (st', a) /\
    emotions a = [("joy", (3 / 4)%Q); ("fear", (1 / 4)%Q)] /\
    (0 <= (stress a).1 <= 1)%Q /\
    _vad_mapper st' = Some joy_sadness.
Proof.
  destruct (affect_in_range bare_env true 0.5 None
              (Flat [entry "Joy" 3; entry "fear" 1])
              joy_sadness_state joy_sadness_state joy_sadness eq_refl eq_refl)
    as (st' & a & out & Hout & Haffect & Hem & Hs & _ & Hm & _).
  exists st', a. split; [exact Haffect|]. split; [|split; [exact Hs | exact Hm]].
  rewrite Hem.
  assert (Hc : analyze_emotions false 0.5 None (Flat [entry "Joy" 3; entry "fear" 1]) =
               Returns [("Joy", (3 / 4)%Q); ("fear", (1 / 4)%Q)])
    by (vm_compute; reflexivity).
  rewrite Hc in Hout. injection Hout as <-. vm_compute. reflexivity.
Defined.

(** *** The top-1 sample *)

Lemma suffix_last {A : Type} (l1 l2 : list A) :
  l1 `suffix_of` l2 -> l1 <> [] -> last l1 = last l2.
Proof.
  intros [pre ->] Hne. induction pre as [|x pre IH]; [reflexivity|].
  cbn [app]. rewrite IH. destruct (pre ++ l1) eqn:E; [|reflexivity].
  apply app_eq_nil in E as [_ E]. contradiction.
Qed.

Lemma append_capped_last (buf : list Q) (x : Q) :
  last (append_capped buf x) = Some x.
Proof.
  rewrite (suffix_last (append_capped buf x) (buf ++ [x])).
  - apply last_snoc.
  - now apply append_capped_suffix.
  - intros E. apply (f_equal (@length Q)) in E.
    rewrite append_capped_length in E. cbn [length] in E.
    destruct (length buf <? 2000)%nat; lia.
Qed.

Lemma relabelled_head (f : string -> string) (best : string * Q)
    (rest : list (string * Q)) :
  relabelled f (best :: rest) = (f best.1, best.2) :: relabelled f rest.
Proof. reflexivity. Qed.

(** X26.  The top-1 sample is the highest score.  When the classifier's
    output has at least one entry and the cap, if set, is not negative, the
    [try] block of [analyze] returns emotions whose first score is the
    highest of the distribution (normalised in single-label mode), and
    [analyze], answering a request with these emotions after any sequence
    of requests, leaves that score as the last entry of the top-1 score
    buffer and its clock reading as the last entry of the time buffer. *)
Theorem top1_sample_is_highest (env : Env) (use_alias multi : bool) (thr : Q)
    (topk : option Z) (raw_output : raw) (st st1 : State)
    (reqs : list Request) (t : Q) (req : Request) :
  (forall k, topk = Some k -> (0 <= k)%Z) ->
  to_pairs raw_output <> [] ->
  ensure_mapper env st = Returns st1 ->
  processed req = true ->
  exists st' a pairs best,
    _normalize_scores raw_output (negb multi) = Returns pairs /\
    first_highest best pairs /\
    affect env use_alias multi thr topk raw_output st = Returns (st', a) /\
    (outcome req = BodyReturns (emotions a) ->
     let m := (analyze req (serve reqs (initial_metrics t))).1 in
     last (emotion_top1_scores m) = Some best.2 /\
     last (emotion_top1_times m) = Some (t2 req)).
Proof.
  intros Hk Hne He Hreq.
  destruct (top_entry_head multi thr topk raw_output Hk Hne)
    as (pairs & best & rest & Hpairs & Hout & Hfirst).
  destruct (ensure_mapper_frame env st st1 He) as (_ & _ & [m Hm] & _).
  destruct (affect_spec env use_alias multi thr topk raw_output st st1 m
              (best :: rest) He Hm Hout) as (st' & f & v & n & Haffect & _).
  eexists st', _, pairs, best.
  split; [exact Hpairs|]. split; [exact Hfirst|]. split; [exact Haffect|].
  cbn [emotions]. rewrite relabelled_head. intros Hbody. cbv zeta.
  destruct (analyze_top1 req (serve reqs (initial_metrics t))
              (serve_lockstep reqs t)) as [Hs Ht].
  assert (Htop : top1_of req = Some (best.2, t2 req)).
  { unfold top1_of. now rewrite Hreq, Hbody. }
  rewrite Hs, Ht, Htop. cbn [fst snd].
  split; apply append_capped_last.
Qed.

Lemma top1_sample_is_highest_witness :
  exists st' a pairs best,
    _normalize_scores (Flat [entry "Joy" 3; entry "fear" 1]) (negb false) =
      Returns pairs /\
    first_highest best pairs /\
    affect bare_env true false 0.5 (Some 2%Z) (Flat [entry "Joy" 3; entry "fear" 1])
      joy_sadness_state = Returns (st', a).
Proof.
  destruct (top1_sample_is_highest bare_env true false 0.5 (Some 2%Z)
              (Flat [entry "Joy" 3; entry "fear" 1])
              joy_sadness_state joy_sadness_state [] 0 joy_request)
    as (st' & a & pairs & best & Hp & Hf & Ha & _).
  - intros k [= <-]. lia.
  - discriminate.
  - reflexivity.
  - reflexivity.
  - exists st', a, pairs, best.
    split; [exact Hp|]. split; [exact Hf | exact Ha].
Defined.

(** Joy 3 and fear 1 in single-label mode: the emotions are joy 3/4 and
    fear 1/4, fear is unknown to the table and counts as neutral. *)
Example affect_joy_fear :
  exists st' a,
    affect bare_env true false 0.5 None (Flat [entry "Joy" 3; entry "fear" 1])
      joy_sadness_state = Returns (st', a) /\
    emotions a = [("joy", (3 / 4)%Q); ("fear", (1 / 4)%Q)] /\
    (valence (vad a) == 0.8)%Q /\ (stress a).2 = "medium".
Proof.
  eexists _, _. split; [vm_compute; reflexivity|].
  split; [reflexivity|]. split; reflexivity.
Qed.

End PipelineSpec.

(** * Part IV: the arithmetic, in binary64

    The functions whose result depends on how floats round are embedded a
    second time, on the floats of the machine: [float] is IEEE 754
    binary64, and [+], [-], [*], [/] and the comparisons are its
    operations, rounding to nearest, ties to even.  Labels, tables of
    labels and the module state are those of Part I. *)

(** A decimal literal stands for the nearest float, as in Python. *)
Set Warnings "-inexact-float".

Module Binary64.
Import PrimFloat.
Import Py.

Abbreviation float := PrimFloat.float.

(** [a / b]: [ZeroDivisionError] when [b] is a zero of either sign. *)
Definition truediv (a b : float) : result float :=
  if (b =? 0)%float then Raises ZeroDivisionError else Returns (a / b)%float.

(** [max(a, b)] and [min(a, b)]: the first argument unless the second is
    strictly better; a NaN is never strictly better, nor ever beaten. *)
Definition max (a b : float) : float := if (a <? b)%float then b else a.
Definition min (a b : float) : float := if (b <? a)%float then b else a.

(** [float(z)] of an [int] that is a length: the nearest float, ties to
    even.  (A list is shorter than 2^63, so the [OverflowError] of ints
    beyond the floats does not arise.) *)
Definition float_of_int (z : Z) : float :=
  FloatOps.SF2Prim
    (SpecFloat.binary_normalize FloatOps.prec FloatOps.emax z 0 false).

(** [a / n] for an [int] [n]. *)
Definition truediv_int (a : float) (n : Z) : result float :=
  if (n =? 0)%Z then Raises ZeroDivisionError
  else Returns (a / float_of_int n)%float.

(** [int(x)]: truncation toward zero; [ValueError] on NaN, [OverflowError]
    on an infinity. *)
Definition int (x : float) : result Z :=
  match FloatOps.Prim2SF x with
  | SpecFloat.S754_nan => Raises ValueError
  | SpecFloat.S754_infinity _ => Raises OverflowError
  | SpecFloat.S754_zero _ => Returns 0%Z
  | SpecFloat.S754_finite s m e =>
      let a := (if 0 <=? e then Zpos m * 2 ^ e else Zpos m / 2 ^ (- e))%Z in
      Returns (if s then (- a)%Z else a)
  end.

(** The rational a finite float stands for. *)
Definition to_Q (x : float) : option Q :=
  match FloatOps.Prim2SF x with
  | SpecFloat.S754_zero _ => Some 0%Q
  | SpecFloat.S754_finite s m e =>
      Some ((if s then inject_Z (Zneg m) else inject_Z (Zpos m)) * 2 ^ e)%Q
  | _ => None
  end.

(** ** [main.py]: [_percentile]

    The values are only compared, so they stay rationals; [q] and the
    product [q * (n - 1)] are floats. *)
Definition _percentile (values : list Q) (q : float) : result (option Q) :=
  match values with
  | [] => Returns None
  | _ =>
      let s := sorted values in
      let n := Z.of_nat (length s) in
      idx ← int (q * float_of_int (n - 1));
      let idx := Z.max 0 (Z.min idx (n - 1)) in
      x ← getitem s idx; Returns (Some x)
  end.

(** ** [analysis.py]: [VADMapper] *)

Definition VAD : Type := (float * float * float)%type.

Definition valence (x : VAD) : float := x.1.1.
Definition arousal (x : VAD) : float := x.1.2.
Definition dominance (x : VAD) : float := x.2.

Definition neutral_vad : VAD := (0.5, 0.5, 0.5)%float.

Record VADMapper : Type := {
  mapping : gmap string VAD;
  alias : gmap string string;
}.

Definition VADMapper_init (mapping : list (string * VAD))
    (alias : option (list (string * string))) : VADMapper :=
  {| mapping := fold_left (fun m kv => <[lower kv.1 := kv.2]> m) mapping ∅;
     alias := fold_left (fun m kv => <[lower kv.1 := lower kv.2]> m)
                (default [] alias) ∅ |}.

Definition canonical (self : VADMapper) (label : string) : string :=
  let l := lower label in
  default l (alias self !! l).

Definition map_label (self : VADMapper) (label : string) : VAD :=
  let key := canonical self label in
  default neutral_vad (mapping self !! key).

(** One turn of the loop of [map_distribution] on the accumulators
    [(v, a, d, total)]. *)
Definition accumulate (self : VADMapper) (acc : float * float * float * float)
    (item : string * float) : float * float * float * float :=
  let '(v, a, d, total) := acc in
  let '(label, score) := item in
  let '(vv, aa, dd) := map_label self label in
  (v + score * vv, a + score * aa, d + score * dd, total + score)%float.

Definition map_distribution (self : VADMapper)
    (distribution : list (string * float)) : result VAD :=
  match distribution with
  | [] => Returns neutral_vad
  | _ =>
      let '(v, a, d, total) :=
        fold_left (accumulate self) distribution (0.0, 0.0, 0.0, 0.0)%float in
      if (total <=? 0)%float then Returns neutral_vad
      else
        v' ← truediv v total;
        a' ← truediv a total;
        d' ← truediv d total;
        Returns (v', a', d')
  end.

(** ** [analysis.py]: [derive_stress] *)

Definition derive_stress (env : Analysis.Env) (valence arousal : float)
    (distribution : list (string * float)) (st : Analysis.State)
    : result (Analysis.State * (float * string)) :=
  st ← Analysis.ensure_negative_labels env st;
  let neg_sum :=
    fold_left
      (fun neg_sum item =>
         if Analysis.is_negative st (Analysis.canon_of st item.1)
         then (neg_sum + item.2)%float else neg_sum)
      distribution 0.0%float in
  let stress := (0.6 * (1.0 - valence) + 0.4 * arousal + 0.15 * neg_sum)%float in
  let stress := max 0.0 (min 1.0 stress) in
  let level :=
    if (stress <? 0.33)%float then "low"
    else if (stress <? 0.66)%float then "medium"
    else "high" in
  Returns (st, (stress, level)).

(** ** The two normalisations

    [sum] is the built-in of the interpreter.  On floats CPython adds from
    left to right, from version 3.12 on with a compensation term, so the
    two functions take it as an argument. *)

(** One entry of a pipeline's output. *)
Record Item : Type := {
  item_label : option string;
  item_score : option float;
}.

Inductive raw : Type :=
| Flat (items : list Item)
| Nested (items : list (list Item)).

Definition to_pairs (items : raw) : list (string * float) :=
  let items :=
    match items with
    | Flat l => l
    | Nested (l :: _) => l
    | Nested [] => []
    end in
  map (fun it => (strip (default "" (item_label it)),
                  default 0.0%float (item_score it))) items.

Section Sum.
Variable sum : list float -> float.

(** [analysis.normalize_distribution] *)
Definition normalize_distribution (pairs : list (string * float))
    : result (list (string * float)) :=
  let total := sum (map (fun p => max 0.0 p.2) pairs) in
  if (total <=? 0)%float then
    let n := match pairs with [] => 1%Z | _ => Z.of_nat (length pairs) end in
    traverse (fun p => u ← truediv_int 1.0 n; Returns (p.1, u)) pairs
  else
    traverse (fun p => x ← truediv (max 0.0 p.2) total; Returns (p.1, x)) pairs.

(** [ModelManager._normalize_scores] *)
Definition _normalize_scores (items : raw) (normalize : bool)
    : result (list (string * float)) :=
  let pairs := to_pairs items in
  if normalize then
    let total := sum (map (fun p => max 0.0 p.2) pairs) in
    if (0 <? total)%float
    then traverse (fun p => x ← truediv (max 0.0 p.2) total; Returns (p.1, x)) pairs
    else Returns pairs
  else Returns pairs.

End Sum.

(** [sum] as CPython before 3.12 computes it: left to right, from 0. *)
Definition sum_left (xs : list float) : float :=
  fold_left PrimFloat.add xs 0%float.

End Binary64.


(** ** The order of the floats *)

Module Binary64Facts.
Import PrimFloat SpecFloat.
Import Py Binary64.

(** A float that is not NaN has a place in the order: the sign class, then
    the exponent, then the mantissa; both signs are negated below zero.
    The two zeros share a place. *)
Definition place (f : spec_float) : option (Z * Z * Z) :=
  match f with
  | S754_nan => None
  | S754_infinity s => Some (if s then (-2, 0, 0) else (2, 0, 0))%Z
  | S754_zero _ => Some (0, 0, 0)%Z
  | S754_finite s m e => Some (if s then (-1, - e, Zneg m) else (1, e, Zpos m))%Z
  end.

Definition before (a b : Z * Z * Z) : Prop :=
  (a.1.1 < b.1.1 \/
   (a.1.1 = b.1.1 /\ (a.1.2 < b.1.2 \/ (a.1.2 = b.1.2 /\ a.2 < b.2))))%Z.

Definition order_of (a b : Z * Z * Z) : comparison :=
  match (a.1.1 ?= b.1.1)%Z with
  | Eq => match (a.1.2 ?= b.1.2)%Z with
          | Eq => (a.2 ?= b.2)%Z
          | c => c
          end
  | c => c
  end.

Lemma SFcompare_place (a b : spec_float) :
  SFcompare a b =
  match place a, place b with
  | Some ka, Some kb => Some (order_of ka kb)
  | _, _ => None
  end.
Proof.
  destruct a as [sa|sa| |sa ma ea], b as [sb|sb| |sb mb eb];
    try reflexivity;
    try (destruct sa; reflexivity);
    try (destruct sb; reflexivity);
    try (destruct sa, sb; reflexivity).
  destruct sa, sb; cbn [SFcompare place]; try reflexivity; f_equal;
    unfold order_of; cbn [fst snd].
  change (-1 ?= -1)%Z with Eq.
  rewrite Z.compare_opp, (Z.compare_antisym ea eb).
  destruct (ea ?= eb)%Z; reflexivity.
Qed.

Lemma order_of_Lt (a b : Z * Z * Z) : order_of a b = Lt <-> before a b.
Proof.
  destruct a as [[a1 a2] a3], b as [[b1 b2] b3]. unfold order_of, before.
  cbn [fst snd].
  destruct (Z.compare_spec a1 b1), (Z.compare_spec a2 b2), (Z.compare_spec a3 b3);
    split; intros Hc; try discriminate Hc; try reflexivity; lia.
Qed.

Lemma order_of_Eq (a b : Z * Z * Z) : order_of a b = Eq <-> a = b.
Proof.
  destruct a as [[a1 a2] a3], b as [[b1 b2] b3]. unfold order_of.
  cbn [fst snd].
  destruct (Z.compare_spec a1 b1), (Z.compare_spec a2 b2), (Z.compare_spec a3 b3);
    split; intros Hc; try discriminate Hc; try reflexivity;
    try (injection Hc; lia); subst; reflexivity.
Qed.

(** The place of a float; [None] for NaN. *)
Definition place_of (x : float) : option (Z * Z * Z) := place (FloatOps.Prim2SF x).

Lemma ltb_place (x y : float) :
  (x <? y)%float = true <->
  exists a b, place_of x = Some a /\ place_of y = Some b /\ before a b.
Proof.
  rewrite FloatAxioms.ltb_spec. unfold SFltb, place_of.
  rewrite SFcompare_place.
  destruct (place (FloatOps.Prim2SF x)) as [a|], (place (FloatOps.Prim2SF y)) as [b|];
    try (split; [discriminate | intros (? & ? & ? & ? & _); discriminate]).
  split.
  - intros H. exists a, b. split; [reflexivity|]. split; [reflexivity|].
    apply order_of_Lt. now destruct (order_of a b).
  - intros (a' & b' & [= <-] & [= <-] & H). apply order_of_Lt in H. now rewrite H.
Qed.

Lemma leb_place (x y : float) :
  (x <=? y)%float = true <->
  exists a b, place_of x = Some a /\ place_of y = Some b /\ (before a b \/ a = b).
Proof.
  rewrite FloatAxioms.leb_spec. unfold SFleb, place_of.
  rewrite SFcompare_place.
  destruct (place (FloatOps.Prim2SF x)) as [a|], (place (FloatOps.Prim2SF y)) as [b|];
    try (split; [discriminate | intros (? & ? & ? & ? & _); discriminate]).
  split.
  - intros H. exists a, b. split; [reflexivity|]. split; [reflexivity|].
    destruct (order_of a b) eqn:E; try discriminate H.
    + right. now apply order_of_Eq.
    + left. now apply order_of_Lt.
  - intros (a' & b' & [= <-] & [= <-] & [H|H]).
    + apply order_of_Lt in H. now rewrite H.
    + apply order_of_Eq in H. now rewrite H.
Qed.

Lemma eqb_place (x y : float) :
  (x =? y)%float = true <->
  exists a, place_of x = Some a /\ place_of y = Some a.
Proof.
  rewrite FloatAxioms.eqb_spec. unfold SFeqb, place_of.
  rewrite SFcompare_place.
  destruct (place (FloatOps.Prim2SF x)) as [a|], (place (FloatOps.Prim2SF y)) as [b|];
    try (split; [discriminate | intros (? & ? & ?); discriminate]).
  split.
  - intros H. destruct (order_of a b) eqn:E; try discriminate H.
    apply order_of_Eq in E. subst. now exists b.
  - intros (c & [= ->] & [= ->]).
    assert (E : order_of c c = Eq) by now apply order_of_Eq. now rewrite E.
Qed.

Lemma before_cases (a b : Z * Z * Z) : before a b \/ a = b \/ before b a.
Proof.
  destruct a as [[a1 a2] a3], b as [[b1 b2] b3]. unfold before. cbn [fst snd].
  destruct (Z.lt_total a1 b1) as [?|[?|?]]; [lia| |lia].
  destruct (Z.lt_total a2 b2) as [?|[?|?]]; [lia| |lia].
  destruct (Z.lt_total a3 b3) as [?|[?|?]]; [lia| |lia].
  right. left. congruence.
Qed.

Lemma before_trans (a b c : Z * Z * Z) : before a b -> before b c -> before a c.
Proof. unfold before. lia. Qed.

Lemma before_irrefl (a : Z * Z * Z) : ~ before a a.
Proof. unfold before. lia. Qed.

Lemma ltb_leb (x y : float) : (x <? y)%float = true -> (x <=? y)%float = true.
Proof.
  rewrite ltb_place, leb_place. intros (a & b & Ha & Hb & H).
  exists a, b. auto.
Qed.

Lemma ltb_placed (x y : float) :
  (x <? y)%float = true -> is_Some (place_of x) /\ is_Some (place_of y).
Proof. rewrite ltb_place. intros (a & b & -> & -> & _). split; eauto. Qed.

Lemma leb_not_ltb (x y : float) :
  (x <=? y)%float = true -> (y <? x)%float = false.
Proof.
  rewrite leb_place. intros (a & b & Ha & Hb & H).
  apply not_true_iff_false. rewrite ltb_place.
  intros (b' & a' & Hb' & Ha' & H'). rewrite Ha in Ha'. rewrite Hb in Hb'.
  injection Ha' as <-. injection Hb' as <-.
  destruct H as [H| ->].
  - exact (before_irrefl a (before_trans _ _ _ H H')).
  - exact (before_irrefl b H').
Qed.

Lemma not_ltb_leb (x y : float) :
  is_Some (place_of x) -> is_Some (place_of y) ->
  (x <? y)%float = false -> (y <=? x)%float = true.
Proof.
  intros [a Ha] [b Hb] H. apply leb_place. exists b, a.
  split; [exact Hb|]. split; [exact Ha|].
  destruct (before_cases a b) as [Hab|[->|Hba]]; [|now right|now left].
  assert (Ht : (x <? y)%float = true) by (apply ltb_place; now exists a, b).
  congruence.
Qed.

Lemma ltb_leb_trans (x y z : float) :
  (x <? y)%float = true -> (y <=? z)%float = true -> (x <? z)%float = true.
Proof.
  rewrite !ltb_place, leb_place.
  intros (a & b & Ha & Hb & H) (b' & c & Hb' & Hc & H').
  rewrite Hb in Hb'. injection Hb' as <-.
  exists a, c. split; [exact Ha|]. split; [exact Hc|].
  destruct H' as [H'| <-]; [exact (before_trans _ _ _ H H') | exact H].
Qed.

(** A float that is not at most 0, or that is above 0, is not a zero. *)
Lemma eqb_leb (x y : float) : (x =? y)%float = true -> (x <=? y)%float = true.
Proof.
  rewrite eqb_place, leb_place. intros (a & Ha & Hb). exists a, a. auto.
Qed.

Lemma not_leb_nonzero (t : float) :
  (t <=? 0)%float = false -> (t =? 0)%float = false.
Proof.
  intros H. apply not_true_iff_false. intros E. apply eqb_leb in E. congruence.
Qed.


Lemma truediv_not_leb (a t : float) :
  (t <=? 0)%float = false -> truediv a t = Returns (a / t)%float.
Proof. intros H. unfold truediv. now rewrite (not_leb_nonzero t H). Qed.


(** [max(0.0, min(1.0, x))], by cases on [x]. *)
Lemma clamp_cases (x : float) :
  let s := max 0.0 (min 1.0 x) in
  ((0 <? x)%float = true /\ (x <? 1)%float = true /\ s = x) \/
  ((x <? 1)%float = false /\ s = 1.0%float) \/
  ((x <? 1)%float = true /\ (0 <? x)%float = false /\ s = 0.0%float).
Proof.
  unfold max, min.
  change (x <? 1.0)%float with (x <? 1)%float.
  destruct (x <? 1)%float eqn:E1.
  - change (0.0 <? x)%float with (0 <? x)%float.
    destruct (0 <? x)%float eqn:E0; [left | right; right]; auto.
  - right. left. split; [reflexivity|]. reflexivity.
Qed.

End Binary64Facts.

(** ** The numeric claims *)

Module Binary64Spec.
Import PrimFloat SpecFloat.
Import Py PyFacts Analysis Binary64 Binary64Facts.

(** *** [_percentile] *)

Lemma percentile_at_binary64 (values : list Q) (q : float) (i : Z) :
  values <> [] ->
  int (q * float_of_int (Z.of_nat (length values) - 1)) = Returns i ->
  exists x : Q,
    sorted values !!
      Z.to_nat (Z.max 0 (Z.min i (Z.of_nat (length values) - 1))) = Some x /\
    _percentile values q = Returns (Some x).
Proof.
  intros Hne Hint.
  assert (Hlen : length (sorted values) = length values)
    by apply stable_sort_length.
  assert (Hpos : (0 < length values)%nat)
    by (destruct values; [contradiction | simpl; lia]).
  destruct (lookup_lt_is_Some_2 (sorted values)
              (Z.to_nat (Z.max 0 (Z.min i (Z.of_nat (length values) - 1)))))
    as [x Hx]; [rewrite Hlen; lia|].
  exists x. split; [exact Hx|].
  unfold _percentile. destruct values as [|v vs]; [contradiction|].
  cbv zeta. rewrite Hlen, Hint. cbn [mbind result_bind].
  unfold getitem. now rewrite Hx.
Qed.

Lemma percentile_raises (values : list Q) (q : float) (e : exn) :
  values <> [] ->
  int (q * float_of_int (Z.of_nat (length values) - 1)) = Raises e ->
  _percentile values q = Raises e.
Proof.
  intros Hne Hint.
  assert (Hlen : length (sorted values) = length values)
    by apply stable_sort_length.
  unfold _percentile. destruct values as [|v vs]; [contradiction|].
  cbv zeta. rewrite Hlen, Hint. reflexivity.
Qed.

(** C7 (as amended).  [_percentile] returns null for the empty list.  For
    a non-empty list of n values it takes p, the binary64 product of q
    and n - 1: when p is NaN it raises [ValueError], when p is infinite
    [OverflowError]; otherwise it returns the element of the
    ascending-sorted list at index int(p), p truncated toward zero,
    clamped to [0, n - 1].  [_percentile([10, 20, 30, 40, 50], 0.5)] is
    30. *)
Theorem percentile_binary64_index :
  (forall q : float, _percentile [] q = Returns None) /\
  (forall (values : list Q) (q : float),
      values <> [] ->
      let top := (Z.of_nat (length values) - 1)%Z in
      Permutation (sorted values) values /\
      StronglySorted Qle (sorted values) /\
      match FloatOps.Prim2SF (q * float_of_int top) with
      | S754_nan => _percentile values q = Raises ValueError
      | S754_infinity _ => _percentile values q = Raises OverflowError
      | _ =>
          exists (i : Z) (x : Q),
            int (q * float_of_int top) = Returns i /\
            sorted values !! Z.to_nat (Z.max 0 (Z.min i top)) = Some x /\
            _percentile values q = Returns (Some x)
      end) /\
  _percentile [10; 20; 30; 40; 50]%Q 0.5 = Returns (Some 30%Q).
Proof.
  split; [reflexivity|]. split; [|vm_compute; reflexivity].
  intros values q Hne top.
  split; [apply sorted_perm|]. split; [apply sorted_ascending|].
  pose proof (percentile_at_binary64 values q) as Hat.
  pose proof (percentile_raises values q) as Hraise.
  fold top in Hat, Hraise. unfold int in Hat, Hraise |- *.
  destruct (FloatOps.Prim2SF (q * float_of_int top)) as [s|s| |s m e].
  - destruct (Hat _ Hne eq_refl) as (x & Hx & Hret). exists 0%Z, x.
    split; [reflexivity|]. split; [exact Hx | exact Hret].
  - now apply Hraise.
  - now apply Hraise.
  - destruct (Hat _ Hne eq_refl) as (x & Hx & Hret). eexists _, x.
    split; [reflexivity|]. split; [exact Hx | exact Hret].
Qed.

Lemma percentile_binary64_index_witness :
  [50; 10; 40]%Q <> [] /\
  _percentile [50; 10; 40]%Q 0.95 = Returns (Some 40%Q) /\
  _percentile [50; 10; 40]%Q 1e308 = Raises OverflowError /\
  _percentile [50; 10; 40]%Q (-3) = Returns (Some 10%Q).
Proof.
  assert (H : [50; 10; 40]%Q <> []) by discriminate.
  split; [exact H|].
  pose proof (proj2 (proj2 (proj1 (proj2 percentile_binary64_index)
                              [50; 10; 40]%Q 0.95%float H))) as H1.
  pose proof (proj2 (proj2 (proj1 (proj2 percentile_binary64_index)
                              [50; 10; 40]%Q 1e308%float H))) as H2.
  pose proof (proj2 (proj2 (proj1 (proj2 percentile_binary64_index)
                              [50; 10; 40]%Q (-3)%float H))) as H3.
  vm_compute in H1, H2, H3.
  destruct H1 as (i1 & x1 & [= <-] & [= <-] & H1).
  destruct H3 as (i3 & x3 & [= <-] & [= <-] & H3).
  split; [exact H1|]. split; [exact H2 | exact H3].
Defined.

(** C7 as stated fails: the product is rounded before it is truncated.
    For q = 0.3 (the float nearest to it, which is below 3/10) and eleven
    values, q * 10 in exact arithmetic is below 3 and its floor is 2, but
    the binary64 product is 3.0: [_percentile] returns the element at
    index 3. *)
Lemma percentile_floor_counterexample :
  exists exact : Q,
    to_Q 0.3 = Some exact /\
    (0 <= exact <= 1)%Q /\
    Qfloor (exact * 10) = 2%Z /\
    sorted [0; 1; 2; 3; 4; 5; 6; 7; 8; 9; 10]%Q !! 2%nat = Some 2%Q /\
    _percentile [0; 1; 2; 3; 4; 5; 6; 7; 8; 9; 10]%Q 0.3 = Returns (Some 3%Q).
Proof.
  eexists. split; [vm_compute; reflexivity|].
  split; [split; vm_compute; discriminate|].
  split; [vm_compute; reflexivity|].
  split; vm_compute; reflexivity.
Qed.

(** *** [map_distribution] *)

(** What a [+=] loop leaves: the floats added one by one, left to right,
    starting from 0.0. *)
Definition running (xs : list float) : float :=
  fold_left PrimFloat.add xs 0.0%float.

(** The running sum of score times the label's vector, on one axis, and
    the running sum of the scores. *)
Definition weighted (self : VADMapper) (axis : VAD -> float)
    (distribution : list (string * float)) : float :=
  running (map (fun p => p.2 * axis (map_label self p.1))%float distribution).

Definition total_score (distribution : list (string * float)) : float :=
  running (map snd distribution).

Lemma accumulate_fold_binary64 (self : VADMapper) (distribution : list (string * float))
    (v a d total : float) :
  fold_left (accumulate self) distribution (v, a, d, total) =
  (fold_left PrimFloat.add
     (map (fun p => p.2 * valence (map_label self p.1))%float distribution) v,
   fold_left PrimFloat.add
     (map (fun p => p.2 * arousal (map_label self p.1))%float distribution) a,
   fold_left PrimFloat.add
     (map (fun p => p.2 * dominance (map_label self p.1))%float distribution) d,
   fold_left PrimFloat.add (map snd distribution) total).
Proof.
  revert v a d total.
  induction distribution as [|[label score] rest IH]; intros v a d total;
    [reflexivity|].
  cbn [fold_left map fst snd]. rewrite <- IH. f_equal.
  unfold accumulate, valence, arousal, dominance.
  now destruct (map_label self label) as [[vv aa] dd].
Qed.

(** C1 (as amended).  [map_distribution] returns the neutral vector for
    the empty distribution and for one whose running total, the scores
    added in binary64 from left to right, is 0 or less.  Otherwise it
    returns, axis by axis, the running sum of score times the label's
    vector divided by the running total, each product, sum and quotient
    rounded to binary64.  The vector of a label is the table entry of its
    canonical form (the lower-cased label, or its alias when the alias
    table has one), the neutral vector when there is none. *)
Theorem map_distribution_running_average (self : VADMapper)
    (distribution : list (string * float)) :
  (distribution = [] \/ (total_score distribution <=? 0)%float = true ->
   map_distribution self distribution = Returns neutral_vad) /\
  (distribution <> [] /\ (total_score distribution <=? 0)%float = false ->
   map_distribution self distribution =
   Returns (weighted self valence distribution / total_score distribution,
            weighted self arousal distribution / total_score distribution,
            weighted self dominance distribution / total_score distribution)%float) /\
  (forall label : string,
      map_label self label =
      match mapping self !! match alias self !! lower label with
                            | Some target => target
                            | None => lower label
                            end with
      | Some entry => entry
      | None => (0.5, 0.5, 0.5)%float
      end).
Proof.
  split; [|split].
  - intros [->|Hle]; [reflexivity|].
    unfold map_distribution. destruct distribution as [|p rest]; [reflexivity|].
    rewrite accumulate_fold_binary64. fold (total_score (p :: rest)) in Hle |- *.
    unfold total_score, running in Hle. now rewrite Hle.
  - intros [Hne Hpos].
    unfold map_distribution. destruct distribution as [|p rest]; [contradiction|].
    rewrite accumulate_fold_binary64.
    unfold weighted, total_score, running in *.
    rewrite Hpos, !truediv_not_leb by exact Hpos. reflexivity.
  - intros label. unfold map_label, canonical.
    destruct (alias self !! lower label);
      now destruct (mapping self !! _).
Qed.

(** A table with an alias: "glad" stands for "joy". *)
Definition glad_table : VADMapper :=
  VADMapper_init [("Joy", (0.9, 0.6, 0.7)%float); ("sadness", (0.1, 0.4, 0.3)%float)]
    (Some [("Glad", "JOY")]).

Lemma map_distribution_running_average_witness :
  map_distribution glad_table [] = Returns neutral_vad /\
  map_distribution glad_table [("GLAD", 0.7); ("Sadness", 0.3)]%float =
    Returns (0.66, 0.54, 0.58)%float /\
  map_label glad_table "GLAD" = (0.9, 0.6, 0.7)%float /\
  map_label glad_table "fear" = (0.5, 0.5, 0.5)%float.
Proof.
  pose proof (map_distribution_running_average glad_table []) as (H0 & _ & _).
  pose proof (map_distribution_running_average glad_table
                [("GLAD", 0.7); ("Sadness", 0.3)]%float) as (_ & H1 & H2).
  split; [apply H0; now left|].
  split.
  - rewrite H1 by (split; [discriminate | vm_compute; reflexivity]).
    vm_compute. reflexivity.
  - split; rewrite H2; vm_compute; reflexivity.
Defined.

(** C1 as stated fails when its sums and quotients are those of exact
    arithmetic.  One label of score 0.07 and valence 0.9: the exact
    weighted average is the table's 0.9, and [map_distribution] returns
    0.9000000000000001.  Three scores 1e16, 1 and -1e16: their exact sum
    is 1, the running total is 0, and [map_distribution] returns the
    neutral vector. *)
Lemma map_distribution_exact_counterexample :
  (exists s v : Q,
      to_Q 0.07 = Some s /\ to_Q 0.9 = Some v /\
      (s * v / s == v)%Q /\
      map_distribution glad_table [("joy", 0.07%float)] =
        Returns (0.90000000000000013, 0.6, 0.7)%float /\
      (0.9 <? 0.90000000000000013)%float = true) /\
  (exists s1 s2 s3 : Q,
      to_Q 1e16 = Some s1 /\ to_Q 1 = Some s2 /\ to_Q (-1e16) = Some s3 /\
      (s1 + s2 + s3 == 1)%Q /\
      total_score [("joy", 1e16); ("joy", 1); ("joy", -1e16)]%float = 0%float /\
      map_distribution glad_table [("joy", 1e16); ("joy", 1); ("joy", -1e16)]%float =
        Returns neutral_vad).
Proof.
  split.
  - eexists _, _. split; [vm_compute; reflexivity|].
    split; [vm_compute; reflexivity|].
    split; [vm_compute; reflexivity|].
    split; vm_compute; reflexivity.
  - eexists _, _, _. split; [vm_compute; reflexivity|].
    split; [vm_compute; reflexivity|].
    split; [vm_compute; reflexivity|].
    split; [vm_compute; reflexivity|].
    split; vm_compute; reflexivity.
Qed.

(** *** [derive_stress] *)

(** The canonical form [derive_stress] gives a label: that of the mapper
    (the lower-cased label, or its alias when the alias table has one)
    when there is a mapper, the lower-cased label when there is none. *)
Definition canonical_label (mapper : option Analysis.VADMapper) (label : string)
    : string :=
  match mapper with
  | Some m =>
      match Analysis.alias m !! lower label with
      | Some target => target
      | None => lower label
      end
  | None => lower label
  end.

(** The mass of the negative labels: the scores of the entries whose
    canonical label is in [negative], added one by one in the order of the
    distribution. *)
Definition neg_mass (mapper : option Analysis.VADMapper) (negative : gset string)
    (distribution : list (string * float)) : float :=
  running
    (map snd
       (List.filter (fun p => bool_decide (canonical_label mapper p.1 ∈ negative))
          distribution)).

(** The stress before the clamp. *)
Definition raw_stress (V A mass : float) : float :=
  (0.6 * (1.0 - V) + 0.4 * A + 0.15 * mass)%float.

Lemma canon_of_label (st : State) (label : string) :
  canon_of st label = canonical_label (_vad_mapper st) label.
Proof.
  unfold canon_of, canonical_label, Analysis.canonical.
  destruct (_vad_mapper st) as [m|]; [|reflexivity].
  now destruct (Analysis.alias m !! lower label).
Qed.

Lemma neg_sum_fold_binary64 (st : State) (negative : gset string)
    (distribution : list (string * float)) (acc : float) :
  _negative_labels st = Some negative ->
  fold_left
    (fun neg_sum item =>
       if is_negative st (canon_of st item.1)
       then (neg_sum + item.2)%float else neg_sum)
    distribution acc =
  fold_left PrimFloat.add
    (map snd
       (List.filter
          (fun p => bool_decide (canonical_label (_vad_mapper st) p.1 ∈ negative))
          distribution))
    acc.
Proof.
  intros Hneg. revert acc.
  induction distribution as [|[label score] rest IH]; intros acc; [reflexivity|].
  cbn [fold_left List.filter fst snd]. rewrite IH.
  unfold is_negative. rewrite Hneg, canon_of_label.
  now destruct (bool_decide _).
Qed.

Lemma place_of_zero : place_of 0 = Some (0, 0, 0)%Z.
Proof. vm_compute. reflexivity. Qed.

Lemma place_of_one : is_Some (place_of 1).
Proof. vm_compute. eauto. Qed.

(** C2 (as amended).  [derive_stress] first makes sure of the negative
    labels, which are initialised on the first call: when that raises
    (no explicit list, no mapper yet, and the default table cannot be
    loaded), [derive_stress] raises the same exception.  Otherwise it
    returns a score and a level.  With raw the binary64 value of
    0.6*(1.0 - V) + 0.4*A + 0.15*neg_mass, where neg_mass adds in order
    the scores of the entries whose canonical label is in the
    negative-label set, the score is raw when 0 < raw < 1, 1.0 when raw is
    not below 1, and 0.0 when raw is below 1 and not above 0, so it is in
    [0, 1].  The
    level is "low" exactly when score < 0.33, "medium" exactly when
    0.33 <= score < 0.66 and "high" exactly when 0.66 <= score. *)
Theorem derive_stress_formula_levels (env : Env) (V A : float)
    (distribution : list (string * float)) (st : State) :
  match ensure_negative_labels env st with
  | Raises e => derive_stress env V A distribution st = Raises e
  | Returns st' =>
      exists (negative : gset string) (score : float) (level : string),
        _negative_labels st' = Some negative /\
        derive_stress env V A distribution st = Returns (st', (score, level)) /\
        (let raw := raw_stress V A (neg_mass (_vad_mapper st') negative distribution) in
         ((0 <? raw)%float = true /\ (raw <? 1)%float = true /\ score = raw) \/
         ((raw <? 1)%float = false /\ score = 1.0%float) \/
         ((raw <? 1)%float = true /\ (0 <? raw)%float = false /\ score = 0.0%float)) /\
        (0 <=? score)%float = true /\ (score <=? 1)%float = true /\
        (level = "low" <-> (score <? 0.33)%float = true) /\
        (level = "medium" <->
           (0.33 <=? score)%float = true /\ (score <? 0.66)%float = true) /\
        (level = "high" <-> (0.66 <=? score)%float = true)
  end.
Proof.
  destruct (ensure_negative_labels env st) as [st'|e] eqn:Hens.
  2:{ unfold derive_stress. now rewrite Hens. }
  destruct (AnalysisSpec.ensure_negative_labels_set env st st' Hens)
    as [negative Hneg].
  exists negative. unfold derive_stress. rewrite Hens. cbn [mbind result_bind].
  rewrite (neg_sum_fold_binary64 st' negative) by exact Hneg.
  fold (running (map snd
          (List.filter
             (fun p => bool_decide (canonical_label (_vad_mapper st') p.1 ∈ negative))
             distribution))).
  fold (neg_mass (_vad_mapper st') negative distribution).
  fold (raw_stress V A (neg_mass (_vad_mapper st') negative distribution)).
  set (raw := raw_stress V A _).
  pose proof (clamp_cases raw) as Hclamp. cbv zeta in Hclamp.
  set (score := max 0.0 (min 1.0 raw)) in *.
  eexists score, _. split; [exact Hneg|]. split; [reflexivity|].
  split; [exact Hclamp|].
  assert (Hplaced : is_Some (place_of score)).
  { destruct Hclamp as [(H0 & _ & ->)|[(_ & ->)|(_ & _ & ->)]].
    - exact (proj2 (ltb_placed _ _ H0)).
    - exact place_of_one.
    - rewrite place_of_zero. eauto. }
  assert (Hlo : (0 <=? score)%float = true).
  { destruct Hclamp as [(H0 & _ & ->)|[(_ & ->)|(_ & _ & ->)]];
      [now apply ltb_leb | reflexivity | reflexivity]. }
  assert (Hhi : (score <=? 1)%float = true).
  { destruct Hclamp as [(_ & H1 & ->)|[(_ & ->)|(_ & _ & ->)]];
      [now apply ltb_leb | reflexivity | reflexivity]. }
  split; [exact Hlo|]. split; [exact Hhi|].
  assert (P33 : is_Some (place_of 0.33)) by (vm_compute; eauto).
  assert (P66 : is_Some (place_of 0.66)) by (vm_compute; eauto).
  assert (H36 : (0.33 <? 0.66)%float = true) by reflexivity.
  destruct (score <? 0.33)%float eqn:E1; [|destruct (score <? 0.66)%float eqn:E2].
  - repeat split; try discriminate; auto.
    + intros [H _]. apply leb_not_ltb in H. congruence.
    + intros H.
      pose proof (ltb_leb_trans 0.33 0.66 score H36 H) as H'.
      apply ltb_leb, leb_not_ltb in H'. congruence.
  - pose proof (not_ltb_leb _ _ Hplaced P33 E1) as H33.
    repeat split; try discriminate; auto.
    intros H. apply leb_not_ltb in H. congruence.
  - pose proof (not_ltb_leb _ _ Hplaced P66 E2) as H66.
    repeat split; try discriminate; auto.
    intros [_ H]. discriminate H.
Qed.

Lemma derive_stress_formula_levels_witness :
  exists st' : State,
    derive_stress AnalysisSpec.bare_env 0.2 0.5 [("BLUE", 0.5); ("joy", 0.5)]%float
      AnalysisSpec.blue_state = Returns (st', (0.75499999999999989, "high"))%float /\
    _negative_labels st' = Some {["sadness"]} /\
    (0.66 <=? 0.75499999999999989)%float = true.
Proof.
  pose proof (derive_stress_formula_levels AnalysisSpec.bare_env 0.2 0.5
                [("BLUE", 0.5); ("joy", 0.5)]%float AnalysisSpec.blue_state) as H.
  assert (Hc : exists c,
             ensure_negative_labels AnalysisSpec.bare_env AnalysisSpec.blue_state = Returns c /\
             _negative_labels c = Some {["sadness"]} /\
             derive_stress AnalysisSpec.bare_env 0.2 0.5
               [("BLUE", 0.5); ("joy", 0.5)]%float AnalysisSpec.blue_state =
               Returns (c, (0.75499999999999989, "high"))%float).
  { eexists. split; [vm_compute; reflexivity|]. split; vm_compute; reflexivity. }
  destruct Hc as (c & Hens & Hset & Hval). rewrite Hens in H.
  destruct H as (negative & score & level & _ & Hret & _ & _ & _ & _ & _ & Hhigh).
  rewrite Hval in Hret. injection Hret as <- <-.
  exists c. split; [exact Hval|]. split; [exact Hset|].
  now apply Hhigh.
Defined.

(** The boundaries: a score of 0.33 is "medium", a score of 0.66 "high". *)
Example stress_boundaries :
  (exists st',
      derive_stress AnalysisSpec.bare_env 1 0.825 [] AnalysisSpec.blue_state =
        Returns (st', (0.33, "medium"))%float) /\
  (exists st',
      derive_stress AnalysisSpec.bare_env 0.4 0.75 [] AnalysisSpec.blue_state =
        Returns (st', (0.66, "high"))%float).
Proof. split; eexists; vm_compute; reflexivity. Qed.

(** C2 as stated fails: [derive_stress] does not return for every input.
    On a fresh module state, with no explicit negative list and a default
    table that does not decode, the first call raises what the decoder
    raised. *)
Lemma derive_stress_raises_counterexample :
  _negative_labels initial_state = None /\
  _vad_mapper initial_state = None /\
  derive_stress AnalysisSpec.broken_default 0.5 0.5 [("joy", 1.0%float)] initial_state =
    Raises ValueError.
Proof. repeat split. Qed.

(** *** The two normalisations *)

Section Normalisation.
Variable sum : list float -> float.

(** The total both functions divide by: [sum] of the scores, each raised
    to 0.0 when it is below. *)
Definition clamped_total (pairs : list (string * float)) : float :=
  sum (map (fun p => max 0.0 p.2) pairs).







End Normalisation.

Definition entry (l : string) (s : float) : Item :=
  {| item_label := Some l; item_score := Some s |}.


(** The quotients are rounded: 0.1, 0.2 and 0.3 normalise to three scores
    that add up to 0.9999999999999999. *)
Example normalized_sum_rounds :
  exists out,
    normalize_distribution sum_left [("a", 0.1); ("b", 0.2); ("c", 0.3)]%float =
      Returns out /\
    sum_left (map snd out) = 0.99999999999999989%float.
Proof. eexists. split; vm_compute; reflexivity. Qed.


End Binary64Spec.
